(** * openssl-ddd: the TLS client demos, embedded in Rocq

    The development covers the demos of the repository:

    - Demo 4 ([Fd]): libssl is bound to a caller-created descriptor with
      [SSL_set_fd] and performs the network I/O itself;
    - Demo 5 ([Mem]): libssl is bound to one half of a BIO pair and the
      application pumps the encrypted bytes between the other half and
      the socket;
    - Demo 3 ([Blk]): the blocking variant, a [BIO_f_ssl] filter over an
      SSL bound to a caller-created descriptor;
    - the example drivers of the three demos ([BlkDriver], [FdDriver],
      [MemDriver]), with the context functions they share.  They run in
      a [Proc], which adds to the [World] what a process holds besides
      its connections.

    libssl, libc and the kernel are outside the repository.  They are
    modelled by a [World]: an allocation ledger (which objects are live
    and who owns what), the log of the external calls made so far, the
    diagnostics written to stderr, the SSLs whose handshake is complete,
    and an oracle [env] that fixes the outcome of every external call by
    the position of the call in the run.  The C functions are written in
    a state monad over [World]; a theorem that quantifies over every
    [World] quantifies over every behaviour of the engine and of the
    transport. *)

From Stdlib Require Import ZArith List Lia Bool String.
From stdpp Require Import base gmap list.

Open Scope Z_scope.

(** ** Constants of the system headers *)

(** Modelled from the spec: <openssl/ssl.h> is not part of the sources;
    the error codes returned by [SSL_get_error] carry the values of that
    header.  The spec's would-block causes NeedRead, NeedWrite and
    NeedConnect are [SSL_ERROR_WANT_READ], [SSL_ERROR_WANT_WRITE] and
    [SSL_ERROR_WANT_CONNECT]; orderly peer close is
    [SSL_ERROR_ZERO_RETURN]. *)
Definition SSL_ERROR_NONE : Z := 0.
Definition SSL_ERROR_SSL : Z := 1.
Definition SSL_ERROR_WANT_READ : Z := 2.
Definition SSL_ERROR_WANT_WRITE : Z := 3.
Definition SSL_ERROR_WANT_X509_LOOKUP : Z := 4.
Definition SSL_ERROR_SYSCALL : Z := 5.
Definition SSL_ERROR_ZERO_RETURN : Z := 6.
Definition SSL_ERROR_WANT_CONNECT : Z := 7.

(** Modelled from the spec: <sys/poll.h> is not part of the sources; the
    spec's event set Readable, Writable, Error is the three bits
    [POLLIN], [POLLOUT], [POLLERR], with the values of the Linux header. *)
Definition POLLIN : Z := 1.
Definition POLLOUT : Z := 4.
Definition POLLERR : Z := 8.

(** Modelled from the spec: <errno.h> is not part of the sources; the
    transport's no-more-data-now condition is [EAGAIN]. *)
Definition EAGAIN : Z := 11.

(** Modelled from the spec: <openssl/bio.h> is not part of the sources;
    [BIO_CLOSE] is the close flag of [BIO_set_ssl], and a BIO pair made
    with size 0 gets the library's default capacity. *)
Definition BIO_CLOSE : Z := 1.
Definition BIO_PAIR_DEFAULT_SIZE : nat := Z.to_nat 17408.

(** ** Event sets *)

Inductive event := Readable | Writable | Error.

Definition event_bit (e : event) : Z :=
  match e with
  | Readable => POLLIN
  | Writable => POLLOUT
  | Error => POLLERR
  end.

(** [wants mask e]: the poll mask [mask] contains the event [e]. *)
Definition wants (mask : Z) (e : event) : bool :=
  negb (Z.land mask (event_bit e) =? 0).

(** The mask holds nothing but the three events. *)
Definition only_events (mask : Z) : Prop :=
  Z.land mask (Z.lnot (Z.lor POLLIN (Z.lor POLLOUT POLLERR))) = 0.

(** ** The world outside the repository *)

Abbreviation addr := nat.

(** What the ledger knows of a live object. *)
Inductive obj :=
| OConn                                            (* a calloc'ed APP_CONN *)
| OSsl (bio : option addr)                         (* an SSL and the BIO it owns *)
| OBioFd (fd : Z)                                  (* the socket BIO of SSL_set_fd *)
| OBioPair (peer : option addr) (size : nat) (buf : list Byte.byte)
                                                   (* one half of a BIO pair, with
                                                      the bytes written to it *)
| OBioSsl (ssl : option addr) (close : bool).      (* a BIO_f_ssl filter *)

(** External calls, as they are logged. *)
Inductive call :=
| Ccalloc (p : option addr)
| Cfree (p : addr)
| CSSL_new (s : option addr)
| CSSL_set_connect_state (s : addr)
| CSSL_set_fd (s : addr) (fd : Z) (r : Z)
| CSSL_set_bio (s b : addr)
| CSSL_set1_host (s : addr) (host : string) (r : Z)
| CSSL_set_tlsext_host_name (s : addr) (host : string) (r : Z)
| CSSL_write (s : addr) (len : Z) (r : Z)
| CSSL_read (s : addr) (len : Z) (r : Z)
| CSSL_get_error (s : addr) (l : Z) (r : Z)
| CSSL_shutdown (s : addr) (r : Z)
| CSSL_free (s : addr)
| CBIO_new_bio_pair (r : Z)
| CBIO_new (b : option addr)
| CBIO_set_ssl (b s : addr) (r : Z)
| CBIO_free (b : addr)
| Cpoll (fd events timeout : Z) (r revents : Z)
| Cread (fd count : Z) (r : Z)
| Cwrite (fd : Z) (data : list Byte.byte) (l : Z) (r : Z).

(** Lines written to stderr by the pump. *)
Inductive diag :=
| ErrorOnRead (errno : Z)          (* "error on read: %d\n" *)
| ShortWrite (l2 l : Z)            (* "short write %d %d\n" *)
| ShortRead (l2 l : Z).            (* "short read %d %d\n" *)

(** The outcome the environment gives to one external call: its return
    value, a secondary result (errno after [read], revents after [poll],
    and after [SSL_write] or [SSL_read] whether the call completed the
    handshake), the bytes it produces (ciphertext queued by the engine,
    data read from the network) and the number of queued input bytes the
    engine consumes. *)
Record reply := Reply {
  r_ret : Z;
  r_aux : Z;
  r_data : list Byte.byte;
  r_take : nat
}.

Record World := mkWorld {
  env : nat -> reply;        (* outcome of the n-th external call *)
  clock : nat;               (* number of external calls answered so far *)
  heap : gmap addr obj;      (* the live objects *)
  trace : list call;         (* the external calls made, oldest first *)
  stderr : list diag;        (* the diagnostics printed, oldest first *)
  established : gset addr    (* the SSLs whose handshake is complete *)
}.

Definition M (A : Type) : Type := World -> A * World.

#[export] Instance M_ret : MRet M := fun A a w => (a, w).
#[export] Instance M_bind : MBind M :=
  fun A B k m w => let (a, w') := m w in k a w'.

Definition gets {A} (f : World -> A) : M A := fun w => (f w, w).

Definition set_heap (f : gmap addr obj -> gmap addr obj) : M unit :=
  fun w => (tt, mkWorld (env w) (clock w) (f (heap w)) (trace w) (stderr w)
                        (established w)).

Definition set_established (f : gset addr -> gset addr) : M unit :=
  fun w => (tt, mkWorld (env w) (clock w) (heap w) (trace w) (stderr w)
                        (f (established w))).

Definition log (c : call) : M unit :=
  fun w => (tt, mkWorld (env w) (clock w) (heap w) (trace w ++ [c]) (stderr w)
                        (established w)).

(** [fprintf(stderr, ...)] *)
Definition fprintf (d : diag) : M unit :=
  fun w => (tt, mkWorld (env w) (clock w) (heap w) (trace w) (stderr w ++ [d])
                        (established w)).

(** The environment answers the next external call. *)
Definition fetch : M reply :=
  fun w => (env w (clock w),
            mkWorld (env w) (S (clock w)) (heap w) (trace w) (stderr w)
                    (established w)).

(** A new object at an address that is not live. *)
Definition alloc (o : obj) : M addr :=
  fun w => let a := fresh (dom (heap w)) in
           (a, mkWorld (env w) (clock w) (<[a := o]> (heap w)) (trace w) (stderr w)
                       (established w)).

(** ** libc *)

Definition calloc : M (option addr) :=
  r ← fetch;
  if r_ret r =? 0 then log (Ccalloc None);; mret None
  else p ← alloc OConn; log (Ccalloc (Some p));; mret (Some p).

Definition free (p : addr) : M unit :=
  log (Cfree p);; set_heap (delete p).

(** ** libssl: BIOs *)

(** Releasing a BIO: a pair half is unlinked from its peer, whose queued
    bytes are dropped with the pair. *)
Definition bio_release (b : addr) (h : gmap addr obj) : gmap addr obj :=
  match h !! b with
  | Some (OBioPair (Some p) _ _) =>
      match h !! p with
      | Some (OBioPair _ psize _) => delete b (<[p := OBioPair None psize []]> h)
      | _ => delete b h
      end
  | _ => delete b h
  end.

(** Releasing an SSL releases the BIO it owns. *)
Definition ssl_release (s : addr) (h : gmap addr obj) : gmap addr obj :=
  match h !! s with
  | Some (OSsl (Some b)) => delete s (bio_release b h)
  | _ => delete s h
  end.

(** What a call into the engine does to the buffers under memory binding:
    the ciphertext it produces is queued on its own half as far as the
    capacity allows, and it consumes queued bytes of the other half. *)
Definition engine_io (s : addr) (r : reply) (h : gmap addr obj) : gmap addr obj :=
  match h !! s with
  | Some (OSsl (Some b)) =>
      match h !! b with
      | Some (OBioPair (Some p) size buf) =>
          let h1 := <[b := OBioPair (Some p) size
                              (buf ++ take (size - length buf)%nat (r_data r))]> h in
          match h1 !! p with
          | Some (OBioPair pp psize pbuf) =>
              <[p := OBioPair pp psize (drop (r_take r) pbuf)]> h1
          | _ => h1
          end
      | _ => h
      end
  | _ => h
  end.

(** ** libssl: the engine *)

(** What a call of [SSL_write] or [SSL_read] does to the handshake: it is
    complete once the call has moved application data (a positive
    result) or the environment says that the call completed it, and it
    stays complete (renegotiation is not modelled). *)
Definition handshake (s : addr) (r : reply) (e : gset addr) : gset addr :=
  if (0 <? r_ret r) || negb (r_aux r =? 0) then {[s]} ∪ e else e.

(** A new SSL has its handshake before it. *)
Definition SSL_new (ctx : addr) : M (option addr) :=
  r ← fetch;
  if r_ret r =? 0 then log (CSSL_new None);; mret None
  else
    s ← alloc (OSsl None);
    set_established (fun e => e ∖ {[s]});;
    log (CSSL_new (Some s));; mret (Some s).

Definition SSL_set_connect_state (s : addr) : M unit :=
  log (CSSL_set_connect_state s).

(** The SSL takes ownership of the BIO, and drops the one it had. *)
Definition ssl_attach (s b : addr) (h : gmap addr obj) : gmap addr obj :=
  match h !! s with
  | Some (OSsl (Some old)) =>
      if decide (old = b) then h else <[s := OSsl (Some b)]> (bio_release old h)
  | _ => <[s := OSsl (Some b)]> h
  end.

Definition SSL_set_bio (s b : addr) : M unit :=
  log (CSSL_set_bio s b);; set_heap (ssl_attach s b).

Definition SSL_set_fd (s : addr) (fd : Z) : M Z :=
  r ← fetch;
  log (CSSL_set_fd s fd (r_ret r));;
  if r_ret r <=? 0 then mret (r_ret r)
  else b ← alloc (OBioFd fd); set_heap (ssl_attach s b);; mret (r_ret r).

Definition SSL_set1_host (s : addr) (host : string) : M Z :=
  r ← fetch; log (CSSL_set1_host s host (r_ret r));; mret (r_ret r).

Definition SSL_set_tlsext_host_name (s : addr) (host : string) : M Z :=
  r ← fetch; log (CSSL_set_tlsext_host_name s host (r_ret r));; mret (r_ret r).

Definition SSL_write (s : addr) (buf : list Byte.byte) (len : Z) : M Z :=
  r ← fetch;
  log (CSSL_write s len (r_ret r));;
  set_heap (engine_io s r);;
  set_established (handshake s r);;
  mret (r_ret r).

Definition SSL_read (s : addr) (len : Z) : M Z :=
  r ← fetch;
  log (CSSL_read s len (r_ret r));;
  set_heap (engine_io s r);;
  set_established (handshake s r);;
  mret (r_ret r).

Definition SSL_get_error (s : addr) (l : Z) : M Z :=
  r ← fetch; log (CSSL_get_error s l (r_ret r));; mret (r_ret r).

(** The close notification; its result is the engine's business. *)
Definition SSL_shutdown (s : addr) : M Z :=
  r ← fetch;
  log (CSSL_shutdown s (r_ret r));;
  set_heap (engine_io s r);;
  mret (r_ret r).

Definition SSL_free (s : addr) : M unit :=
  log (CSSL_free s);; set_heap (ssl_release s).

(** ** libssl: BIO operations *)

(** [BIO_new_bio_pair(&b1, 0, &b2, 0)]: two linked halves, or nothing at
    all when the call fails (result [<= 0]). *)
Definition BIO_new_bio_pair (size1 size2 : nat) : M (option (addr * addr)) :=
  r ← fetch;
  log (CBIO_new_bio_pair (r_ret r));;
  if r_ret r <=? 0 then mret None
  else
    let sz (n : nat) := if decide (n = 0%nat) then BIO_PAIR_DEFAULT_SIZE else n in
    b1 ← alloc (OBioPair None (sz size1) []);
    b2 ← alloc (OBioPair (Some b1) (sz size2) []);
    set_heap (<[b1 := OBioPair (Some b2) (sz size1) []]>);;
    mret (Some (b1, b2)).

(** [BIO_new(BIO_f_ssl())] *)
Definition BIO_new_ssl : M (option addr) :=
  r ← fetch;
  if r_ret r =? 0 then log (CBIO_new None);; mret None
  else b ← alloc (OBioSsl None false); log (CBIO_new (Some b));; mret (Some b).

(** [BIO_set_ssl(b, ssl, c)]: on success the filter holds the SSL, and
    owns it when [c] is [BIO_CLOSE]. *)
Definition BIO_set_ssl (b s : addr) (c : Z) : M Z :=
  r ← fetch;
  log (CBIO_set_ssl b s (r_ret r));;
  if r_ret r <=? 0 then mret (r_ret r)
  else set_heap (<[b := OBioSsl (Some s) (c =? BIO_CLOSE)]>);; mret (r_ret r).

(** Writing [len] bytes to one half of a pair: nothing for an empty
    request, a retry ([-1]) when the half is full, otherwise as many
    bytes as fit; an error ([-1]) once the pair is broken: a half whose
    peer is gone is no longer initialised. *)
Definition pair_write (b : addr) (data : list Byte.byte) (len : Z) : M Z :=
  h ← gets heap;
  match h !! b with
  | Some (OBioPair (Some p) size buf) =>
      if len <=? 0 then mret 0
      else if decide (length buf = size) then mret (-1)
      else
        let n := Z.min len (Z.of_nat (size - length buf)) in
        set_heap (<[b := OBioPair (Some p) size (buf ++ take (Z.to_nat n) data)]>);;
        mret n
  | _ => mret (-1)
  end.

(** Reading up to [len] bytes from one half of a pair, that is from the
    bytes written to its peer: a retry ([-1]) when there are none, an
    error ([-1]) once the pair is broken. *)
Definition pair_read (b : addr) (len : Z) : M (Z * list Byte.byte) :=
  h ← gets heap;
  match h !! b with
  | Some (OBioPair (Some p) _ _) =>
      match h !! p with
      | Some (OBioPair pp psize pbuf) =>
          if len <=? 0 then mret (0, [])
          else if decide (pbuf = []) then mret (-1, [])
          else
            let n := Z.min len (Z.of_nat (length pbuf)) in
            set_heap (<[p := OBioPair pp psize (drop (Z.to_nat n) pbuf)]>);;
            mret (n, take (Z.to_nat n) pbuf)
      | _ => mret (-1, [])
      end
  | _ => mret (-1, [])
  end.

(** [BIO_write]: a request of no bytes is answered with 0 before the BIO
    is looked at.  Otherwise, through a filter that holds an SSL it is
    [SSL_write]; on a pair half it queues the bytes; on anything else the
    outcome is the environment's. *)
Definition BIO_write (b : addr) (data : list Byte.byte) (len : Z) : M Z :=
  if len <=? 0 then mret 0
  else
    h ← gets heap;
    match h !! b with
    | Some (OBioSsl (Some s) _) => SSL_write s data len
    | Some (OBioPair _ _ _) => pair_write b data len
    | _ => r ← fetch; mret (r_ret r)
    end.

(** [BIO_read]: a negative length is answered with 0 before the BIO is
    looked at.  The plaintext an SSL delivers is not modelled, only its
    length. *)
Definition BIO_read (b : addr) (len : Z) : M (Z * list Byte.byte) :=
  if len <? 0 then mret (0, [])
  else
    h ← gets heap;
    match h !! b with
    | Some (OBioSsl (Some s) _) => l ← SSL_read s len; mret (l, [])
    | Some (OBioPair _ _ _) => pair_read b len
    | _ => r ← fetch; mret (r_ret r, [])
    end.

(** [BIO_free] and [BIO_free_all] (no BIO here has a chain of its own): a
    filter that owns its SSL releases the SSL before it goes, and sends
    the close notification first if the handshake of that SSL is
    complete; while the handshake is under way there is nothing to
    notify and [SSL_shutdown] is not called. *)
Definition BIO_free (b : addr) : M unit :=
  h ← gets heap;
  log (CBIO_free b);;
  match h !! b with
  | Some (OBioSsl (Some s) true) =>
      e ← gets established;
      (if decide (s ∈ e) then SSL_shutdown s;; mret tt else mret tt);;
      SSL_free s;; set_heap (delete b)
  | _ => set_heap (bio_release b)
  end.

Definition BIO_free_all (b : addr) : M unit := BIO_free b.

(** Room left for writing to this half. *)
Definition BIO_ctrl_get_write_guarantee (b : addr) : M Z :=
  h ← gets heap;
  match h !! b with
  | Some (OBioPair (Some _) size buf) => mret (Z.of_nat (size - length buf))
  | _ => mret 0
  end.

(** Bytes waiting to be read from this half. *)
Definition BIO_ctrl_pending (b : addr) : M Z :=
  h ← gets heap;
  match h !! b with
  | Some (OBioPair (Some p) _ _) =>
      match h !! p with
      | Some (OBioPair _ _ pbuf) => mret (Z.of_nat (length pbuf))
      | _ => mret 0
      end
  | _ => mret 0
  end.

(** ** The real transport *)

(** [poll(&pfd, 1, timeout)]: the count of ready descriptors and revents. *)
Definition poll (fd events timeout : Z) : M (Z * Z) :=
  r ← fetch;
  log (Cpoll fd events timeout (r_ret r) (r_aux r));;
  mret (r_ret r, r_aux r).

(** [read(fd, buf, count)]: the result, errno and the bytes stored in
    [buf]; a positive result is the number of bytes delivered and is at
    most [count]. *)
Definition read (fd count : Z) : M (Z * Z * list Byte.byte) :=
  r ← fetch;
  let data := take (Z.to_nat (Z.min (r_ret r) count)) (r_data r) in
  let l := if r_ret r <=? 0 then r_ret r else Z.of_nat (length data) in
  log (Cread fd count l);;
  mret (l, r_aux r, data).

(** [write(fd, buf, l)]: whatever the transport answers. *)
Definition write (fd : Z) (data : list Byte.byte) (l : Z) : M Z :=
  r ← fetch;
  log (Cwrite fd data l (r_ret r));;
  mret (r_ret r).

(** * Demo 4: the client creates the descriptor, non-blocking *)

Module Fd.

(** [APP_CONN], with the address [calloc] gave it. *)
Record APP_CONN := mkConn {
  self : addr;
  ssl : addr;
  fd : Z;
  rx_need_tx : Z;
  tx_need_rx : Z
}.

Definition set_rx_need_tx (v : Z) (conn : APP_CONN) : APP_CONN :=
  mkConn (self conn) (ssl conn) (fd conn) v (tx_need_rx conn).

Definition set_tx_need_rx (v : Z) (conn : APP_CONN) : APP_CONN :=
  mkConn (self conn) (ssl conn) (fd conn) (rx_need_tx conn) v.

Definition new_conn (ctx : addr) (fd : Z) (bare_hostname : string)
  : M (option APP_CONN) :=
  conn ← calloc;
  match conn with
  | None => mret None
  | Some conn =>
      ssl ← SSL_new ctx;
      match ssl with
      | None => free conn;; mret None
      | Some ssl =>
          SSL_set_connect_state ssl;;
          rc ← SSL_set_fd ssl fd;
          if rc <=? 0 then SSL_free ssl;; free conn;; mret None
          else
            rc ← SSL_set1_host ssl bare_hostname;
            if rc <=? 0 then SSL_free ssl;; free conn;; mret None
            else
              rc ← SSL_set_tlsext_host_name ssl bare_hostname;
              if rc <=? 0 then SSL_free ssl;; free conn;; mret None
              else mret (Some (mkConn conn ssl fd 0 0))
      end
  end.

(** Non-blocking transmission: the result and the connection as the call
    leaves it. *)
Definition tx (conn : APP_CONN) (buf : list Byte.byte) (buf_len : Z)
  : M (Z * APP_CONN) :=
  let conn := set_tx_need_rx 0 conn in
  l ← SSL_write (ssl conn) buf buf_len;
  if l <=? 0 then
    rc ← SSL_get_error (ssl conn) l;
    if rc =? SSL_ERROR_WANT_READ then mret (-2, set_tx_need_rx 1 conn)
    else if (rc =? SSL_ERROR_WANT_CONNECT) || (rc =? SSL_ERROR_WANT_WRITE)
    then mret (-2, conn)
    else mret (-1, conn)
  else mret (l, conn).

(** Non-blocking reception. *)
Definition rx (conn : APP_CONN) (buf_len : Z) : M (Z * APP_CONN) :=
  let conn := set_rx_need_tx 0 conn in
  l ← SSL_read (ssl conn) buf_len;
  if l <=? 0 then
    rc ← SSL_get_error (ssl conn) l;
    if rc =? SSL_ERROR_WANT_WRITE then mret (-2, set_rx_need_tx 1 conn)
    else if rc =? SSL_ERROR_WANT_READ then mret (-2, conn)
    else mret (-1, conn)
  else mret (l, conn).

Definition get_conn_fd (conn : APP_CONN) : Z := fd conn.

Definition get_conn_pending_tx (conn : APP_CONN) : Z :=
  Z.lor (Z.lor (if tx_need_rx conn =? 0 then 0 else POLLIN) POLLOUT) POLLERR.

Definition get_conn_pending_rx (conn : APP_CONN) : Z :=
  Z.lor (Z.lor (if rx_need_tx conn =? 0 then 0 else POLLOUT) POLLIN) POLLERR.

Definition teardown (conn : APP_CONN) : M unit :=
  SSL_shutdown (ssl conn);;
  SSL_free (ssl conn);;
  free (self conn).

End Fd.

(** * Demo 5: the client uses a memory BIO, non-blocking *)

Module Mem.

Record APP_CONN := mkConn {
  self : addr;
  ssl : addr;
  ssl_bio : addr;
  net_bio : addr;
  rx_need_tx : Z;
  tx_need_rx : Z
}.

Definition set_rx_need_tx (v : Z) (conn : APP_CONN) : APP_CONN :=
  mkConn (self conn) (ssl conn) (ssl_bio conn) (net_bio conn) v (tx_need_rx conn).

Definition set_tx_need_rx (v : Z) (conn : APP_CONN) : APP_CONN :=
  mkConn (self conn) (ssl conn) (ssl_bio conn) (net_bio conn) (rx_need_tx conn) v.

Definition new_conn (ctx : addr) (bare_hostname : string) : M (option APP_CONN) :=
  conn ← calloc;
  match conn with
  | None => mret None
  | Some conn =>
      ssl ← SSL_new ctx;
      match ssl with
      | None => free conn;; mret None
      | Some ssl =>
          SSL_set_connect_state ssl;;
          pair ← BIO_new_bio_pair 0 0;
          match pair with
          | None => SSL_free ssl;; free conn;; mret None
          | Some (internal_bio, net_bio) =>
              SSL_set_bio ssl internal_bio;;
              rc ← SSL_set1_host ssl bare_hostname;
              if rc <=? 0 then SSL_free ssl;; free conn;; mret None
              else
                rc ← SSL_set_tlsext_host_name ssl bare_hostname;
                if rc <=? 0 then SSL_free ssl;; free conn;; mret None
                else
                  ssl_bio ← BIO_new_ssl;
                  match ssl_bio with
                  | None => SSL_free ssl;; free conn;; mret None
                  | Some ssl_bio =>
                      rc ← BIO_set_ssl ssl_bio ssl BIO_CLOSE;
                      if rc <=? 0 then SSL_free ssl;; BIO_free ssl_bio;; mret None
                      else mret (Some (mkConn conn ssl ssl_bio net_bio 0 0))
                  end
          end
      end
  end.

Definition tx (conn : APP_CONN) (buf : list Byte.byte) (buf_len : Z)
  : M (Z * APP_CONN) :=
  l ← BIO_write (ssl_bio conn) buf buf_len;
  if l <=? 0 then
    rc ← SSL_get_error (ssl conn) l;
    if rc =? SSL_ERROR_WANT_READ then mret (-2, set_tx_need_rx 1 conn)
    else if (rc =? SSL_ERROR_WANT_CONNECT) || (rc =? SSL_ERROR_WANT_WRITE)
    then mret (-2, conn)
    else mret (-1, conn)
  else mret (l, set_tx_need_rx 0 conn).

Definition rx (conn : APP_CONN) (buf_len : Z) : M (Z * APP_CONN) :=
  '(l, _) ← BIO_read (ssl_bio conn) buf_len;
  if l <=? 0 then
    rc ← SSL_get_error (ssl conn) l;
    if rc =? SSL_ERROR_WANT_WRITE then mret (-2, set_rx_need_tx 1 conn)
    else if rc =? SSL_ERROR_WANT_READ then mret (-2, conn)
    else mret (-1, conn)
  else mret (l, set_rx_need_tx 0 conn).

(** Data which OpenSSL has queued for transmission to the network. *)
Definition read_net_tx (conn : APP_CONN) (buf_len : Z) : M (Z * list Byte.byte) :=
  BIO_read (net_bio conn) buf_len.

(** Feed data received from the network to OpenSSL. *)
Definition write_net_rx (conn : APP_CONN) (buf : list Byte.byte) (buf_len : Z) : M Z :=
  BIO_write (net_bio conn) buf buf_len.

Definition net_rx_space (conn : APP_CONN) : M Z :=
  BIO_ctrl_get_write_guarantee (net_bio conn).

Definition net_tx_avail (conn : APP_CONN) : M Z :=
  BIO_ctrl_pending (net_bio conn).

Definition get_conn_pending_tx (conn : APP_CONN) : Z :=
  Z.lor (Z.lor (if tx_need_rx conn =? 0 then 0 else POLLIN) POLLOUT) POLLERR.

Definition get_conn_pending_rx (conn : APP_CONN) : Z :=
  Z.lor (Z.lor (if rx_need_tx conn =? 0 then 0 else POLLOUT) POLLIN) POLLERR.

Definition teardown (conn : APP_CONN) : M unit :=
  BIO_free_all (ssl_bio conn);;
  BIO_free_all (net_bio conn);;
  free (self conn).

(** *** The example driver's pump *)

(** [sizeof(buf)] for [char buf[2048]] *)
Definition sizeof_buf : Z := 2048.

(** How a loop of the pump is left: by falling out of it, by a [return]
    of the enclosing function, or, in this model only, by using up the
    iterations it was given. *)
Inductive loop_exit := Fallthrough | Return (rc : Z) | OutOfFuel.

(** The event set the pump waits on, [pfd.events].  The field is a
    [short]; every value it takes lies between 0 and 13, so the
    conversions from and to [int] change nothing. *)
Definition pump_events (conn : APP_CONN) (events : Z) : M Z :=
  let pfd_events := Z.land events (Z.lor POLLIN POLLERR) in
  space ← net_rx_space conn;
  let pfd_events :=
    if space =? 0 then Z.land pfd_events (Z.lnot POLLIN) else pfd_events in
  avail ← net_tx_avail conn;
  let pfd_events :=
    if 0 <? avail then Z.lor pfd_events POLLOUT else pfd_events in
  mret pfd_events.

(** [while ((wspace = net_rx_space(conn)) > 0) { ... } stop:;] *)
Fixpoint pump_rx_loop (fuel : nat) (conn : APP_CONN) (fd : Z) : M loop_exit :=
  match fuel with
  | O => mret OutOfFuel
  | S fuel =>
      wspace ← net_rx_space conn;
      if 0 <? wspace then
        '(l, errno, buf) ← read fd (if sizeof_buf <? wspace then sizeof_buf else wspace);
        if l <=? 0 then
          if errno =? EAGAIN then mret Fallthrough
          else fprintf (ErrorOnRead errno);; mret (Return (-1))
        else
          l2 ← write_net_rx conn buf l;
          (if l2 <? l then fprintf (ShortWrite l2 l) else mret tt);;
          pump_rx_loop fuel conn fd
      else mret Fallthrough
  end.

(** [for (;;) { l = read_net_tx(...); if (l <= 0) break; ... }] *)
Fixpoint pump_tx_loop (fuel : nat) (conn : APP_CONN) (fd : Z) : M loop_exit :=
  match fuel with
  | O => mret OutOfFuel
  | S fuel =>
      '(l, buf) ← read_net_tx conn sizeof_buf;
      if l <=? 0 then mret Fallthrough
      else
        l2 ← write fd buf l;
        (if l2 <? l then fprintf (ShortRead l2 l) else mret tt);;
        pump_tx_loop fuel conn fd
  end.

(** [if (pfd.revents & POLLIN) { while ... }]: the receive loop can run
    once per free byte of the encrypted-in buffer, and once more to see
    it full. *)
Definition pump_rx_phase (conn : APP_CONN) (fd revents : Z) : M loop_exit :=
  if Z.land revents POLLIN =? 0 then mret Fallthrough
  else
    space ← net_rx_space conn;
    pump_rx_loop (S (Z.to_nat space)) conn fd.

(** [if (pfd.revents & POLLOUT) { for (;;) ... }]: the drain loop can run
    once per pending byte of the encrypted-out buffer, and once more to
    see it empty. *)
Definition pump_tx_phase (conn : APP_CONN) (fd revents : Z) : M loop_exit :=
  if Z.land revents POLLOUT =? 0 then mret Fallthrough
  else
    avail ← net_tx_avail conn;
    pump_tx_loop (S (Z.to_nat avail)) conn fd.

(** The result is [None] only if a loop of the model ran out of
    iterations; [pump_total] below shows that this does not happen. *)
Definition pump (conn : APP_CONN) (fd events timeout : Z) : M (option Z) :=
  pfd_events ← pump_events conn events;
  if Z.land pfd_events (Z.lor POLLIN POLLOUT) =? 0 then mret (Some 1)
  else
    '(n, revents) ← poll fd pfd_events timeout;
    if n =? 0 then mret (Some (-1))
    else
      r ← pump_rx_phase conn fd revents;
      match r with
      | Return rc => mret (Some rc)
      | OutOfFuel => mret None
      | Fallthrough =>
          r ← pump_tx_phase conn fd revents;
          match r with
          | Return rc => mret (Some rc)
          | OutOfFuel => mret None
          | Fallthrough => mret (Some 1)
          end
      end.

End Mem.

(** * Running the model *)

Definition eval {A} (m : M A) (w : World) : A := fst (m w).
Definition exec {A} (m : M A) (w : World) : World := snd (m w).

(** The environment that answers the calls of a run with the replies of
    [rs], in order, and with zeroes ever after. *)
Definition script (rs : list reply) : nat -> reply :=
  fun n => nth n rs (Reply 0 0 [] 0).

(** A reply that is only a return value. *)
Definition ans (z : Z) : reply := Reply z 0 [] 0.

(** The world before anything was allocated or called. *)
Definition fresh_world (rs : list reply) : World :=
  mkWorld (script rs) 0 ∅ [] [] ∅.

(** The replies under which [new_conn] succeeds: [calloc], [SSL_new],
    [SSL_set_fd], [SSL_set1_host], [SSL_set_tlsext_host_name]; and for
    the memory BIO [calloc], [SSL_new], [BIO_new_bio_pair],
    [SSL_set1_host], [SSL_set_tlsext_host_name], [BIO_new],
    [BIO_set_ssl]. *)
Definition fd_setup_ok : list reply := [ans 1; ans 1; ans 1; ans 1; ans 1].
Definition mem_setup_ok : list reply :=
  [ans 1; ans 1; ans 1; ans 1; ans 1; ans 1; ans 1].

(** A driver that creates a connection and goes on with it. *)
Definition fd_session {A} (k : Fd.APP_CONN -> M A) : M (option A) :=
  c ← Fd.new_conn 0%nat 3 "www.example.com";
  match c with
  | None => mret None
  | Some c => a ← k c; mret (Some a)
  end.

Definition mem_session {A} (k : Mem.APP_CONN -> M A) : M (option A) :=
  c ← Mem.new_conn 0%nat "www.example.com";
  match c with
  | None => mret None
  | Some c => a ← k c; mret (Some a)
  end.

(** ** The vocabulary of the specification *)

(** The engine's would-block causes: NeedRead, NeedWrite, NeedConnect. *)
Definition would_block (rc : Z) : Prop :=
  rc = SSL_ERROR_WANT_READ \/ rc = SSL_ERROR_WANT_WRITE
  \/ rc = SSL_ERROR_WANT_CONNECT.



(** A C [int] used as a truth value. *)
Definition flag_set (v : Z) : bool := negb (v =? 0).

(** The event sets of the readiness queries, by the directional hint. *)
Definition pending_tx_set (need_rx : bool) (e : event) : bool :=
  match e with
  | Writable | Error => true
  | Readable => need_rx
  end.

Definition pending_rx_set (need_tx : bool) (e : event) : bool :=
  match e with
  | Readable | Error => true
  | Writable => need_tx
  end.

(** ** Well-formed connections under memory binding *)

(** The handle [net_bio] of the connection is one half of a BIO pair. *)
Definition net_bio_is_pair (conn : Mem.APP_CONN) (w : World) : Prop :=
  exists peer size buf,
    heap w !! Mem.net_bio conn = Some (OBioPair peer size buf).

(** The connection is as [Mem.new_conn] builds it: the filter BIO owns
    the SSL, the SSL owns the half [internal_bio] of the pair, and
    [net_bio] is the other half. *)
Definition mem_conn_ok (conn : Mem.APP_CONN) (internal_bio : addr) (w : World) : Prop :=
  heap w !! Mem.self conn = Some OConn
  /\ heap w !! Mem.ssl_bio conn = Some (OBioSsl (Some (Mem.ssl conn)) true)
  /\ heap w !! Mem.ssl conn = Some (OSsl (Some internal_bio))
  /\ (exists size buf,
        heap w !! internal_bio = Some (OBioPair (Some (Mem.net_bio conn)) size buf))
  /\ (exists size buf,
        heap w !! Mem.net_bio conn = Some (OBioPair (Some internal_bio) size buf))
  /\ NoDup [Mem.self conn; Mem.ssl conn; internal_bio; Mem.net_bio conn;
            Mem.ssl_bio conn].

(** ** A connection under memory binding, laid out *)

(** The connection [Mem.new_conn] makes on an empty heap. *)
Definition mem_conn0 : Mem.APP_CONN := Mem.mkConn 0 1 4 3 0 0.

(** A world that holds [mem_conn0] with buffers of capacity [size]: the
    encrypted-out buffer holds [enc_out], the encrypted-in buffer
    [enc_in]; the handshake is under way; the environment follows [rs]. *)
Definition mem_world (size : nat) (enc_out enc_in : list Byte.byte)
  (rs : list reply) : World :=
  mkWorld (script rs) 0
    (<[4%nat := OBioSsl (Some 1%nat) true]>
       (<[3%nat := OBioPair (Some 2%nat) size enc_in]>
          (<[2%nat := OBioPair (Some 3%nat) size enc_out]>
             (<[1%nat := OSsl (Some 2%nat)]>
                (<[0%nat := OConn]> ∅)))))
    [] [] ∅.

(** ** Observations on a run *)

(** The call is a [write] to the real transport. *)
Definition is_write (c : call) : bool :=
  match c with
  | Cwrite _ _ _ _ => true
  | _ => false
  end.

(** [w'] is [w] after the calls [t] and the diagnostics [d]. *)
Definition grows (w w' : World) (t : list call) (d : list diag) : Prop :=
  trace w' = trace w ++ t /\ stderr w' = stderr w ++ d.

(** * Demo 3: the client creates the descriptor, blocking *)

Module Blk.

(** The connection is the filter BIO itself; there is no record. *)
Definition new_conn (ctx : addr) (fd : Z) (bare_hostname : string)
  : M (option addr) :=
  ssl ← SSL_new ctx;
  match ssl with
  | None => mret None
  | Some ssl =>
      SSL_set_connect_state ssl;;
      rc ← SSL_set_fd ssl fd;
      if rc <=? 0 then SSL_free ssl;; mret None
      else
        rc ← SSL_set1_host ssl bare_hostname;
        if rc <=? 0 then SSL_free ssl;; mret None
        else
          rc ← SSL_set_tlsext_host_name ssl bare_hostname;
          if rc <=? 0 then SSL_free ssl;; mret None
          else
            out ← BIO_new_ssl;
            match out with
            | None => SSL_free ssl;; mret None
            | Some out =>
                rc ← BIO_set_ssl out ssl BIO_CLOSE;
                if rc <=? 0 then SSL_free ssl;; BIO_free out;; mret None
                else mret (Some out)
            end
  end.

Definition tx (bio : addr) (buf : list Byte.byte) (buf_len : Z) : M Z :=
  BIO_write bio buf buf_len.

Definition rx (bio : addr) (buf_len : Z) : M Z :=
  '(l, _) ← BIO_read bio buf_len; mret l.

Definition teardown (bio : addr) : M unit :=
  BIO_free_all bio.

End Blk.

(** ** More observations on a run *)

(** The bytes handed to [write], in the order of the calls. *)
Definition written (t : list call) : list Byte.byte :=
  flat_map (fun c => match c with
                     | Cwrite _ data _ _ => data
                     | _ => []
                     end) t.

(** The number of bytes the transport delivered to [read]. *)
Definition received (t : list call) : Z :=
  fold_right (fun c acc => match c with
                           | Cread _ _ r => Z.max r 0 + acc
                           | _ => acc
                           end) 0 t.

(** The encrypted-out buffer: the bytes queued for the network, which
    [net_bio] reads. *)
Definition pending_out (conn : Mem.APP_CONN) (w : World) : list Byte.byte :=
  match heap w !! Mem.net_bio conn with
  | Some (OBioPair (Some p) _ _) =>
      match heap w !! p with
      | Some (OBioPair _ _ pbuf) => pbuf
      | _ => []
      end
  | _ => []
  end.

(** The encrypted-in buffer: the bytes written to [net_bio], which the
    engine has yet to consume. *)
Definition pending_in (conn : Mem.APP_CONN) (w : World) : list Byte.byte :=
  match heap w !! Mem.net_bio conn with
  | Some (OBioPair _ _ buf) => buf
  | _ => []
  end.

(** The room left in the encrypted-in buffer: its capacity less the
    bytes it holds. *)
Definition room_in (conn : Mem.APP_CONN) (w : World) : nat :=
  match heap w !! Mem.net_bio conn with
  | Some (OBioPair _ size buf) => (size - length buf)%nat
  | _ => 0%nat
  end.

(** An object without the contents of its buffer: what it is, what it
    owns, what it is linked to and how much it can hold. *)
Definition obj_shape (o : obj) : obj :=
  match o with
  | OBioPair peer size _ => OBioPair peer size []
  | _ => o
  end.

(** Two ledgers with the same live objects, owners and links; only what
    the buffers hold may differ. *)
Definition same_shape (h h' : gmap addr obj) : Prop :=
  forall a, obj_shape <$> h !! a = obj_shape <$> h' !! a.

(** * The example drivers *)

(** ** The process around a connection *)

(** The calls of the drivers that are not made on a connection: the
    context API of libssl, the resolver, the socket API and stdio. *)
Inductive sys_call :=
| CSSL_CTX_new (c : option addr)
| CSSL_CTX_set_verify (c : addr)
| CSSL_CTX_set_default_verify_paths (c : addr) (r : Z)
| CSSL_CTX_free (c : addr)
| Cgetaddrinfo (node service : string) (r : Z)
| Cfreeaddrinfo
| Csignal
| Csocket (r : Z)
| Cconnect (fd : Z) (r : Z)
| Cfcntl (fd : Z) (r : Z)
| Cclose (fd : Z)
| Cfwrite (n : Z)                  (* n bytes to stdout *)
| Cfprintf (line : string).        (* a line of the driver on stderr,
                                      without its newline *)

(** A process: the world of its connections, the contexts that are live,
    the address lists of [getaddrinfo] not yet freed, the sockets that
    are open, and the calls made so far, oldest first. *)
Record Proc := mkProc {
  world : World;
  ctxs : gset addr;
  results : nat;
  socks : gset Z;
  sys : list sys_call
}.

Definition P (A : Type) : Type := Proc -> A * Proc.

#[export] Instance P_ret : MRet P := fun A a p => (a, p).
#[export] Instance P_bind : MBind P :=
  fun A B k m p => let (a, p') := m p in k a p'.

(** A call on the connection level, made by the process. *)
Definition lift {A} (m : M A) : P A :=
  fun p => let (a, w) := m (world p) in
           (a, mkProc w (ctxs p) (results p) (socks p) (sys p)).

Definition sys_log (c : sys_call) : P unit :=
  fun p => (tt, mkProc (world p) (ctxs p) (results p) (socks p) (sys p ++ [c])).

Definition set_ctxs (f : gset addr -> gset addr) : P unit :=
  fun p => (tt, mkProc (world p) (f (ctxs p)) (results p) (socks p) (sys p)).

Definition set_results (f : nat -> nat) : P unit :=
  fun p => (tt, mkProc (world p) (ctxs p) (f (results p)) (socks p) (sys p)).

Definition set_socks (f : gset Z -> gset Z) : P unit :=
  fun p => (tt, mkProc (world p) (ctxs p) (results p) (f (socks p)) (sys p)).

(** [SSL_CTX_new(TLS_client_method())] *)
Definition SSL_CTX_new : P (option addr) :=
  r ← lift fetch;
  if r_ret r =? 0 then sys_log (CSSL_CTX_new None);; mret None
  else
    live ← (fun p => (ctxs p, p));
    let c := fresh live in
    set_ctxs (union {[c]});;
    sys_log (CSSL_CTX_new (Some c));;
    mret (Some c).

(** [SSL_CTX_set_verify(ctx, SSL_VERIFY_PEER, NULL)] *)
Definition SSL_CTX_set_verify (ctx : addr) : P unit :=
  sys_log (CSSL_CTX_set_verify ctx).

Definition SSL_CTX_set_default_verify_paths (ctx : addr) : P Z :=
  r ← lift fetch;
  sys_log (CSSL_CTX_set_default_verify_paths ctx (r_ret r));;
  mret (r_ret r).

Definition SSL_CTX_free (ctx : addr) : P unit :=
  sys_log (CSSL_CTX_free ctx);; set_ctxs (fun live => live ∖ {[ctx]}).

(** [getaddrinfo]: 0 and an address list, or one of the negative [EAI_]
    codes of the C library, which leaves no list behind. *)
Definition getaddrinfo (node service : string) : P Z :=
  r ← lift fetch;
  let rc := Z.min (r_ret r) 0 in
  sys_log (Cgetaddrinfo node service rc);;
  (if rc <? 0 then mret tt else set_results S);;
  mret rc.

Definition freeaddrinfo : P unit :=
  sys_log Cfreeaddrinfo;; set_results pred.

(** [signal(SIGPIPE, SIG_IGN)] *)
Definition signal : P unit := sys_log Csignal.

(** [socket(AF_INET, SOCK_STREAM, IPPROTO_TCP)]: a descriptor, now open,
    or a negative result. *)
Definition socket : P Z :=
  r ← lift fetch;
  sys_log (Csocket (r_ret r));;
  (if r_ret r <? 0 then mret tt else set_socks (union {[r_ret r]}));;
  mret (r_ret r).

Definition connect (fd : Z) : P Z :=
  r ← lift fetch; sys_log (Cconnect fd (r_ret r));; mret (r_ret r).

(** [fcntl(fd, F_SETFL, O_NONBLOCK)] *)
Definition fcntl (fd : Z) : P Z :=
  r ← lift fetch; sys_log (Cfcntl fd (r_ret r));; mret (r_ret r).

Definition close (fd : Z) : P unit :=
  sys_log (Cclose fd);; set_socks (fun open => open ∖ {[fd]}).

(** [fwrite(buf, 1, n, stdout)] *)
Definition fwrite (n : Z) : P unit := sys_log (Cfwrite n).

(** [fprintf(stderr, line)] of a driver. *)
Definition eprint (line : string) : P unit := sys_log (Cfprintf line).

(** ** The context, as all three demos make and free it *)

Definition create_ssl_ctx : P (option addr) :=
  ctx ← SSL_CTX_new;
  match ctx with
  | None => mret None
  | Some ctx =>
      SSL_CTX_set_verify ctx;;
      rc ← SSL_CTX_set_default_verify_paths ctx;
      if rc =? 0 then SSL_CTX_free ctx;; mret None
      else mret (Some ctx)
  end.

Definition teardown_ctx (ctx : addr) : P unit := SSL_CTX_free ctx.

(** ** What the drivers send *)

Definition CRLF : string :=
  String (Ascii.ascii_of_nat 13) (String (Ascii.ascii_of_nat 10) EmptyString).

(** ["GET / HTTP/1.0\r\nHost: www.example.com\r\n\r\n"], without the
    terminating NUL. *)
Definition request : list Byte.byte :=
  list_byte_of_string
    (String.append "GET / HTTP/1.0"
       (String.append CRLF
          (String.append "Host: www.example.com" (String.append CRLF CRLF)))).

(** [sizeof] of the array that holds the request: its bytes and the
    NUL. *)
Definition sizeof_request : Z := Z.of_nat (length request) + 1.

(** How a loop of a driver is left: by its condition or a [break], with
    the connection and the offset reached in the buffer; by [goto fail];
    or, in this model only, by using up the iterations it was given. *)
Inductive left_by (C : Type) :=
| Over (conn : C) (p : Z)
| Failed (conn : C)
| NoFuel.
Arguments Over {C} conn p.
Arguments Failed {C} conn.
Arguments NoFuel {C}.

(** ** The driver of Demo 3 *)

Module BlkDriver.

Definition msg : list Byte.byte := request.
Definition sizeof_msg : Z := sizeof_request.

(** [sizeof(buf)] for [char buf[2048]] *)
Definition sizeof_buf : Z := 2048.

(** The conversion of an [int] to [size_t], 64 bits wide, which the
    comparison [tx(...) < sizeof(msg)-1] applies to its left side. *)
Definition to_size_t (i : Z) : Z := i mod 2 ^ 64.

(** [fail:] and what follows it. *)
Definition at_fail (b : option addr) (ctx : option addr) (fd : Z)
  (result : bool) (res : Z) : P (option Z) :=
  (match b with Some b => lift (Blk.teardown b) | None => mret tt end);;
  (match ctx with Some ctx => teardown_ctx ctx | None => mret tt end);;
  (if 0 <=? fd then close fd else mret tt);;
  (if result then freeaddrinfo else mret tt);;
  mret (Some res).

(** [for (;;) { l = rx(b, buf, sizeof(buf)); if (l <= 0) break; ... }]:
    [true] when the loop was left, [false] when the iterations ran
    out. *)
Fixpoint rx_loop (fuel : nat) (b : addr) : P bool :=
  match fuel with
  | O => mret false
  | S fuel =>
      l ← lift (Blk.rx b sizeof_buf);
      if l <=? 0 then mret true
      else fwrite l;; rx_loop fuel b
  end.

(** The result is [None] only if the receive loop was not left within
    [fuel] iterations. *)
Definition main (fuel : nat) : P (option Z) :=
  ctx ← create_ssl_ctx;
  match ctx with
  | None => eprint "cannot create context";; at_fail None None (-1) false 1
  | Some ctx =>
      rc ← getaddrinfo "www.example.com" "443";
      if rc <? 0 then eprint "cannot resolve";; at_fail None (Some ctx) (-1) false 1
      else
        signal;;
        fd ← socket;
        if fd <? 0 then
          eprint "cannot create socket";; at_fail None (Some ctx) fd true 1
        else
          rc ← connect fd;
          if rc <? 0 then
            eprint "cannot connect";; at_fail None (Some ctx) fd true 1
          else
            b ← lift (Blk.new_conn ctx fd "www.example.com");
            match b with
            | None =>
                eprint "cannot create connection";;
                at_fail None (Some ctx) fd true 1
            | Some b =>
                l ← lift (Blk.tx b msg (sizeof_msg - 1));
                if to_size_t l <? sizeof_msg - 1 then
                  eprint "tx error";; at_fail (Some b) (Some ctx) fd true 1
                else
                  left ← rx_loop fuel b;
                  if left : bool then at_fail (Some b) (Some ctx) fd true 0
                  else mret None
            end
  end.

End BlkDriver.

(** ** The driver of Demo 4 *)

Module FdDriver.

Definition tx_msg : list Byte.byte := request.
Definition sizeof_tx_msg : Z := sizeof_request.

(** [sizeof(rx_msg)] for [char rx_msg[2048]] *)
Definition sizeof_rx_msg : Z := 2048.

(** [int timeout = 2000], in milliseconds *)
Definition timeout : Z := 2000.

(** [fail:] and what follows it; the socket is not closed. *)
Definition at_fail (conn : option Fd.APP_CONN) (ctx : option addr)
  (result : bool) (res : Z) : P (option Z) :=
  (match conn with Some conn => lift (Fd.teardown conn) | None => mret tt end);;
  (match ctx with Some ctx => teardown_ctx ctx | None => mret tt end);;
  (if result then freeaddrinfo else mret tt);;
  mret (Some res).

(** [while (tx_len != 0) { ... }], with [tx_p] as an offset into
    [tx_msg]. *)
Fixpoint tx_loop (fuel : nat) (conn : Fd.APP_CONN) (tx_p tx_len : Z)
  : P (left_by Fd.APP_CONN) :=
  match fuel with
  | O => mret NoFuel
  | S fuel =>
      if tx_len =? 0 then mret (Over conn tx_p)
      else
        '(l, conn) ← lift (Fd.tx conn (drop (Z.to_nat tx_p) tx_msg) tx_len);
        if 0 <? l then tx_loop fuel conn (tx_p + l) (tx_len - l)
        else if l =? -1 then eprint "tx error";; mret (Failed conn)
        else if l =? -2 then
          '(n, _) ← lift (poll (Fd.get_conn_fd conn)
                               (Fd.get_conn_pending_tx conn) timeout);
          if n =? 0 then eprint "tx timeout";; mret (Failed conn)
          else tx_loop fuel conn tx_p tx_len
        else tx_loop fuel conn tx_p tx_len
  end.

(** [while (rx_len != 0) { ... }], with [rx_p] as an offset into
    [rx_msg]. *)
Fixpoint rx_loop (fuel : nat) (conn : Fd.APP_CONN) (rx_p rx_len : Z)
  : P (left_by Fd.APP_CONN) :=
  match fuel with
  | O => mret NoFuel
  | S fuel =>
      if rx_len =? 0 then mret (Over conn rx_p)
      else
        '(l, conn) ← lift (Fd.rx conn rx_len);
        if 0 <? l then rx_loop fuel conn (rx_p + l) (rx_len - l)
        else if l =? -1 then mret (Over conn rx_p)
        else if l =? -2 then
          '(n, _) ← lift (poll (Fd.get_conn_fd conn)
                               (Fd.get_conn_pending_rx conn) timeout);
          if n =? 0 then eprint "rx timeout";; mret (Failed conn)
          else rx_loop fuel conn rx_p rx_len
        else rx_loop fuel conn rx_p rx_len
  end.

(** The result is [None] only if a loop was not left within [fuel]
    iterations. *)
Definition main (fuel : nat) : P (option Z) :=
  ctx ← create_ssl_ctx;
  match ctx with
  | None => eprint "cannot create SSL context";; at_fail None None false 1
  | Some ctx =>
      rc ← getaddrinfo "www.example.com" "443";
      if rc <? 0 then eprint "cannot resolve";; at_fail None (Some ctx) false 1
      else
        signal;;
        fd ← socket;
        if fd <? 0 then
          eprint "cannot create socket";; at_fail None (Some ctx) true 1
        else
          rc ← connect fd;
          if rc <? 0 then eprint "cannot connect";; at_fail None (Some ctx) true 1
          else
            rc ← fcntl fd;
            if rc <? 0 then
              eprint "cannot make socket nonblocking";;
              at_fail None (Some ctx) true 1
            else
              conn ← lift (Fd.new_conn ctx fd "www.example.com");
              match conn with
              | None =>
                  eprint "cannot establish connection";;
                  at_fail None (Some ctx) true 1
              | Some conn =>
                  r ← tx_loop fuel conn 0 (sizeof_tx_msg - 1);
                  match r with
                  | NoFuel => mret None
                  | Failed conn => at_fail (Some conn) (Some ctx) true 1
                  | Over conn _ =>
                      r ← rx_loop fuel conn 0 sizeof_rx_msg;
                      match r with
                      | NoFuel => mret None
                      | Failed conn => at_fail (Some conn) (Some ctx) true 1
                      | Over conn rx_p =>
                          fwrite rx_p;;
                          at_fail (Some conn) (Some ctx) true 0
                      end
                  end
              end
  end.

End FdDriver.

(** ** The driver of Demo 5 *)

Module MemDriver.

Definition tx_msg : list Byte.byte := request.
Definition sizeof_tx_msg : Z := sizeof_request.
Definition sizeof_rx_msg : Z := 2048.
Definition timeout : Z := 2000.

Definition at_fail (conn : option Mem.APP_CONN) (ctx : option addr)
  (result : bool) (res : Z) : P (option Z) :=
  (match conn with Some conn => lift (Mem.teardown conn) | None => mret tt end);;
  (match ctx with Some ctx => teardown_ctx ctx | None => mret tt end);;
  (if result then freeaddrinfo else mret tt);;
  mret (Some res).

(** [while (tx_len != 0) { ... }]: after a [tx] error the loop prints
    its line and goes round again. *)
Fixpoint tx_loop (fuel : nat) (conn : Mem.APP_CONN) (fd tx_p tx_len : Z)
  : P (left_by Mem.APP_CONN) :=
  match fuel with
  | O => mret NoFuel
  | S fuel =>
      if tx_len =? 0 then mret (Over conn tx_p)
      else
        '(l, conn) ← lift (Mem.tx conn (drop (Z.to_nat tx_p) tx_msg) tx_len);
        if 0 <? l then tx_loop fuel conn fd (tx_p + l) (tx_len - l)
        else if l =? -1 then eprint "tx error";; tx_loop fuel conn fd tx_p tx_len
        else if l =? -2 then
          r ← lift (Mem.pump conn fd (Mem.get_conn_pending_tx conn) timeout);
          match r with
          | None => mret NoFuel
          | Some r =>
              if r =? 1 then tx_loop fuel conn fd tx_p tx_len
              else eprint "pump error";; mret (Failed conn)
          end
        else tx_loop fuel conn fd tx_p tx_len
  end.

Fixpoint rx_loop (fuel : nat) (conn : Mem.APP_CONN) (fd rx_p rx_len : Z)
  : P (left_by Mem.APP_CONN) :=
  match fuel with
  | O => mret NoFuel
  | S fuel =>
      if rx_len =? 0 then mret (Over conn rx_p)
      else
        '(l, conn) ← lift (Mem.rx conn rx_len);
        if 0 <? l then rx_loop fuel conn fd (rx_p + l) (rx_len - l)
        else if l =? -1 then mret (Over conn rx_p)
        else if l =? -2 then
          r ← lift (Mem.pump conn fd (Mem.get_conn_pending_rx conn) timeout);
          match r with
          | None => mret NoFuel
          | Some r =>
              if r =? 1 then rx_loop fuel conn fd rx_p rx_len
              else eprint "pump error";; mret (Failed conn)
          end
        else rx_loop fuel conn fd rx_p rx_len
  end.

Definition main (fuel : nat) : P (option Z) :=
  ctx ← create_ssl_ctx;
  match ctx with
  | None => eprint "cannot create SSL context";; at_fail None None false 1
  | Some ctx =>
      rc ← getaddrinfo "www.example.com" "443";
      if rc <? 0 then eprint "cannot resolve";; at_fail None (Some ctx) false 1
      else
        signal;;
        fd ← socket;
        if fd <? 0 then
          eprint "cannot create socket";; at_fail None (Some ctx) true 1
        else
          rc ← connect fd;
          if rc <? 0 then eprint "cannot connect";; at_fail None (Some ctx) true 1
          else
            rc ← fcntl fd;
            if rc <? 0 then
              eprint "cannot make socket nonblocking";;
              at_fail None (Some ctx) true 1
            else
              conn ← lift (Mem.new_conn ctx "www.example.com");
              match conn with
              | None =>
                  eprint "cannot establish connection";;
                  at_fail None (Some ctx) true 1
              | Some conn =>
                  r ← tx_loop fuel conn fd 0 (sizeof_tx_msg - 1);
                  match r with
                  | NoFuel => mret None
                  | Failed conn => at_fail (Some conn) (Some ctx) true 1
                  | Over conn _ =>
                      r ← rx_loop fuel conn fd 0 sizeof_rx_msg;
                      match r with
                      | NoFuel => mret None
                      | Failed conn => at_fail (Some conn) (Some ctx) true 1
                      | Over conn rx_p =>
                          fwrite rx_p;;
                          at_fail (Some conn) (Some ctx) true 0
                      end
                  end
              end
  end.

End MemDriver.

(** ** Running a process *)

Definition evalp {A} (m : P A) (p : Proc) : A := fst (m p).
Definition execp {A} (m : P A) (p : Proc) : Proc := snd (m p).

(** The process as it starts: nothing allocated, nothing open, nothing
    called; the environment is [e]. *)
Definition boot (e : nat -> reply) : Proc :=
  mkProc (mkWorld e 0 ∅ [] [] ∅) ∅ 0 ∅ [].

(** The lines of the driver on stderr, in order. *)
Definition console (p : Proc) : list string :=
  flat_map (fun c => match c with
                     | Cfprintf line => [line]
                     | _ => []
                     end) (sys p).

(** ** Well-formed connections of Demo 4 and Demo 3 *)

(** The connection is as [Fd.new_conn] builds it: the SSL owns the
    socket BIO [b] that [SSL_set_fd] made for the descriptor. *)
Definition fd_conn_ok (conn : Fd.APP_CONN) (b : addr) (w : World) : Prop :=
  heap w !! Fd.self conn = Some OConn
  /\ heap w !! Fd.ssl conn = Some (OSsl (Some b))
  /\ heap w !! b = Some (OBioFd (Fd.fd conn))
  /\ NoDup [Fd.self conn; Fd.ssl conn; b].

(** The connection is as [Blk.new_conn] builds it: the filter BIO owns
    the SSL [ssl], which owns the socket BIO [b]. *)
Definition blk_conn_ok (bio ssl b : addr) (fd : Z) (w : World) : Prop :=
  heap w !! bio = Some (OBioSsl (Some ssl) true)
  /\ heap w !! ssl = Some (OSsl (Some b))
  /\ heap w !! b = Some (OBioFd fd)
  /\ NoDup [bio; ssl; b].

(** The bytes the engine accepted: the sum of the positive results of
    [SSL_write]. *)
Definition accepted (t : list call) : Z :=
  fold_right (fun c acc => match c with
                           | CSSL_write _ _ r => Z.max r 0 + acc
                           | _ => acc
                           end) 0 t.

(** The results of the [SSL_write] calls of a run, in order. *)
Definition engine_writes (t : list call) : list Z :=
  flat_map (fun c => match c with
                     | CSSL_write _ _ r => [r]
                     | _ => []
                     end) t.

(** The plaintext the engine delivered: the sum of the positive results
    of [SSL_read]. *)
Definition delivered (t : list call) : Z :=
  fold_right (fun c acc => match c with
                           | CSSL_read _ _ r => Z.max r 0 + acc
                           | _ => acc
                           end) 0 t.

(** The engine's side of the contract of [SSL_read]: it returns no more
    than it was asked for. *)
Definition reads_within (t : list call) : Prop :=
  forall s len l, In (CSSL_read s len l) t -> l <= len.

(** * Theorems *)

Ltac run :=
  repeat progress
    (unfold eval, exec, SSL_write, SSL_read, SSL_get_error, SSL_shutdown,
            SSL_free, free, fprintf, log, fetch,
            set_heap, set_established, gets, mbind, M_bind, mret, M_ret in *;
     cbn beta iota zeta
         delta [fst snd env clock heap trace stderr established] in *).

Ltac codes :=
  unfold would_block, SSL_ERROR_WANT_READ, SSL_ERROR_WANT_WRITE,
         SSL_ERROR_WANT_CONNECT, SSL_ERROR_ZERO_RETURN, SSL_ERROR_SSL in *.

Ltac split_codes :=
  repeat match goal with
         | |- context [?a =? ?b] => destruct (Z.eqb_spec a b); cbn [orb]; run
         end.

(** ** The non-blocking wrappers *)

(** C1: a [tx] call of Demo 4 has one of three outcomes.  Provided the
    engine accepts no more bytes than it is offered, the call returns the
    engine's positive count [n], with [0 < n <= buf_len]; or it returns
    [-2], exactly when the engine failed with cause NeedRead, NeedWrite
    or NeedConnect; or it returns [-1], for every other error of the
    engine.  Nothing else is returned. *)
Theorem tx_three_outcomes
  (conn : Fd.APP_CONN) (buf : list Byte.byte) (buf_len : Z) (w : World) :
  let l := eval (SSL_write (Fd.ssl conn) buf buf_len) w in
  let rc := eval (SSL_get_error (Fd.ssl conn) l)
                 (exec (SSL_write (Fd.ssl conn) buf buf_len) w) in
  let r := fst (eval (Fd.tx conn buf buf_len) w) in
  l <= buf_len ->
  (0 < l /\ r = l /\ 0 < r <= buf_len)
  \/ (l <= 0 /\ would_block rc /\ r = -2)
  \/ (l <= 0 /\ ~ would_block rc /\ r = -1).
Proof.
  intros l rc r Hl. subst l rc r. unfold Fd.tx. run.
  destruct (Z.leb_spec (r_ret (env w (clock w))) 0) as [Hle|Hgt]; run.
  - right. split_codes; codes; intuition lia.
  - left. repeat split; auto; lia.
Qed.

Lemma tx_three_outcomes_witness :
  let conn := Fd.mkConn 0 1 3 0 0 in
  let w := fresh_world [ans 4] in
  let l := eval (SSL_write (Fd.ssl conn) [] 10) w in
  let rc := eval (SSL_get_error (Fd.ssl conn) l)
                 (exec (SSL_write (Fd.ssl conn) [] 10) w) in
  let r := fst (eval (Fd.tx conn [] 10) w) in
  (0 < l /\ r = l /\ 0 < r <= 10)
  \/ (l <= 0 /\ would_block rc /\ r = -2)
  \/ (l <= 0 /\ ~ would_block rc /\ r = -1).
Proof.
  intros conn w.
  apply (tx_three_outcomes conn [] 10 w).
  vm_compute. discriminate.
Defined.

(** X1: a [tx] call of Demo 5, where the engine is reached through the
    filter BIO, has the three outcomes of Demo 4.  Provided [BIO_write]
    accepts no more bytes than it is offered, the call returns its
    positive count; or [-2], exactly when the engine failed with cause
    NeedRead, NeedWrite or NeedConnect; or [-1], for every other error.
    Nothing else is returned. *)
Lemma three_outcomes_of_mem_tx
  (conn : Mem.APP_CONN) (buf : list Byte.byte) (buf_len : Z) (w : World) :
  let l := eval (BIO_write (Mem.ssl_bio conn) buf buf_len) w in
  let rc := eval (SSL_get_error (Mem.ssl conn) l)
                 (exec (BIO_write (Mem.ssl_bio conn) buf buf_len) w) in
  let r := fst (eval (Mem.tx conn buf buf_len) w) in
  l <= buf_len ->
  (0 < l /\ r = l /\ 0 < r <= buf_len)
  \/ (l <= 0 /\ would_block rc /\ r = -2)
  \/ (l <= 0 /\ ~ would_block rc /\ r = -1).
Proof.
  intros l rc r Hl. subst l rc r. unfold Mem.tx.
  run.
  destruct (BIO_write (Mem.ssl_bio conn) buf buf_len w) as [l w1]. run.
  destruct (Z.leb_spec l 0) as [Hle|Hgt]; run.
  - right. split_codes; codes; intuition lia.
  - left. repeat split; auto; lia.
Qed.

(** *** The directional hint *)

(** X2: in Demo 4 the hint left by a [tx] call is set exactly when that
    call would block for want of a read: it is cleared on entry. *)
Lemma fd_tx_hint
  (conn : Fd.APP_CONN) (buf : list Byte.byte) (buf_len : Z) (w : World) :
  let l := eval (SSL_write (Fd.ssl conn) buf buf_len) w in
  let rc := eval (SSL_get_error (Fd.ssl conn) l)
                 (exec (SSL_write (Fd.ssl conn) buf buf_len) w) in
  let conn' := snd (eval (Fd.tx conn buf buf_len) w) in
  flag_set (Fd.tx_need_rx conn') = true <-> l <= 0 /\ rc = SSL_ERROR_WANT_READ.
Proof.
  intros l rc conn'. subst l rc conn'. unfold Fd.tx. run.
  destruct (Z.leb_spec (r_ret (env w (clock w))) 0) as [Hle|Hgt]; run.
  - split_codes; codes; cbn; intuition (try discriminate; try lia).
  - cbn. intuition (try discriminate; try lia).
Qed.

(** X3: in Demo 4 the hint left by an [rx] call is set exactly when that
    call would block for want of a write: it is cleared on entry. *)
Lemma fd_rx_hint (conn : Fd.APP_CONN) (buf_len : Z) (w : World) :
  let l := eval (SSL_read (Fd.ssl conn) buf_len) w in
  let rc := eval (SSL_get_error (Fd.ssl conn) l)
                 (exec (SSL_read (Fd.ssl conn) buf_len) w) in
  let conn' := snd (eval (Fd.rx conn buf_len) w) in
  flag_set (Fd.rx_need_tx conn') = true <-> l <= 0 /\ rc = SSL_ERROR_WANT_WRITE.
Proof.
  intros l rc conn'. subst l rc conn'. unfold Fd.rx. run.
  destruct (Z.leb_spec (r_ret (env w (clock w))) 0) as [Hle|Hgt]; run.
  - split_codes; codes; cbn; intuition (try discriminate; try lia).
  - cbn. intuition (try discriminate; try lia).
Qed.

(** X4: in Demo 5 the hint of [tx] is set on the want of a read and
    cleared on progress only; every other outcome leaves it as the call
    found it. *)
Lemma mem_tx_hint
  (conn : Mem.APP_CONN) (buf : list Byte.byte) (buf_len : Z) (w : World) :
  let l := eval (BIO_write (Mem.ssl_bio conn) buf buf_len) w in
  let rc := eval (SSL_get_error (Mem.ssl conn) l)
                 (exec (BIO_write (Mem.ssl_bio conn) buf buf_len) w) in
  let conn' := snd (eval (Mem.tx conn buf buf_len) w) in
  Mem.tx_need_rx conn' =
    if l <=? 0
    then if rc =? SSL_ERROR_WANT_READ then 1 else Mem.tx_need_rx conn
    else 0.
Proof.
  intros l rc conn'. subst l rc conn'. unfold Mem.tx. run.
  destruct (BIO_write (Mem.ssl_bio conn) buf buf_len w) as [l w1]. run.
  destruct (Z.leb_spec l 0) as [Hle|Hgt]; run; [|reflexivity].
  split_codes; reflexivity.
Qed.

(** C2: the directional-hint invariant fails in Demo 5.  A connection is
    created; a first [tx] would block for want of a read, which sets
    [tx_need_rx]; a second [tx] would block for want of a write, and
    returns [-2] with [tx_need_rx] still set.  Under the same replies the
    second call of Demo 4 leaves the hint clear. *)
Theorem mem_tx_stale_hint :
  let replies := [ans (-1); ans SSL_ERROR_WANT_READ;
                  ans (-1); ans SSL_ERROR_WANT_WRITE] in
  (exists conn',
      eval (mem_session (fun c => '(_, c) ← Mem.tx c [] 10; Mem.tx c [] 10))
           (fresh_world (mem_setup_ok ++ replies)) = Some (-2, conn')
      /\ Mem.tx_need_rx conn' = 1)
  /\ (exists conn',
      eval (fd_session (fun c => '(_, c) ← Fd.tx c [] 10; Fd.tx c [] 10))
           (fresh_world (fd_setup_ok ++ replies)) = Some (-2, conn')
      /\ Fd.tx_need_rx conn' = 0).
Proof.
  split; eexists; split; vm_compute; reflexivity.
Qed.

(** *** Reception *)

(** Orderly peer close and a protocol error give the same result. *)
Lemma rx_peer_closed_same_as_fatal :
  let conn := Fd.mkConn 0 1 3 0 0 in
  fst (eval (Fd.rx conn 16) (fresh_world [ans 0; ans SSL_ERROR_ZERO_RETURN]))
  = fst (eval (Fd.rx conn 16) (fresh_world [ans (-1); ans SSL_ERROR_SSL])).
Proof. reflexivity. Qed.

(** C5, as amended: when the engine signals orderly peer close during an
    [rx] call, [rx] returns [-1], and that is the value it returns for
    every failure of the engine whose cause is neither NeedRead nor
    NeedWrite. *)
Theorem rx_peer_closed_returns_fatal
  (conn : Fd.APP_CONN) (buf_len : Z) (w : World) :
  let l := eval (SSL_read (Fd.ssl conn) buf_len) w in
  let rc := eval (SSL_get_error (Fd.ssl conn) l)
                 (exec (SSL_read (Fd.ssl conn) buf_len) w) in
  l <= 0 -> rc = SSL_ERROR_ZERO_RETURN ->
  fst (eval (Fd.rx conn buf_len) w) = -1
  /\ forall (conn' : Fd.APP_CONN) (buf_len' : Z) (w' : World),
       let l' := eval (SSL_read (Fd.ssl conn') buf_len') w' in
       let rc' := eval (SSL_get_error (Fd.ssl conn') l')
                       (exec (SSL_read (Fd.ssl conn') buf_len') w') in
       l' <= 0 -> rc' <> SSL_ERROR_WANT_READ -> rc' <> SSL_ERROR_WANT_WRITE ->
       fst (eval (Fd.rx conn' buf_len') w') = fst (eval (Fd.rx conn buf_len) w).
Proof.
  intros l rc Hl Hrc. subst l rc.
  assert (H : fst (eval (Fd.rx conn buf_len) w) = -1).
  { unfold Fd.rx. run.
    destruct (Z.leb_spec (r_ret (env w (clock w))) 0) as [Hle|Hgt]; [|lia]. run.
    rewrite Hrc. reflexivity. }
  split; [exact H|]. rewrite H. clear.
  intros conn' buf_len' w' l' rc' Hl Hr Hw. subst l' rc'. unfold Fd.rx. run.
  destruct (Z.leb_spec (r_ret (env w' (clock w'))) 0) as [Hle|Hgt]; [|lia]. run.
  split_codes; congruence.
Qed.

Lemma rx_peer_closed_returns_fatal_witness :
  let conn := Fd.mkConn 0 1 3 0 0 in
  let w := fresh_world [ans 0; ans SSL_ERROR_ZERO_RETURN] in
  fst (eval (Fd.rx conn 16) w) = -1
  /\ forall (conn' : Fd.APP_CONN) (buf_len' : Z) (w' : World),
       let l' := eval (SSL_read (Fd.ssl conn') buf_len') w' in
       let rc' := eval (SSL_get_error (Fd.ssl conn') l')
                       (exec (SSL_read (Fd.ssl conn') buf_len') w') in
       l' <= 0 -> rc' <> SSL_ERROR_WANT_READ -> rc' <> SSL_ERROR_WANT_WRITE ->
       fst (eval (Fd.rx conn' buf_len') w') = fst (eval (Fd.rx conn 16) w).
Proof.
  intros conn w.
  apply (rx_peer_closed_returns_fatal conn 16 w).
  - vm_compute. discriminate.
  - vm_compute. reflexivity.
Defined.

(** ** The readiness queries *)

(** C3: the readiness query for [tx] asks for Writable and Error, and for
    Readable exactly when [tx_need_rx] is set; the one for [rx] asks for
    Readable and Error, and for Writable exactly when [rx_need_tx] is
    set; neither asks for anything else.  Both are functions of the flag
    alone, in both demos. *)
Theorem readiness_query_event_sets :
  (forall (conn : Fd.APP_CONN) (e : event),
      wants (Fd.get_conn_pending_tx conn) e
      = pending_tx_set (flag_set (Fd.tx_need_rx conn)) e
      /\ wants (Fd.get_conn_pending_rx conn) e
         = pending_rx_set (flag_set (Fd.rx_need_tx conn)) e
      /\ only_events (Fd.get_conn_pending_tx conn)
      /\ only_events (Fd.get_conn_pending_rx conn))
  /\ (forall (conn : Mem.APP_CONN) (e : event),
      wants (Mem.get_conn_pending_tx conn) e
      = pending_tx_set (flag_set (Mem.tx_need_rx conn)) e
      /\ wants (Mem.get_conn_pending_rx conn) e
         = pending_rx_set (flag_set (Mem.rx_need_tx conn)) e
      /\ only_events (Mem.get_conn_pending_tx conn)
      /\ only_events (Mem.get_conn_pending_rx conn))
  /\ (forall c1 c2 : Fd.APP_CONN,
      flag_set (Fd.tx_need_rx c1) = flag_set (Fd.tx_need_rx c2) ->
      flag_set (Fd.rx_need_tx c1) = flag_set (Fd.rx_need_tx c2) ->
      Fd.get_conn_pending_tx c1 = Fd.get_conn_pending_tx c2
      /\ Fd.get_conn_pending_rx c1 = Fd.get_conn_pending_rx c2)
  /\ (forall c1 c2 : Mem.APP_CONN,
      flag_set (Mem.tx_need_rx c1) = flag_set (Mem.tx_need_rx c2) ->
      flag_set (Mem.rx_need_tx c1) = flag_set (Mem.rx_need_tx c2) ->
      Mem.get_conn_pending_tx c1 = Mem.get_conn_pending_tx c2
      /\ Mem.get_conn_pending_rx c1 = Mem.get_conn_pending_rx c2).
Proof.
  unfold Fd.get_conn_pending_tx, Fd.get_conn_pending_rx,
         Mem.get_conn_pending_tx, Mem.get_conn_pending_rx, flag_set.
  repeat split; intros;
    repeat match goal with
           | c : Fd.APP_CONN |- _ => destruct c
           | c : Mem.APP_CONN |- _ => destruct c
           | e : event |- _ => destruct e
           end;
    cbn [Fd.tx_need_rx Fd.rx_need_tx Mem.tx_need_rx Mem.rx_need_tx] in *;
    repeat match goal with
           | |- context [?a =? 0] => destruct (a =? 0)
           | H : context [?a =? 0] |- _ => destruct (a =? 0)
           end;
    try discriminate; reflexivity.
Qed.

(** ** Creation and teardown *)

Lemma fresh_lookup (h : gmap addr obj) : h !! fresh (dom h) = None.
Proof. apply not_elem_of_dom, is_fresh. Qed.

Ltac run_all :=
  repeat progress
    (unfold calloc, alloc, SSL_new, SSL_set_connect_state, SSL_set_fd,
            SSL_set_bio, SSL_set1_host, SSL_set_tlsext_host_name,
            BIO_new_bio_pair, BIO_new_ssl, BIO_set_ssl, BIO_free_all,
            BIO_free in *; run).

Ltac split_if :=
  match goal with
  | |- context [if ?c then _ else _] => destruct c eqn:?
  | H : context [if ?c then _ else _] |- _ => destruct c eqn:?
  end.

(** Names the addresses handed out by [alloc] and records that each was
    free, hence differs from the ones handed out before it. *)
Ltac fresh_facts :=
  repeat match goal with
         | |- context [fresh (dom ?h)] =>
             let F := fresh "F" in
             let a := fresh "a" in
             pose proof (fresh_lookup h) as F;
             set (a := fresh (dom h)) in *;
             clearbody a;
             repeat (apply lookup_insert_None in F; destruct F as [F ?])
         end.

Ltac insert_none :=
  repeat match goal with
         | F : <[_:=_]> _ !! _ = None |- _ =>
             apply lookup_insert_None in F; destruct F as [F ?]
         end.

Ltac nodup :=
  repeat (apply NoDup_cons_2;
          [ rewrite ?not_elem_of_cons; repeat split; try congruence;
            apply not_elem_of_nil | ]);
  apply NoDup_nil_2.

Ltac nodup_inv H :=
  repeat (apply NoDup_cons in H as [?%not_elem_of_cons H]);
  rewrite ?not_elem_of_cons in *;
  repeat match goal with
         | C : _ /\ _ |- _ => destruct C
         end.

Ltac map_eq_lookup :=
  apply map_eq; intros ?;
  rewrite ?lookup_delete, ?lookup_insert; repeat case_decide; subst; congruence.

(** X5: Demo 4 leaves nothing behind when [new_conn] fails: on each of
    its failure paths the ledger is afterwards what it was before the
    call. *)
Lemma fd_new_conn_no_leak (ctx : addr) (fd : Z) (host : string) (w : World) :
  eval (Fd.new_conn ctx fd host) w = None ->
  heap (exec (Fd.new_conn ctx fd host) w) = heap w.
Proof.
  unfold Fd.new_conn. run_all.
  repeat (split_if; run_all); try discriminate; intros _; try reflexivity.
  all: fresh_facts.
  all: unfold ssl_attach, ssl_release, bio_release; simplify_map_eq.
  all: map_eq_lookup.
Qed.

(** C9: a failed [new_conn] of Demo 5 leaves resources behind.  When
    [SSL_set1_host] fails, on a heap that was empty, the half [net_bio]
    of the buffer pair is still allocated after the call; when
    [BIO_set_ssl] fails, so are [net_bio] and the connection record. *)
Theorem mem_new_conn_leaks :
  let host_fails := fresh_world [ans 1; ans 1; ans 1; ans 0] in
  let set_ssl_fails :=
    fresh_world [ans 1; ans 1; ans 1; ans 1; ans 1; ans 1; ans 0] in
  (eval (Mem.new_conn 0%nat "www.example.com") host_fails = None
   /\ heap (exec (Mem.new_conn 0%nat "www.example.com") host_fails)
      = {[ 3%nat := OBioPair None BIO_PAIR_DEFAULT_SIZE [] ]})
  /\ (eval (Mem.new_conn 0%nat "www.example.com") set_ssl_fails = None
      /\ heap (exec (Mem.new_conn 0%nat "www.example.com") set_ssl_fails)
         = {[ 0%nat := OConn;
              3%nat := OBioPair None BIO_PAIR_DEFAULT_SIZE [] ]}).
Proof.
  repeat split; vm_compute; reflexivity.
Qed.

(** X6: a connection made by [Mem.new_conn] is well formed: the filter
    BIO owns the SSL, the SSL owns one half of the pair, [net_bio] is the
    other half, and the five objects are live and distinct. *)
Lemma mem_new_conn_ok (ctx : addr) (host : string) (w : World) (conn : Mem.APP_CONN) :
  eval (Mem.new_conn ctx host) w = Some conn ->
  exists internal_bio,
    mem_conn_ok conn internal_bio (exec (Mem.new_conn ctx host) w).
Proof.
  unfold Mem.new_conn. run_all.
  repeat (split_if; run_all; fresh_facts); try discriminate.
  { repeat (case_match; run_all); discriminate. }
  intros [= <-]. cbn [Mem.self Mem.ssl Mem.ssl_bio Mem.net_bio].
  unfold ssl_attach in *. simplify_map_eq. insert_none.
  eexists. unfold mem_conn_ok.
  cbn [Mem.self Mem.ssl Mem.ssl_bio Mem.net_bio].
  split; [|split; [|split; [|split; [|split]]]].
  3: { simplify_map_eq. reflexivity. }
  all: simplify_map_eq; eauto.
  nodup.
Qed.

(** ** The memory pump *)

Lemma net_rx_space_pure (conn : Mem.APP_CONN) (w : World) :
  Mem.net_rx_space conn w = (eval (Mem.net_rx_space conn) w, w).
Proof.
  unfold eval, Mem.net_rx_space, BIO_ctrl_get_write_guarantee. run.
  repeat case_match; reflexivity.
Qed.

Lemma net_tx_avail_pure (conn : Mem.APP_CONN) (w : World) :
  Mem.net_tx_avail conn w = (eval (Mem.net_tx_avail conn) w, w).
Proof.
  unfold eval, Mem.net_tx_avail, BIO_ctrl_pending. run.
  repeat case_match; reflexivity.
Qed.

Lemma pump_events_pure (conn : Mem.APP_CONN) (events : Z) (w : World) :
  Mem.pump_events conn events w = (eval (Mem.pump_events conn events) w, w).
Proof.
  unfold eval, Mem.pump_events. run.
  rewrite net_rx_space_pure. run. rewrite net_tx_avail_pure. reflexivity.
Qed.

Lemma pump_events_eq (conn : Mem.APP_CONN) (events : Z) (w : World) :
  eval (Mem.pump_events conn events) w =
    let m0 := Z.land events (Z.lor POLLIN POLLERR) in
    let m1 := if eval (Mem.net_rx_space conn) w =? 0
              then Z.land m0 (Z.lnot POLLIN) else m0 in
    if 0 <? eval (Mem.net_tx_avail conn) w then Z.lor m1 POLLOUT else m1.
Proof.
  unfold eval at 1, Mem.pump_events. run.
  rewrite net_rx_space_pure. run. rewrite net_tx_avail_pure. reflexivity.
Qed.

Lemma small_bits_high (c n : Z) : 0 <= c < 16 -> 4 <= n -> Z.testbit c n = false.
Proof.
  intros Hc Hn. destruct (Z.eq_dec c 0) as [->|Hz]; [apply Z.bits_0|].
  apply Z.bits_above_log2; [lia|].
  assert (Z.log2 c < 4) by (apply Z.log2_lt_pow2; lia). lia.
Qed.

Ltac const_bits :=
  repeat match goal with
         | |- context [Z.testbit (Z.pos ?p) ?k] =>
             let v := eval vm_compute in (Z.testbit (Z.pos p) k) in
             change (Z.testbit (Z.pos p) k) with v
         end.

Ltac bit_specs :=
  repeat first [ rewrite Z.land_spec | rewrite Z.lor_spec
               | rewrite Z.lnot_spec by lia | rewrite Z.bits_0 ].

Ltac bits :=
  apply Z.bits_inj'; intros n Hn; bit_specs;
  let C := fresh in
  assert (C : n = 0 \/ n = 1 \/ n = 2 \/ n = 3 \/ 4 <= n) by lia;
  destruct C as [->|[->|[->|[->|C]]]];
  [ const_bits | const_bits | const_bits | const_bits |
    rewrite ?(small_bits_high 1 n), ?(small_bits_high 4 n),
            ?(small_bits_high 8 n), ?(small_bits_high 5 n),
            ?(small_bits_high 9 n), ?(small_bits_high 13 n) by lia ];
  repeat match goal with
         | |- context [Z.testbit ?e ?k] => destruct (Z.testbit e k)
         end; reflexivity.

Lemma noop_mask (events : Z) :
  Z.land (Z.land (Z.land events (Z.lor POLLIN POLLERR)) (Z.lnot POLLIN))
         (Z.lor POLLIN POLLOUT) = 0.
Proof. unfold POLLIN, POLLERR, POLLOUT. cbn [Z.lor Pos.lor]. bits. Qed.

(** C6: when the encrypted-out buffer is empty and the encrypted-in
    buffer has no room, the pump returns 1 at once and leaves the world
    as it found it: no [poll], no [read], no [write], and the buffer
    pair untouched, for every event set and timeout. *)
Theorem pump_noop (conn : Mem.APP_CONN) (fd events timeout : Z) (w : World) :
  eval (Mem.net_tx_avail conn) w = 0 ->
  eval (Mem.net_rx_space conn) w = 0 ->
  Mem.pump conn fd events timeout w = (Some 1, w).
Proof.
  intros Ha Hs. unfold Mem.pump. run.
  rewrite pump_events_pure, pump_events_eq. run. rewrite Ha, Hs.
  cbn [Z.eqb Z.ltb Z.compare]. rewrite noop_mask. reflexivity.
Qed.

Lemma pump_noop_witness :
  let w := mem_world 4 [] [Byte.x17; Byte.x03; Byte.x03; Byte.x00] [] in
  Mem.pump mem_conn0 3 (Mem.get_conn_pending_rx mem_conn0) 2000 w = (Some 1, w).
Proof.
  intros w.
  apply (pump_noop mem_conn0 3 (Mem.get_conn_pending_rx mem_conn0) 2000 w).
  - vm_compute. reflexivity.
  - vm_compute. reflexivity.
Defined.

Lemma grows_refl (w : World) : grows w w [] [].
Proof. unfold grows. rewrite !app_nil_r. auto. Qed.

Lemma grows_trans (w1 w2 w3 : World) t1 d1 t2 d2 :
  grows w1 w2 t1 d1 -> grows w2 w3 t2 d2 -> grows w1 w3 (t1 ++ t2) (d1 ++ d2).
Proof.
  unfold grows. intros [H1 H2] [H3 H4]. rewrite H3, H4, H1, H2, !app_assoc. auto.
Qed.

Lemma read_spec (fd count : Z) (w : World) :
  exists l errno data,
    read fd count w =
      ((l, errno, data),
       mkWorld (env w) (S (clock w)) (heap w) (trace w ++ [Cread fd count l]) (stderr w)
               (established w))
    /\ (l <= 0 \/ (l = Z.of_nat (length data) /\ 0 < l <= count)).
Proof.
  unfold read. run. do 3 eexists. split; [reflexivity|].
  destruct (Z.leb_spec (r_ret (env w (clock w))) 0) as [H|H]; [left; exact H|].
  rewrite length_take.
  set (len := length (r_data (env w (clock w)))).
  destruct (Z.leb_spec
              (Z.of_nat (Z.to_nat (Z.min (r_ret (env w (clock w))) count) `min` len)) 0)
    as [H0|H0]; [left; exact H0|].
  right. split; [reflexivity|]. lia.
Qed.

Ltac frame :=
  unfold grows; cbn [trace stderr];
  first [ exists []; rewrite ?app_nil_r; repeat split; auto; fail
        | eexists; split;
          [ split; [reflexivity | rewrite ?app_nil_r; reflexivity]
          | repeat constructor ] ].

(** What [write_net_rx] does to the world. *)
Lemma write_net_rx_spec (conn : Mem.APP_CONN) (data : list Byte.byte) (l : Z) (w : World) :
  let w' := exec (Mem.write_net_rx conn data l) w in
  (exists t, grows w w' t [] /\ Forall (fun c => is_write c = false) t)
  /\ (net_bio_is_pair conn w ->
      net_bio_is_pair conn w'
      /\ (0 < eval (Mem.net_rx_space conn) w ->
          l = Z.of_nat (length data) ->
          0 < l <= eval (Mem.net_rx_space conn) w ->
          eval (Mem.net_rx_space conn) w'
          = eval (Mem.net_rx_space conn) w - l)).
Proof.
  unfold Mem.write_net_rx, Mem.net_rx_space, BIO_write, BIO_ctrl_get_write_guarantee,
         net_bio_is_pair.
  destruct (Z.leb_spec l 0) as [Hl|Hl]; run.
  { split; [frame|]. intros Hp. split; [exact Hp|]. lia. }
  destruct (heap w !! Mem.net_bio conn) as [[| | |peer size buf|[s|] c]|] eqn:E; run;
    try (split; [frame | intros (? & ? & ? & [=])]).
  unfold pair_write. run. rewrite E.
  destruct peer as [p|]; run.
  2: { split; [frame|]. intros _. rewrite E. split; [eauto|]. run. lia. }
  destruct (Z.leb_spec l 0) as [Hl'|_]; [lia|]; run.
  destruct (decide (length buf = size)) as [Hfull|Hfull]; run.
  { split; [frame|]. intros _. rewrite E. split; [eauto|]. run. lia. }
  split; [frame|]. intros _. rewrite lookup_insert_eq. split; [eauto|]. run.
  intros Hsp Hlen Hle. rewrite length_app, length_take. lia.
Qed.

Ltac step :=
  repeat progress
    (unfold eval, exec, mbind, M_bind, mret, M_ret in *;
     cbn beta iota zeta
         delta [fst snd env clock heap trace stderr established] in *).

(** The optional diagnostic after a transfer touches stderr only. *)
Lemma report_spec (b : bool) (dg : diag) (w : World) :
  exists w' d,
    (if b then fprintf dg else (fun w0 => (tt, w0))) w = (tt, w')
    /\ heap w' = heap w /\ grows w w' [] d
    /\ (b = true -> d = [dg]).
Proof.
  destruct b; run.
  - do 2 eexists. split; [reflexivity|]. unfold grows. cbn.
    rewrite app_nil_r. auto.
  - exists w, []. split; [reflexivity|]. split; [reflexivity|].
    split; [apply grows_refl|discriminate].
Qed.

Lemma net_rx_space_heap (conn : Mem.APP_CONN) (w w' : World) :
  heap w' = heap w ->
  eval (Mem.net_rx_space conn) w' = eval (Mem.net_rx_space conn) w.
Proof.
  intros H. unfold Mem.net_rx_space, BIO_ctrl_get_write_guarantee. run.
  rewrite H. repeat case_match; reflexivity.
Qed.

Lemma net_tx_avail_heap (conn : Mem.APP_CONN) (w w' : World) :
  heap w' = heap w ->
  eval (Mem.net_tx_avail conn) w' = eval (Mem.net_tx_avail conn) w.
Proof.
  intros H. unfold Mem.net_tx_avail, BIO_ctrl_pending. run.
  rewrite H. repeat case_match; reflexivity.
Qed.

Lemma net_bio_is_pair_heap (conn : Mem.APP_CONN) (w w' : World) :
  heap w' = heap w -> net_bio_is_pair conn w -> net_bio_is_pair conn w'.
Proof. unfold net_bio_is_pair. intros ->. auto. Qed.

(** The receive loop: it makes no transport write, keeps [net_bio] a
    pair half, and ends within the iterations it is given when these
    exceed the room in the encrypted-in buffer. *)
Lemma pump_rx_loop_spec (fuel : nat) (conn : Mem.APP_CONN) (fd : Z) (w : World) :
  let r := eval (Mem.pump_rx_loop fuel conn fd) w in
  let w' := exec (Mem.pump_rx_loop fuel conn fd) w in
  (exists t d, grows w w' t d /\ Forall (fun c => is_write c = false) t)
  /\ (net_bio_is_pair conn w ->
      net_bio_is_pair conn w'
      /\ ((Z.to_nat (eval (Mem.net_rx_space conn) w) < fuel)%nat ->
          r <> Mem.OutOfFuel)).
Proof.
  revert w. induction fuel as [|fuel IH]; intros w r w'; subst r w'.
  - cbn [Mem.pump_rx_loop]. step.
    split; [exists [], []; split; [apply grows_refl|constructor]|].
    intros Hp. split; [exact Hp|]. lia.
  - cbn [Mem.pump_rx_loop]. step. rewrite net_rx_space_pure. step.
    set (sp := (Mem.net_rx_space conn w).1) in *.
    destruct (Z.ltb_spec 0 sp) as [Hsp|Hsp]; step.
    2: { split; [exists [], []; split; [apply grows_refl|constructor]|].
         intros Hp. split; [exact Hp|]. discriminate. }
    set (count := if Mem.sizeof_buf <? sp then Mem.sizeof_buf else sp).
    destruct (read_spec fd count w) as (l & errno & data & -> & Hl).
    set (w1 := mkWorld _ _ _ _ _ _).
    assert (G1 : grows w w1 [Cread fd count l] [])
      by (unfold grows; cbn; rewrite app_nil_r; auto).
    destruct (Z.leb_spec l 0) as [Hl0|Hl0]; step.
    { destruct (errno =? EAGAIN); run.
      - split; [do 2 eexists; split; [exact G1|repeat constructor]|].
        intros Hp. split; [exact Hp|]. discriminate.
      - split.
        + exists [Cread fd count l], [ErrorOnRead errno].
          split; [unfold grows; cbn; auto|repeat constructor].
        + intros Hp. split; [exact Hp|]. discriminate. }
    destruct Hl as [Hl|[Hlen Hrange]]; [lia|].
    pose proof (write_net_rx_spec conn data l w1) as [(t2 & G2 & F2) P2].
    step.
    destruct (Mem.write_net_rx conn data l w1) as [l2 w2]. step.
    destruct (report_spec (l2 <? l) (ShortWrite l2 l) w2) as (w3 & d3 & -> & H3 & G3 & _).
    specialize (IH w3). destruct IH as [(t4 & d4 & G4 & F4) P4].
    split.
    + exists ([Cread fd count l] ++ t2 ++ [] ++ t4), ([] ++ [] ++ d3 ++ d4).
      split; [eauto using grows_trans|].
      repeat (apply Forall_app; split); auto.
    + intros Hp.
      assert (Hp1 : net_bio_is_pair conn w1) by exact Hp.
      destruct (P2 Hp1) as [Hp2 Hdec].
      assert (Hp3 : net_bio_is_pair conn w3) by eauto using net_bio_is_pair_heap.
      destruct (P4 Hp3) as [Hp4 Hfuel]. split; [exact Hp4|].
      intros Hlt. apply Hfuel.
      pose proof (net_rx_space_heap conn w2 w3 H3) as E3. unfold eval in E3.
      rewrite E3.
      assert (Es : (Mem.net_rx_space conn w1).1 = sp)
        by (apply (net_rx_space_heap conn w w1); reflexivity).
      rewrite Hdec; [|rewrite Es; lia|exact Hlen|rewrite Es; subst count].
      * rewrite Es. lia.
      * destruct (Mem.sizeof_buf <? sp) eqn:Eb; [apply Z.ltb_lt in Eb|]; lia.
Qed.

(** What [read_net_tx] does to the world. *)
Lemma read_net_tx_spec (conn : Mem.APP_CONN) (len : Z) (w : World) :
  let l := fst (eval (Mem.read_net_tx conn len) w) in
  let w' := exec (Mem.read_net_tx conn len) w in
  (exists t, grows w w' t [] /\ Forall (fun c => is_write c = false) t)
  /\ (net_bio_is_pair conn w ->
      net_bio_is_pair conn w'
      /\ (0 < l ->
          eval (Mem.net_tx_avail conn) w'
          = eval (Mem.net_tx_avail conn) w - l)).
Proof.
  unfold Mem.read_net_tx, Mem.net_tx_avail, BIO_read, BIO_ctrl_pending,
         net_bio_is_pair.
  destruct (Z.ltb_spec len 0) as [Hneg|Hneg]; run.
  { split; [frame|]. intros Hp. split; [exact Hp|]. lia. }
  destruct (heap w !! Mem.net_bio conn) as [[| | |peer size buf|[s|] c]|] eqn:E; run;
    try (split; [frame | intros (? & ? & ? & [=])]).
  unfold pair_read. run. rewrite E.
  destruct peer as [p|]; run.
  2: { split; [frame|]. intros _. rewrite E. split; [eauto|]. run. lia. }
  destruct (heap w !! p) as [[| | |pp psize pbuf|]|] eqn:Ep; run;
    try (split; [frame|]; intros _; rewrite E; split; [eauto|]; run; lia).
  destruct (Z.leb_spec len 0) as [Hl|Hl]; run.
  { split; [frame|]. intros _. rewrite E. split; [eauto|]. run. lia. }
  destruct (decide (pbuf = [])) as [Hnil|Hnil]; run.
  { split; [frame|]. intros _. rewrite E. split; [eauto|]. run. lia. }
  split; [frame|]. intros _.
  destruct (decide (p = Mem.net_bio conn)) as [->|Hne].
  - rewrite E in Ep. injection Ep as <- <- <-.
    rewrite !lookup_insert_eq. split; [eauto|]. run.
    intros _. rewrite length_drop. lia.
  - rewrite !lookup_insert_ne, E by congruence. split; [eauto|]. run.
    rewrite !lookup_insert_eq. run. intros _. rewrite length_drop. lia.
Qed.

(** The drain loop: every short write is reported on stderr; the loop
    never makes the pump return; and it ends within the iterations it is
    given when these exceed the bytes pending in the encrypted-out
    buffer. *)
Lemma pump_tx_loop_spec (fuel : nat) (conn : Mem.APP_CONN) (fd : Z) (w : World) :
  let r := eval (Mem.pump_tx_loop fuel conn fd) w in
  let w' := exec (Mem.pump_tx_loop fuel conn fd) w in
  (exists t d,
      grows w w' t d
      /\ forall fd' data l l2,
           In (Cwrite fd' data l l2) t -> l2 < l -> In (ShortRead l2 l) d)
  /\ (forall rc, r <> Mem.Return rc)
  /\ (net_bio_is_pair conn w ->
      (Z.to_nat (eval (Mem.net_tx_avail conn) w) < fuel)%nat ->
      r = Mem.Fallthrough).
Proof.
  revert w. induction fuel as [|fuel IH]; intros w r w'; subst r w'.
  - cbn [Mem.pump_tx_loop]. step.
    split; [exists [], []; split; [apply grows_refl|intros ? ? ? ? []]|].
    split; [discriminate|]. lia.
  - cbn [Mem.pump_tx_loop]. step.
    pose proof (read_net_tx_spec conn Mem.sizeof_buf w) as [(t1 & G1 & F1) P1].
    step.
    destruct (Mem.read_net_tx conn Mem.sizeof_buf w) as [[l buf] w1]. step.
    destruct (Z.leb_spec l 0) as [Hl0|Hl0]; step.
    { split; [exists t1, []; split; [exact G1|]|].
      - intros fd' data l' l2 Hin _. rewrite Forall_forall in F1.
        apply list_elem_of_In, F1 in Hin. discriminate.
      - split; [discriminate|reflexivity]. }
    unfold write. run.
    set (l2 := r_ret (env w1 (clock w1))).
    set (w2 := mkWorld _ _ _ _ _ _).
    assert (G2 : grows w1 w2 [Cwrite fd buf l l2] [])
      by (unfold grows; cbn; rewrite app_nil_r; auto).
    destruct (report_spec (l2 <? l) (ShortRead l2 l) w2) as (w3 & d3 & E3 & H3 & G3 & D3).
    unfold fprintf in E3. rewrite E3. clear E3. step.
    specialize (IH w3). destruct IH as [(t4 & d4 & G4 & R4) [N4 P4]].
    split; [|split; [exact N4|]].
    + exists (t1 ++ [Cwrite fd buf l l2] ++ [] ++ t4), ([] ++ [] ++ d3 ++ d4).
      split; [eauto using grows_trans|].
      intros fd' data l' l2' Hin Hshort.
      apply in_app_or in Hin as [Hin|Hin].
      { rewrite Forall_forall in F1.
        apply list_elem_of_In, F1 in Hin. discriminate. }
      cbn [app] in *. destruct Hin as [Hin|Hin].
      * injection Hin as <- <- <- <-.
        apply in_or_app. left. rewrite D3 by (apply Z.ltb_lt; exact Hshort).
        left. reflexivity.
      * apply in_or_app. right. eauto.
    + intros Hp Hlt. destruct (P1 Hp) as [Hp1 Hdec].
      apply P4.
      * apply (net_bio_is_pair_heap conn w1 w3); [rewrite H3; reflexivity|exact Hp1].
      * pose proof (net_tx_avail_heap conn w1 w3) as E. unfold eval in E.
        rewrite E by (rewrite H3; reflexivity).
        rewrite Hdec by exact Hl0.
        assert (0 <= (Mem.net_tx_avail conn w1).1).
        { unfold Mem.net_tx_avail, BIO_ctrl_pending. run.
          repeat case_match; cbn [fst]; lia. }
        rewrite Hdec in H by exact Hl0. lia.
Qed.

Lemma pump_rx_phase_spec (conn : Mem.APP_CONN) (fd revents : Z) (w : World) :
  let r := eval (Mem.pump_rx_phase conn fd revents) w in
  let w' := exec (Mem.pump_rx_phase conn fd revents) w in
  (exists t d, grows w w' t d /\ Forall (fun c => is_write c = false) t)
  /\ (net_bio_is_pair conn w ->
      net_bio_is_pair conn w' /\ r <> Mem.OutOfFuel).
Proof.
  unfold Mem.pump_rx_phase. step.
  destruct (Z.land revents POLLIN =? 0); step.
  - split; [exists [], []; split; [apply grows_refl|constructor]|].
    intros Hp. split; [exact Hp|discriminate].
  - rewrite net_rx_space_pure. step.
    pose proof (pump_rx_loop_spec (S (Z.to_nat (Mem.net_rx_space conn w).1)) conn fd w)
      as [F P].
    step. split; [exact F|].
    intros Hp. destruct (P Hp) as [Hp' Hf]. split; [exact Hp'|]. apply Hf. lia.
Qed.

Lemma pump_tx_phase_spec (conn : Mem.APP_CONN) (fd revents : Z) (w : World) :
  let r := eval (Mem.pump_tx_phase conn fd revents) w in
  let w' := exec (Mem.pump_tx_phase conn fd revents) w in
  (exists t d,
      grows w w' t d
      /\ forall fd' data l l2,
           In (Cwrite fd' data l l2) t -> l2 < l -> In (ShortRead l2 l) d)
  /\ (forall rc, r <> Mem.Return rc)
  /\ (net_bio_is_pair conn w -> r = Mem.Fallthrough).
Proof.
  unfold Mem.pump_tx_phase. step.
  destruct (Z.land revents POLLOUT =? 0); step.
  - split; [exists [], []; split; [apply grows_refl|intros ? ? ? ? []]|].
    split; [discriminate|reflexivity].
  - rewrite net_tx_avail_pure. step.
    pose proof (pump_tx_loop_spec (S (Z.to_nat (Mem.net_tx_avail conn w).1)) conn fd w)
      as (F & N & P).
    step. split; [exact F|]. split; [exact N|].
    intros Hp. apply P; [exact Hp|lia].
Qed.

(** The pump, phase by phase. *)
Lemma pump_unfold (conn : Mem.APP_CONN) (fd events timeout : Z) (w : World) :
  let m := eval (Mem.pump_events conn events) w in
  let n := r_ret (env w (clock w)) in
  let revents := r_aux (env w (clock w)) in
  let w1 := mkWorld (env w) (S (clock w)) (heap w)
                    (trace w ++ [Cpoll fd m timeout n revents]) (stderr w)
                    (established w) in
  let w2 := exec (Mem.pump_rx_phase conn fd revents) w1 in
  let w3 := exec (Mem.pump_tx_phase conn fd revents) w2 in
  Mem.pump conn fd events timeout w =
    if Z.land m (Z.lor POLLIN POLLOUT) =? 0 then (Some 1, w)
    else if n =? 0 then (Some (-1), w1)
    else match eval (Mem.pump_rx_phase conn fd revents) w1 with
         | Mem.Return rc => (Some rc, w2)
         | Mem.OutOfFuel => (None, w2)
         | Mem.Fallthrough =>
             match eval (Mem.pump_tx_phase conn fd revents) w2 with
             | Mem.Return rc => (Some rc, w3)
             | Mem.OutOfFuel => (None, w3)
             | Mem.Fallthrough => (Some 1, w3)
             end
         end.
Proof.
  intros m n revents w1 w2 w3. subst m n revents w1 w2 w3.
  unfold Mem.pump. step. rewrite pump_events_pure. step.
  destruct (_ =? 0); [reflexivity|].
  unfold poll. run.
  destruct (_ =? 0); [reflexivity|].
  destruct (Mem.pump_rx_phase conn fd _ _) as [[|rc|] w2]; step; try reflexivity.
  destruct (Mem.pump_tx_phase conn fd _ _) as [[|rc|] w3]; reflexivity.
Qed.

(** X7: under memory binding the pump always returns.  Its receive
    loop ends within one iteration per free byte of the encrypted-in
    buffer and one more, its drain loop within one per pending byte of
    the encrypted-out buffer and one more: the iterations the model gives
    them are never used up. *)
Theorem pump_total (conn : Mem.APP_CONN) (fd events timeout : Z) (w : World) :
  net_bio_is_pair conn w ->
  exists rc, eval (Mem.pump conn fd events timeout) w = Some rc.
Proof.
  intros Hp. unfold eval. rewrite pump_unfold.
  destruct (_ =? 0); [eauto|].
  destruct (_ =? 0); [eauto|].
  set (w1 := mkWorld _ _ _ _ _ _).
  pose proof (pump_rx_phase_spec conn fd (r_aux (env w (clock w))) w1) as [_ P].
  destruct (P Hp) as [Hp2 Hf]. clear P.
  destruct (eval (Mem.pump_rx_phase conn fd _) w1); [|eauto|congruence].
  pose proof (pump_tx_phase_spec conn fd (r_aux (env w (clock w)))
                (exec (Mem.pump_rx_phase conn fd (r_aux (env w (clock w)))) w1))
    as (_ & _ & P).
  rewrite (P Hp2). eauto.
Qed.

(** C7, as amended: a short write in the drain loop is reported on
    stderr and nowhere else.  Whenever a pump call wrote to the transport
    and the transport took fewer bytes than it was given, the call still
    returns 1, and a "short read" line with the two counts was printed. *)
Theorem pump_short_write_reported_not_returned
  (conn : Mem.APP_CONN) (fd events timeout : Z) (w : World)
  (t : list call) (d : list diag) (fd' : Z) (data : list Byte.byte) (l l2 : Z) :
  net_bio_is_pair conn w ->
  grows w (exec (Mem.pump conn fd events timeout) w) t d ->
  In (Cwrite fd' data l l2) t -> l2 < l ->
  eval (Mem.pump conn fd events timeout) w = Some 1 /\ In (ShortRead l2 l) d.
Proof.
  intros Hp [Ht Hd] Hin Hshort. unfold eval, exec in *.
  rewrite pump_unfold in *.
  set (m := eval (Mem.pump_events conn events) w) in *.
  set (n := r_ret (env w (clock w))) in *.
  set (revents := r_aux (env w (clock w))) in *.
  set (w1 := mkWorld _ _ _ _ _ _) in *.
  assert (G1 : grows w w1 [Cpoll fd m timeout n revents] [])
    by (unfold grows; cbn; rewrite app_nil_r; auto).
  destruct (_ =? 0).
  { cbn [snd] in Ht. rewrite <- (app_nil_r (trace w)) in Ht at 1.
    apply app_inv_head in Ht. subst t. destruct Hin. }
  destruct (_ =? 0).
  { cbn [snd trace w1] in Ht. apply app_inv_head in Ht. subst t.
    destruct Hin as [[=]|[]]. }
  pose proof (pump_rx_phase_spec conn fd revents w1) as [(t2 & d2 & G2 & F2) P2].
  destruct (P2 Hp) as [Hp2 Hf]. clear P2.
  set (w2 := exec (Mem.pump_rx_phase conn fd revents) w1) in *.
  pose proof (pump_tx_phase_spec conn fd revents w2) as ((t3 & d3 & G3 & R3) & N3 & P3).
  specialize (P3 Hp2).
  set (w3 := exec (Mem.pump_tx_phase conn fd revents) w2) in *.
  assert (Hnw : forall t', t = [Cpoll fd m timeout n revents] ++ t2 ++ t' ->
                           In (Cwrite fd' data l l2) t').
  { intros t' ->. cbn [app] in Hin. destruct Hin as [[=]|Hin].
    apply in_app_or in Hin as [Hin|Hin]; [|exact Hin].
    rewrite Forall_forall in F2. apply list_elem_of_In, F2 in Hin. discriminate. }
  destruct (eval (Mem.pump_rx_phase conn fd revents) w1) eqn:E2.
  - rewrite P3 in *. cbn [fst snd] in *.
    pose proof (grows_trans _ _ _ _ _ _ _ G1 (grows_trans _ _ _ _ _ _ _ G2 G3)) as [Gt Gd].
    rewrite Gt in Ht. apply app_inv_head in Ht. symmetry in Ht.
    rewrite Gd in Hd. apply app_inv_head in Hd. subst d.
    split; [reflexivity|]. cbn [app]. apply in_or_app. right.
    apply (R3 fd' data); [|exact Hshort]. apply Hnw. exact Ht.
  - cbn [fst snd] in *.
    pose proof (grows_trans _ _ _ _ _ _ _ G1 G2) as [Gt Gd].
    rewrite Gt in Ht. apply app_inv_head in Ht. symmetry in Ht.
    rewrite <- (app_nil_r t2) in Ht. destruct (Hnw [] Ht).
  - congruence.
Qed.

(** The transport takes one byte of three, and the pump reports
    success. *)
Lemma pump_short_write_is_success :
  let w := mem_world 16 [Byte.x17; Byte.x03; Byte.x03] []
                     [Reply 1 POLLOUT [] 0; ans 1] in
  let call := Mem.pump mem_conn0 3 (Mem.get_conn_pending_tx mem_conn0) 2000 in
  eval call w = Some 1
  /\ trace (exec call w)
     = [Cpoll 3 12 2000 1 POLLOUT;
        Cwrite 3 [Byte.x17; Byte.x03; Byte.x03] 3 1]
  /\ stderr (exec call w) = [ShortRead 1 3].
Proof. repeat split; vm_compute; reflexivity. Qed.

Lemma pump_short_write_reported_not_returned_witness :
  let w := mem_world 16 [Byte.x17; Byte.x03; Byte.x03] []
                     [Reply 1 POLLOUT [] 0; ans 1] in
  eval (Mem.pump mem_conn0 3 12 2000) w = Some 1
  /\ In (ShortRead 1 3) [ShortRead 1 3].
Proof.
  intros w.
  apply (pump_short_write_reported_not_returned mem_conn0 3 12 2000 w
           [Cpoll 3 12 2000 1 POLLOUT;
            Cwrite 3 [Byte.x17; Byte.x03; Byte.x03] 3 1]
           [ShortRead 1 3] 3 [Byte.x17; Byte.x03; Byte.x03] 3 1).
  - exists (Some 2%nat), 16%nat, []. vm_compute. reflexivity.
  - split; vm_compute; reflexivity.
  - right. left. reflexivity.
  - lia.
Defined.

Lemma land_pow2 (m k : Z) :
  0 <= k -> Z.land m (2 ^ k) = if Z.testbit m k then 2 ^ k else 0.
Proof.
  intros Hk. apply Z.bits_inj'. intros n Hn.
  rewrite Z.land_spec, Z.pow2_bits_eqb by exact Hk.
  destruct (Z.eqb_spec k n) as [->|Hne].
  - destruct (Z.testbit m n); [|rewrite Z.bits_0; reflexivity].
    rewrite Z.pow2_bits_true by exact Hn. reflexivity.
  - rewrite andb_false_r.
    destruct (Z.testbit m k); [|rewrite Z.bits_0; reflexivity].
    rewrite Z.pow2_bits_false by exact Hne. reflexivity.
Qed.

Lemma wants_testbit (m : Z) :
  wants m Readable = Z.testbit m 0
  /\ wants m Writable = Z.testbit m 2
  /\ wants m Error = Z.testbit m 3.
Proof.
  unfold wants, event_bit, POLLIN, POLLOUT, POLLERR.
  change 1 with (2 ^ 0). change 4 with (2 ^ 2). change 8 with (2 ^ 3).
  rewrite !land_pow2 by lia.
  repeat split; destruct (Z.testbit m _); reflexivity.
Qed.

Lemma wait_mask_test (m : Z) :
  (Z.land m (Z.lor POLLIN POLLOUT) =? 0)
  = negb (wants m Readable || wants m Writable).
Proof.
  destruct (wants_testbit m) as (-> & -> & _).
  rewrite Z.land_lor_distr_r. unfold POLLIN, POLLOUT.
  change 1 with (2 ^ 0). change 4 with (2 ^ 2).
  rewrite !land_pow2 by lia.
  destruct (Z.testbit m 0), (Z.testbit m 2); reflexivity.
Qed.

(** The event set the pump waits on, by what its two queries of the
    buffers answer. *)
Lemma pump_wait_mask (conn : Mem.APP_CONN) (fd events timeout : Z) (w : World) :
  let m := eval (Mem.pump_events conn events) w in
  let space := eval (Mem.net_rx_space conn) w in
  let avail := eval (Mem.net_tx_avail conn) w in
  wants m Writable = (0 <? avail)
  /\ wants m Readable = wants events Readable && negb (space =? 0)
  /\ wants m Error = wants events Error
  /\ only_events m
  /\ (if wants m Readable || wants m Writable
      then exists rest,
          trace (exec (Mem.pump conn fd events timeout) w)
          = trace w ++ Cpoll fd m timeout (r_ret (env w (clock w)))
                                          (r_aux (env w (clock w))) :: rest
      else Mem.pump conn fd events timeout w = (Some 1, w)).
Proof.
  intros m space avail.
  assert (Hm : m = let m0 := Z.land events (Z.lor POLLIN POLLERR) in
                   let m1 := if space =? 0 then Z.land m0 (Z.lnot POLLIN) else m0 in
                   if 0 <? avail then Z.lor m1 POLLOUT else m1)
    by apply pump_events_eq.
  cbv zeta in Hm.
  destruct (wants_testbit m) as (Hr & Hw & He).
  destruct (wants_testbit events) as (Hr' & _ & He').
  split; [|split; [|split; [|split]]].
  - rewrite Hw, Hm. unfold POLLIN, POLLOUT, POLLERR.
    destruct (0 <? avail), (space =? 0);
      bit_specs; const_bits;
      rewrite ?andb_false_r, ?orb_true_r; reflexivity.
  - rewrite Hr, Hr', Hm. unfold POLLIN, POLLOUT, POLLERR.
    destruct (0 <? avail), (space =? 0);
      bit_specs; const_bits;
      cbn [negb]; rewrite ?andb_false_r, ?andb_true_r, ?orb_false_r; reflexivity.
  - rewrite He, He', Hm. unfold POLLIN, POLLOUT, POLLERR.
    destruct (0 <? avail), (space =? 0);
      bit_specs; const_bits;
      cbn [negb]; rewrite ?andb_false_r, ?andb_true_r, ?orb_false_r; reflexivity.
  - unfold only_events. rewrite Hm. unfold POLLIN, POLLOUT, POLLERR.
    cbn [Z.lor Pos.lor].
    destruct (0 <? avail), (space =? 0); bits.
  - pose proof (pump_unfold conn fd events timeout w) as Hp. cbv zeta in Hp.
    fold m in Hp. rewrite wait_mask_test in Hp.
    destruct (wants m Readable || wants m Writable); cbn [negb] in Hp; [|exact Hp].
    unfold exec. rewrite Hp.
    set (w1 := mkWorld _ _ _ _ _ _).
    clear Hm.
    destruct (r_ret (env w (clock w)) =? 0); [exists []; reflexivity|].
    pose proof (pump_rx_phase_spec conn fd (r_aux (env w (clock w))) w1)
      as [(t2 & d2 & [G2 _] & _) _].
    pose proof (pump_tx_phase_spec conn fd (r_aux (env w (clock w)))
                  (exec (Mem.pump_rx_phase conn fd (r_aux (env w (clock w)))) w1))
      as ((t3 & d3 & [G3 _] & _) & _).
    destruct (eval (Mem.pump_rx_phase conn fd _) w1).
    + exists (t2 ++ t3).
      destruct (eval (Mem.pump_tx_phase conn fd _) _); cbn [snd];
        rewrite G3, G2; cbn [trace w1]; rewrite <- !app_assoc; reflexivity.
    + exists t2. cbn [snd]. rewrite G2. cbn [trace w1].
      rewrite <- !app_assoc. reflexivity.
    + exists t2. cbn [snd]. rewrite G2. cbn [trace w1].
      rewrite <- !app_assoc. reflexivity.
Qed.

(** What the two queries answer on a well-formed connection: the number
    of bytes in the encrypted-out buffer, and the room left in the
    encrypted-in buffer. *)
Lemma net_queries (conn : Mem.APP_CONN) (ib : addr) (w : World) :
  mem_conn_ok conn ib w ->
  eval (Mem.net_tx_avail conn) w = Z.of_nat (length (pending_out conn w))
  /\ eval (Mem.net_rx_space conn) w = Z.of_nat (room_in conn w).
Proof.
  intros (_ & _ & _ & (s1 & b1 & Hib) & (s2 & b2 & Hnb) & _).
  unfold Mem.net_tx_avail, Mem.net_rx_space, BIO_ctrl_pending,
         BIO_ctrl_get_write_guarantee, pending_out, room_in.
  run. rewrite Hnb. run. rewrite Hib. run. auto.
Qed.

(** C10: the event set the pump waits on, on a connection as [new_conn]
    builds it.  Writable is in it exactly when the encrypted-out buffer
    holds bytes, whatever the caller asked for; Readable exactly when
    the caller asked for it and the encrypted-in buffer has room left;
    Error exactly when the caller asked for it; nothing else.  If the
    set holds Readable or Writable the pump polls the descriptor for
    exactly this set; if not, the pump returns 1 without touching
    anything. *)
Theorem pump_wait_set
  (conn : Mem.APP_CONN) (ib : addr) (fd events timeout : Z) (w : World) :
  mem_conn_ok conn ib w ->
  let m := eval (Mem.pump_events conn events) w in
  (wants m Writable = true <-> pending_out conn w <> [])
  /\ (wants m Readable = true
      <-> wants events Readable = true /\ room_in conn w <> 0%nat)
  /\ wants m Error = wants events Error
  /\ only_events m
  /\ (if wants m Readable || wants m Writable
      then exists rest,
          trace (exec (Mem.pump conn fd events timeout) w)
          = trace w ++ Cpoll fd m timeout (r_ret (env w (clock w)))
                                          (r_aux (env w (clock w))) :: rest
      else Mem.pump conn fd events timeout w = (Some 1, w)).
Proof.
  intros Hok m.
  destruct (pump_wait_mask conn fd events timeout w) as (Hw & Hr & He & Ho & Hp).
  destruct (net_queries conn ib w Hok) as [Ea Es].
  fold m in Hw, Hr, He, Ho, Hp.
  split; [|split; [|split; [|split]]]; [| |exact He|exact Ho|exact Hp].
  - rewrite Hw, Ea, Z.ltb_lt.
    destruct (pending_out conn w); cbn [length]; split; intros; try congruence; lia.
  - rewrite Hr, Es, andb_true_iff, negb_true_iff, Z.eqb_neq. split.
    + intros [H1 H2]. split; [exact H1|]. lia.
    + intros [H1 H2]. split; [exact H1|]. lia.
Qed.

Lemma pump_wait_set_witness :
  let w := mem_world 16 [Byte.x17] [] [Reply 1 POLLOUT [] 0; ans 1] in
  let m := eval (Mem.pump_events mem_conn0 POLLIN) w in
  (wants m Writable = true <-> pending_out mem_conn0 w <> [])
  /\ (wants m Readable = true
      <-> wants POLLIN Readable = true /\ room_in mem_conn0 w <> 0%nat)
  /\ wants m Error = wants POLLIN Error
  /\ only_events m
  /\ (if wants m Readable || wants m Writable
      then exists rest,
          trace (exec (Mem.pump mem_conn0 3 POLLIN 2000) w)
          = trace w ++ Cpoll 3 m 2000 (r_ret (env w (clock w)))
                                      (r_aux (env w (clock w))) :: rest
      else Mem.pump mem_conn0 3 POLLIN 2000 w = (Some 1, w)).
Proof.
  intros w. apply (pump_wait_set mem_conn0 2%nat 3 POLLIN 2000 w).
  unfold mem_conn_ok. cbn [Mem.self Mem.ssl Mem.ssl_bio Mem.net_bio mem_conn0].
  repeat split; try (vm_compute; reflexivity).
  - exists 16%nat, [Byte.x17]. vm_compute. reflexivity.
  - exists 16%nat, []. vm_compute. reflexivity.
  - nodup.
Defined.


(** * Further properties of the code *)

(** ** The wrappers *)

Lemma three_outcomes_of_mem_tx_witness :
  let w := mem_world 16 [] [] [ans 7] in
  let l := eval (BIO_write (Mem.ssl_bio mem_conn0) [] 10) w in
  let rc := eval (SSL_get_error (Mem.ssl mem_conn0) l)
                 (exec (BIO_write (Mem.ssl_bio mem_conn0) [] 10) w) in
  let r := fst (eval (Mem.tx mem_conn0 [] 10) w) in
  (0 < l /\ r = l /\ 0 < r <= 10)
  \/ (l <= 0 /\ would_block rc /\ r = -2)
  \/ (l <= 0 /\ ~ would_block rc /\ r = -1).
Proof.
  intros w.
  apply (three_outcomes_of_mem_tx mem_conn0 [] 10 w).
  vm_compute. discriminate.
Defined.

(** X8: the outcomes of [rx], in both demos: the engine's positive count;
    or [-2], exactly when the engine failed for want of a read or of a
    write; or [-1], for every other failure.  Nothing else is
    returned. *)
Theorem rx_three_outcomes :
  (forall (conn : Fd.APP_CONN) (buf_len : Z) (w : World),
      let l := eval (SSL_read (Fd.ssl conn) buf_len) w in
      let rc := eval (SSL_get_error (Fd.ssl conn) l)
                     (exec (SSL_read (Fd.ssl conn) buf_len) w) in
      let r := fst (eval (Fd.rx conn buf_len) w) in
      (0 < l /\ r = l)
      \/ (l <= 0 /\ (rc = SSL_ERROR_WANT_READ \/ rc = SSL_ERROR_WANT_WRITE)
          /\ r = -2)
      \/ (l <= 0 /\ rc <> SSL_ERROR_WANT_READ /\ rc <> SSL_ERROR_WANT_WRITE
          /\ r = -1))
  /\ (forall (conn : Mem.APP_CONN) (buf_len : Z) (w : World),
      let l := fst (eval (BIO_read (Mem.ssl_bio conn) buf_len) w) in
      let rc := eval (SSL_get_error (Mem.ssl conn) l)
                     (exec (BIO_read (Mem.ssl_bio conn) buf_len) w) in
      let r := fst (eval (Mem.rx conn buf_len) w) in
      (0 < l /\ r = l)
      \/ (l <= 0 /\ (rc = SSL_ERROR_WANT_READ \/ rc = SSL_ERROR_WANT_WRITE)
          /\ r = -2)
      \/ (l <= 0 /\ rc <> SSL_ERROR_WANT_READ /\ rc <> SSL_ERROR_WANT_WRITE
          /\ r = -1)).
Proof.
  split.
  - intros conn buf_len w l rc r. subst l rc r. unfold Fd.rx. run.
    destruct (Z.leb_spec (r_ret (env w (clock w))) 0) as [Hle|Hgt]; run.
    + right. split_codes; codes; intuition lia.
    + left. auto.
  - intros conn buf_len w l rc r. subst l rc r. unfold Mem.rx. run.
    destruct (BIO_read (Mem.ssl_bio conn) buf_len w) as [[l d] w1]. run.
    destruct (Z.leb_spec l 0) as [Hle|Hgt]; run.
    + right. split_codes; codes; intuition lia.
    + left. auto.
Qed.

(** X9: the hint of Demo 5's [rx]: set on the want of a write, cleared on
    progress, and left as the call found it by every other outcome. *)
Theorem mem_rx_hint (conn : Mem.APP_CONN) (buf_len : Z) (w : World) :
  let l := fst (eval (BIO_read (Mem.ssl_bio conn) buf_len) w) in
  let rc := eval (SSL_get_error (Mem.ssl conn) l)
                 (exec (BIO_read (Mem.ssl_bio conn) buf_len) w) in
  let conn' := snd (eval (Mem.rx conn buf_len) w) in
  Mem.rx_need_tx conn' =
    (if l <=? 0
     then if rc =? SSL_ERROR_WANT_WRITE then 1 else Mem.rx_need_tx conn
     else 0)
  /\ Mem.tx_need_rx conn' = Mem.tx_need_rx conn.
Proof.
  intros l rc conn'. subst l rc conn'. unfold Mem.rx. run.
  destruct (BIO_read (Mem.ssl_bio conn) buf_len w) as [[l d] w1]. run.
  destruct (Z.leb_spec l 0) as [Hle|Hgt]; run; [|split; reflexivity].
  split_codes; split; reflexivity.
Qed.

(** A call of [tx] or [rx] touches nothing of the connection but its own
    hint. *)
Lemma wrappers_keep_the_handles :
  (forall (conn : Fd.APP_CONN) (buf : list Byte.byte) (buf_len : Z) (w : World),
      let c1 := snd (eval (Fd.tx conn buf buf_len) w) in
      let c2 := snd (eval (Fd.rx conn buf_len) w) in
      (Fd.self c1, Fd.ssl c1, Fd.fd c1, Fd.rx_need_tx c1)
      = (Fd.self conn, Fd.ssl conn, Fd.fd conn, Fd.rx_need_tx conn)
      /\ (Fd.self c2, Fd.ssl c2, Fd.fd c2, Fd.tx_need_rx c2)
         = (Fd.self conn, Fd.ssl conn, Fd.fd conn, Fd.tx_need_rx conn))
  /\ (forall (conn : Mem.APP_CONN) (buf : list Byte.byte) (buf_len : Z) (w : World),
      let c1 := snd (eval (Mem.tx conn buf buf_len) w) in
      let c2 := snd (eval (Mem.rx conn buf_len) w) in
      (Mem.self c1, Mem.ssl c1, Mem.ssl_bio c1, Mem.net_bio c1, Mem.rx_need_tx c1)
      = (Mem.self conn, Mem.ssl conn, Mem.ssl_bio conn, Mem.net_bio conn,
         Mem.rx_need_tx conn)
      /\ (Mem.self c2, Mem.ssl c2, Mem.ssl_bio c2, Mem.net_bio c2, Mem.tx_need_rx c2)
         = (Mem.self conn, Mem.ssl conn, Mem.ssl_bio conn, Mem.net_bio conn,
            Mem.tx_need_rx conn)).
Proof.
  split.
  - intros conn buf buf_len w c1 c2. subst c1 c2. unfold Fd.tx, Fd.rx. run.
    destruct (r_ret (env w (clock w)) <=? 0); run; [|split; reflexivity].
    split; split_codes; reflexivity.
  - intros conn buf buf_len w c1 c2. subst c1 c2. unfold Mem.tx, Mem.rx. run.
    destruct (BIO_write (Mem.ssl_bio conn) buf buf_len w) as [l w1].
    destruct (BIO_read (Mem.ssl_bio conn) buf_len w) as [[l' d] w1']. run.
    split.
    + destruct (l <=? 0); run; [|reflexivity]. split_codes; reflexivity.
    + destruct (l' <=? 0); run; [|reflexivity]. split_codes; reflexivity.
Qed.


(** ** What the I/O paths leave alone *)

Lemma same_shape_refl (h : gmap addr obj) : same_shape h h.
Proof. intros a. reflexivity. Qed.

Lemma same_shape_trans (h1 h2 h3 : gmap addr obj) :
  same_shape h1 h2 -> same_shape h2 h3 -> same_shape h1 h3.
Proof. intros H1 H2 a. rewrite H1. apply H2. Qed.

Lemma same_shape_refill (h : gmap addr obj) (a : addr)
  (peer : option addr) (size : nat) (buf buf' : list Byte.byte) :
  h !! a = Some (OBioPair peer size buf) ->
  same_shape h (<[a := OBioPair peer size buf']> h).
Proof.
  intros H b. rewrite lookup_insert. case_decide; [subst; rewrite H|]; reflexivity.
Qed.

Lemma engine_io_shape (s : addr) (r : reply) (h : gmap addr obj) :
  same_shape h (engine_io s r h).
Proof.
  unfold engine_io.
  destruct (h !! s) as [[|[b|]| | |]|]; try apply same_shape_refl.
  destruct (h !! b) as [[| | |[p|] size buf|]|] eqn:Eb; try apply same_shape_refl.
  cbv zeta.
  match goal with
  | |- context [<[b := ?o]> h] => set (h1 := <[b := o]> h)
  end.
  assert (S1 : same_shape h h1) by (eapply same_shape_refill; exact Eb).
  destruct (h1 !! p) as [[| | |pp psize pbuf|]|] eqn:Ep; try exact S1.
  eapply same_shape_trans; [exact S1|]. eapply same_shape_refill. exact Ep.
Qed.

Lemma pair_write_shape (b : addr) (data : list Byte.byte) (len : Z) (w : World) :
  same_shape (heap w) (heap (exec (pair_write b data len) w)).
Proof.
  unfold pair_write. run.
  destruct (heap w !! b) as [[| | |[p|] size buf|]|] eqn:Eb; run;
    try apply same_shape_refl.
  destruct (len <=? 0); run; [apply same_shape_refl|].
  destruct (decide (length buf = size)); run; [apply same_shape_refl|].
  eapply same_shape_refill. exact Eb.
Qed.

Lemma pair_read_shape (b : addr) (len : Z) (w : World) :
  same_shape (heap w) (heap (exec (pair_read b len) w)).
Proof.
  unfold pair_read. run.
  destruct (heap w !! b) as [[| | |[p|] size buf|]|] eqn:Eb; run;
    try apply same_shape_refl.
  destruct (heap w !! p) as [[| | |pp psize pbuf|]|] eqn:Ep; run;
    try apply same_shape_refl.
  destruct (len <=? 0); run; [apply same_shape_refl|].
  destruct (decide (pbuf = [])); run; [apply same_shape_refl|].
  eapply same_shape_refill. exact Ep.
Qed.

Lemma BIO_write_shape (b : addr) (data : list Byte.byte) (len : Z) (w : World) :
  same_shape (heap w) (heap (exec (BIO_write b data len) w)).
Proof.
  unfold BIO_write.
  destruct (len <=? 0); run; [apply same_shape_refl|].
  destruct (heap w !! b) as [[| | |peer size buf|[s|] c]|] eqn:Eb; run;
    try apply same_shape_refl.
  - apply (pair_write_shape b data len w).
  - apply engine_io_shape.
Qed.

Lemma BIO_read_shape (b : addr) (len : Z) (w : World) :
  same_shape (heap w) (heap (exec (BIO_read b len) w)).
Proof.
  unfold BIO_read.
  destruct (len <? 0); run; [apply same_shape_refl|].
  destruct (heap w !! b) as [[| | |peer size buf|[s|] c]|] eqn:Eb; run;
    try apply same_shape_refl.
  - apply (pair_read_shape b len w).
  - apply engine_io_shape.
Qed.

Lemma pump_rx_loop_shape (fuel : nat) (conn : Mem.APP_CONN) (fd : Z) (w : World) :
  same_shape (heap w) (heap (exec (Mem.pump_rx_loop fuel conn fd) w)).
Proof.
  revert w. induction fuel as [|fuel IH]; intros w.
  - apply same_shape_refl.
  - cbn [Mem.pump_rx_loop]. step. rewrite net_rx_space_pure. step.
    destruct (0 <? _); step; [|apply same_shape_refl].
    destruct (read_spec fd
                (if Mem.sizeof_buf <? (Mem.net_rx_space conn w).1
                 then Mem.sizeof_buf else (Mem.net_rx_space conn w).1) w)
      as (l & errno & data & -> & _).
    set (w1 := mkWorld _ _ _ _ _ _).
    destruct (l <=? 0); step.
    { destruct (errno =? EAGAIN); run; apply same_shape_refl. }
    pose proof (BIO_write_shape (Mem.net_bio conn) data l w1) as S1.
    unfold Mem.write_net_rx. step.
    destruct (BIO_write (Mem.net_bio conn) data l w1) as [l2 w2]. step.
    destruct (report_spec (l2 <? l) (ShortWrite l2 l) w2) as (w3 & d3 & -> & H3 & _).
    eapply same_shape_trans; [exact S1|]. rewrite <- H3. apply IH.
Qed.

Lemma pump_tx_loop_shape (fuel : nat) (conn : Mem.APP_CONN) (fd : Z) (w : World) :
  same_shape (heap w) (heap (exec (Mem.pump_tx_loop fuel conn fd) w)).
Proof.
  revert w. induction fuel as [|fuel IH]; intros w.
  - apply same_shape_refl.
  - cbn [Mem.pump_tx_loop]. step.
    pose proof (BIO_read_shape (Mem.net_bio conn) Mem.sizeof_buf w) as S1.
    unfold Mem.read_net_tx. step.
    destruct (BIO_read (Mem.net_bio conn) Mem.sizeof_buf w) as [[l buf] w1]. step.
    destruct (l <=? 0); step; [exact S1|].
    unfold write. run.
    set (l2 := r_ret (env w1 (clock w1))).
    set (w2 := mkWorld _ _ _ _ _ _).
    destruct (report_spec (l2 <? l) (ShortRead l2 l) w2) as (w3 & d3 & E3 & H3 & _).
    unfold fprintf in E3. rewrite E3. clear E3. step.
    eapply same_shape_trans; [exact S1|].
    change (heap w1) with (heap w2). rewrite <- H3. apply IH.
Qed.

Lemma fd_io_shape (conn : Fd.APP_CONN) (buf : list Byte.byte) (buf_len : Z) (w : World) :
  same_shape (heap w) (heap (exec (Fd.tx conn buf buf_len) w))
  /\ same_shape (heap w) (heap (exec (Fd.rx conn buf_len) w)).
Proof.
  unfold Fd.tx, Fd.rx. run.
  split; destruct (_ <=? 0); run; try apply engine_io_shape;
    split_codes; apply engine_io_shape.
Qed.

Lemma mem_io_shape (conn : Mem.APP_CONN) (buf : list Byte.byte) (buf_len : Z) (w : World) :
  same_shape (heap w) (heap (exec (Mem.tx conn buf buf_len) w))
  /\ same_shape (heap w) (heap (exec (Mem.rx conn buf_len) w)).
Proof.
  split.
  - pose proof (BIO_write_shape (Mem.ssl_bio conn) buf buf_len w) as S.
    unfold Mem.tx. run.
    destruct (BIO_write (Mem.ssl_bio conn) buf buf_len w) as [l w1]. run.
    destruct (l <=? 0); run; [|exact S]. split_codes; exact S.
  - pose proof (BIO_read_shape (Mem.ssl_bio conn) buf_len w) as S.
    unfold Mem.rx. run.
    destruct (BIO_read (Mem.ssl_bio conn) buf_len w) as [[l d] w1]. run.
    destruct (l <=? 0); run; [|exact S]. split_codes; exact S.
Qed.

Lemma pump_shape (conn : Mem.APP_CONN) (fd events timeout : Z) (w : World) :
  same_shape (heap w) (heap (exec (Mem.pump conn fd events timeout) w)).
Proof.
  unfold exec. rewrite pump_unfold.
  destruct (_ =? 0); [apply same_shape_refl|].
  destruct (_ =? 0); [apply same_shape_refl|].
  set (w1 := mkWorld _ _ _ _ _ _).
  set (revents := r_aux (env w (clock w))).
  assert (S2 : same_shape (heap w) (heap (exec (Mem.pump_rx_phase conn fd revents) w1))).
  { unfold Mem.pump_rx_phase. step.
    destruct (_ =? 0); step; [apply same_shape_refl|].
    rewrite net_rx_space_pure. step. apply (pump_rx_loop_shape _ conn fd w1). }
  set (w2 := exec (Mem.pump_rx_phase conn fd revents) w1) in *.
  assert (S3 : same_shape (heap w) (heap (exec (Mem.pump_tx_phase conn fd revents) w2))).
  { eapply same_shape_trans; [exact S2|].
    unfold Mem.pump_tx_phase. step.
    destruct (_ =? 0); step; [apply same_shape_refl|].
    rewrite net_tx_avail_pure. step. apply (pump_tx_loop_shape _ conn fd w2). }
  destruct (eval (Mem.pump_rx_phase conn fd revents) w1); try exact S2.
  destruct (eval (Mem.pump_tx_phase conn fd revents) w2); exact S3.
Qed.

(** X10: [tx], [rx] and the pump never allocate, free or re-link an
    object.  Whatever the engine and the transport do, the ledger after
    the call has the same live objects with the same owners, links and
    capacities; only the contents of the buffers may have changed. *)
Theorem io_keeps_the_ledger_shape :
  (forall (conn : Fd.APP_CONN) (buf : list Byte.byte) (buf_len : Z) (w : World),
      same_shape (heap w) (heap (exec (Fd.tx conn buf buf_len) w))
      /\ same_shape (heap w) (heap (exec (Fd.rx conn buf_len) w)))
  /\ (forall (conn : Mem.APP_CONN) (buf : list Byte.byte) (buf_len : Z) (w : World),
      same_shape (heap w) (heap (exec (Mem.tx conn buf buf_len) w))
      /\ same_shape (heap w) (heap (exec (Mem.rx conn buf_len) w)))
  /\ (forall (conn : Mem.APP_CONN) (fd events timeout : Z) (w : World),
      same_shape (heap w) (heap (exec (Mem.pump conn fd events timeout) w))).
Proof.
  split; [exact fd_io_shape|]. split; [exact mem_io_shape|exact pump_shape].
Qed.

Lemma same_shape_lookup (h h' : gmap addr obj) (a : addr) (o : obj) :
  same_shape h h' -> h !! a = Some o ->
  exists o', h' !! a = Some o' /\ obj_shape o' = obj_shape o.
Proof.
  intros S H. specialize (S a). rewrite H in S.
  destruct (h' !! a) as [o'|]; [|discriminate].
  exists o'. split; [reflexivity|]. injection S as S. congruence.
Qed.

(** X11: a well-formed connection stays well formed.  Once [new_conn] of
    Demo 5 has built it, no [tx], [rx] or pump call, with whatever
    outcome, breaks the structure that [teardown] relies on. *)
Theorem mem_conn_ok_kept
  (conn : Mem.APP_CONN) (internal_bio : addr) (w : World) :
  mem_conn_ok conn internal_bio w ->
  (forall buf buf_len,
      mem_conn_ok (snd (eval (Mem.tx conn buf buf_len) w)) internal_bio
                  (exec (Mem.tx conn buf buf_len) w))
  /\ (forall buf_len,
      mem_conn_ok (snd (eval (Mem.rx conn buf_len) w)) internal_bio
                  (exec (Mem.rx conn buf_len) w))
  /\ (forall fd events timeout,
      mem_conn_ok conn internal_bio (exec (Mem.pump conn fd events timeout) w)).
Proof.
  intros Hok.
  assert (K : forall (c : Mem.APP_CONN) (w' : World),
             (Mem.self c, Mem.ssl c, Mem.ssl_bio c, Mem.net_bio c)
             = (Mem.self conn, Mem.ssl conn, Mem.ssl_bio conn, Mem.net_bio conn) ->
             same_shape (heap w) (heap w') -> mem_conn_ok c internal_bio w').
  { intros c w' [= E1 E2 E3 E4] S.
    destruct Hok as (H1 & H2 & H3 & (s1 & b1 & H4) & (s2 & b2 & H5) & Hnd).
    unfold mem_conn_ok. rewrite E1, E2, E3, E4.
    destruct (same_shape_lookup _ _ _ _ S H1) as ([] & -> & [=]).
    destruct (same_shape_lookup _ _ _ _ S H2) as ([] & -> & [=]); subst.
    destruct (same_shape_lookup _ _ _ _ S H3) as ([] & -> & [=]); subst.
    destruct (same_shape_lookup _ _ _ _ S H4) as ([] & -> & [=]); subst.
    destruct (same_shape_lookup _ _ _ _ S H5) as ([] & -> & [=]); subst.
    repeat split; eauto. }
  destruct wrappers_keep_the_handles as [_ Hh].
  split; [|split].
  - intros buf buf_len. apply K; [|apply mem_io_shape].
    destruct (Hh conn buf buf_len w) as [E _]. cbv zeta in E. congruence.
  - intros buf_len. apply K; [|apply (mem_io_shape conn [] buf_len w)].
    destruct (Hh conn [] buf_len w) as [_ E]. cbv zeta in E. congruence.
  - intros fd events timeout. apply K; [reflexivity|apply pump_shape].
Qed.


(** ** The pump and the buffer pair *)

Lemma mem_conn_ok_shape (conn : Mem.APP_CONN) (internal_bio : addr) (w w' : World) :
  mem_conn_ok conn internal_bio w -> same_shape (heap w) (heap w') ->
  mem_conn_ok conn internal_bio w'.
Proof.
  intros (H1 & H2 & H3 & (s1 & b1 & H4) & (s2 & b2 & H5) & Hnd) S.
  unfold mem_conn_ok.
  destruct (same_shape_lookup _ _ _ _ S H1) as ([] & -> & [=]).
  destruct (same_shape_lookup _ _ _ _ S H2) as ([] & -> & [=]); subst.
  destruct (same_shape_lookup _ _ _ _ S H3) as ([] & -> & [=]); subst.
  destruct (same_shape_lookup _ _ _ _ S H4) as ([] & -> & [=]); subst.
  destruct (same_shape_lookup _ _ _ _ S H5) as ([] & -> & [=]); subst.
  repeat split; eauto.
Qed.

Lemma mem_conn_ok_heap (conn : Mem.APP_CONN) (internal_bio : addr) (w w' : World) :
  heap w' = heap w -> mem_conn_ok conn internal_bio w ->
  mem_conn_ok conn internal_bio w'.
Proof. unfold mem_conn_ok. intros ->. auto. Qed.

Lemma mem_conn_ok_pair (conn : Mem.APP_CONN) (internal_bio : addr) (w : World) :
  mem_conn_ok conn internal_bio w -> net_bio_is_pair conn w.
Proof.
  intros (_ & _ & _ & _ & (s2 & b2 & H5) & _). unfold net_bio_is_pair. eauto.
Qed.

(** The two halves of a well-formed connection, by name. *)
Lemma mem_conn_ok_halves (conn : Mem.APP_CONN) (ib : addr) (w : World) :
  mem_conn_ok conn ib w ->
  ib <> Mem.net_bio conn
  /\ exists s1 s2,
      heap w !! ib = Some (OBioPair (Some (Mem.net_bio conn)) s1 (pending_out conn w))
      /\ heap w !! Mem.net_bio conn
         = Some (OBioPair (Some ib) s2 (pending_in conn w)).
Proof.
  intros (_ & _ & _ & (s1 & b1 & H4) & (s2 & b2 & H5) & Hnd).
  nodup_inv Hnd. split; [congruence|].
  exists s1, s2. unfold pending_out, pending_in. rewrite H5, H4. auto.
Qed.

Lemma pending_after_out (conn : Mem.APP_CONN) (ib : addr) (w w2 : World)
  (s1 : nat) (buf' : list Byte.byte) :
  mem_conn_ok conn ib w ->
  heap w2 = <[ib := OBioPair (Some (Mem.net_bio conn)) s1 buf']> (heap w) ->
  pending_out conn w2 = buf' /\ pending_in conn w2 = pending_in conn w.
Proof.
  intros Hok E.
  destruct (mem_conn_ok_halves _ _ _ Hok) as (Hne & s1' & s2 & Hib & Hnb).
  unfold pending_out, pending_in. rewrite E.
  rewrite !lookup_insert_ne, !Hnb, lookup_insert_eq by congruence. auto.
Qed.

Lemma pending_after_in (conn : Mem.APP_CONN) (ib : addr) (w w2 : World)
  (s2 : nat) (buf' : list Byte.byte) :
  mem_conn_ok conn ib w ->
  heap w2 = <[Mem.net_bio conn := OBioPair (Some ib) s2 buf']> (heap w) ->
  pending_out conn w2 = pending_out conn w /\ pending_in conn w2 = buf'.
Proof.
  intros Hok E.
  destruct (mem_conn_ok_halves _ _ _ Hok) as (Hne & s1 & s2' & Hib & Hnb).
  unfold pending_out, pending_in. rewrite E.
  rewrite !lookup_insert_eq, lookup_insert_ne, Hnb, Hib by congruence. auto.
Qed.

(** Feeding the encrypted-in buffer when there is room for all of it. *)
Lemma write_net_rx_exact (conn : Mem.APP_CONN) (ib : addr)
  (data : list Byte.byte) (l : Z) (w : World) :
  mem_conn_ok conn ib w ->
  l = Z.of_nat (length data) ->
  0 < l <= eval (Mem.net_rx_space conn) w ->
  exists w',
    Mem.write_net_rx conn data l w = (l, w')
    /\ trace w' = trace w /\ stderr w' = stderr w
    /\ pending_in conn w' = pending_in conn w ++ data
    /\ pending_out conn w' = pending_out conn w
    /\ same_shape (heap w) (heap w')
    /\ eval (Mem.net_rx_space conn) w' = eval (Mem.net_rx_space conn) w - l.
Proof.
  intros Hok Hlen Hl.
  destruct (mem_conn_ok_halves _ _ _ Hok) as (Hne & s1 & s2 & Hib & Hnb).
  pose proof (BIO_write_shape (Mem.net_bio conn) data l w) as Hshape.
  revert Hl Hshape.
  unfold Mem.write_net_rx, Mem.net_rx_space, BIO_write, BIO_ctrl_get_write_guarantee,
         pair_write.
  destruct (Z.leb_spec l 0) as [Hneg|Hpos]; [run; intros; lia|].
  run. rewrite ?Hnb. run. rewrite ?Hnb. run. intros Hl.
  destruct (decide (length (pending_in conn w) = s2)); [lia|]. run.
  assert (Et : take (Z.to_nat (l `min` Z.of_nat (s2 - length (pending_in conn w)))) data = data)
    by (apply take_ge; lia).
  rewrite Et. intros Hshape.
  eexists. split; [f_equal; lia|]. cbn [trace stderr].
  match goal with
  | |- context [pending_in _ ?w2] =>
      destruct (pending_after_in conn ib w w2 s2 (pending_in conn w ++ data) Hok eq_refl)
        as [Eo Ei]
  end.
  rewrite Eo, Ei. cbn [heap]. rewrite lookup_insert_eq. run.
  repeat split; auto. rewrite length_app. lia.
Qed.

(** Taking from the encrypted-out buffer. *)
Lemma read_net_tx_exact (conn : Mem.APP_CONN) (ib : addr) (w : World) :
  mem_conn_ok conn ib w ->
  exists l data w',
    Mem.read_net_tx conn Mem.sizeof_buf w = ((l, data), w')
    /\ trace w' = trace w /\ stderr w' = stderr w
    /\ pending_out conn w = data ++ pending_out conn w'
    /\ pending_in conn w' = pending_in conn w
    /\ same_shape (heap w) (heap w')
    /\ ((l <= 0 /\ pending_out conn w = [] /\ data = [])
        \/ (0 < l /\ l = Z.of_nat (length data)
            /\ eval (Mem.net_tx_avail conn) w'
               = eval (Mem.net_tx_avail conn) w - l)).
Proof.
  intros Hok.
  destruct (mem_conn_ok_halves _ _ _ Hok) as (Hne & s1 & s2 & Hib & Hnb).
  pose proof (BIO_read_shape (Mem.net_bio conn) Mem.sizeof_buf w) as Hshape.
  pose proof (read_net_tx_spec conn Mem.sizeof_buf w) as [_ Hdec].
  specialize (Hdec (mem_conn_ok_pair _ _ _ Hok)). destruct Hdec as [_ Hdec].
  revert Hshape Hdec.
  unfold Mem.read_net_tx, BIO_read, pair_read.
  change (Mem.sizeof_buf <? 0) with false.
  run. rewrite ?Hnb. run. rewrite ?Hnb, ?Hib. run.
  change (Mem.sizeof_buf <=? 0) with false. run.
  destruct (decide (pending_out conn w = [])) as [E|E]; run.
  - intros _ _. exists (-1), [], w. rewrite E.
    split; [reflexivity|]. do 4 (split; [reflexivity|]).
    split; [apply same_shape_refl|]. left. split; [lia|auto].
  - intros Hshape Hdec. do 3 eexists. split; [reflexivity|]. cbn [trace stderr].
    match goal with
    | |- context [pending_in _ ?w2] =>
        edestruct (pending_after_out conn ib w w2) as [Eo Ei]; [exact Hok|reflexivity|]
    end.
    rewrite Eo, Ei, take_drop.
    assert (0 < Mem.sizeof_buf `min` Z.of_nat (length (pending_out conn w))).
    { destruct (pending_out conn w); [congruence|]. cbn [length].
      unfold Mem.sizeof_buf. lia. }
    do 4 (split; [reflexivity|]). split; [exact Hshape|].
    right. split; [assumption|]. split.
    + rewrite length_take. lia.
    + apply Hdec. assumption.
Qed.


Lemma report_exact (b : bool) (dg : diag) (w : World) :
  exists w',
    (if b then fprintf dg else (fun w0 => (tt, w0))) w = (tt, w')
    /\ heap w' = heap w /\ trace w' = trace w
    /\ stderr w' = stderr w ++ (if b then [dg] else []).
Proof.
  destruct b; run; eexists; (split; [reflexivity|]); cbn;
    rewrite ?app_nil_r; auto.
Qed.

Lemma pending_heap (conn : Mem.APP_CONN) (w w' : World) :
  heap w' = heap w ->
  pending_in conn w' = pending_in conn w /\ pending_out conn w' = pending_out conn w.
Proof. unfold pending_in, pending_out. intros ->. auto. Qed.

(** The receive loop on a well-formed connection. *)
Lemma pump_rx_loop_exact (fuel : nat) (conn : Mem.APP_CONN) (ib : addr) (fd : Z)
  (w : World) :
  mem_conn_ok conn ib w ->
  (Z.to_nat (eval (Mem.net_rx_space conn) w) < fuel)%nat ->
  let r := eval (Mem.pump_rx_loop fuel conn fd) w in
  let w' := exec (Mem.pump_rx_loop fuel conn fd) w in
  exists t arrived,
    trace w' = trace w ++ t
    /\ written t = []
    /\ pending_in conn w' = pending_in conn w ++ arrived
    /\ Z.of_nat (length arrived) = received t
    /\ pending_out conn w' = pending_out conn w
    /\ same_shape (heap w) (heap w')
    /\ ((r = Mem.Fallthrough /\ stderr w' = stderr w)
        \/ (exists e, r = Mem.Return (-1) /\ e <> EAGAIN
                      /\ stderr w' = stderr w ++ [ErrorOnRead e])).
Proof.
  revert w. induction fuel as [|fuel IH]; intros w Hok Hfuel r w'; subst r w'.
  { lia. }
  cbn [Mem.pump_rx_loop]. step. rewrite net_rx_space_pure. step.
  set (sp := (Mem.net_rx_space conn w).1) in *.
  destruct (Z.ltb_spec 0 sp) as [Hsp|Hsp]; step.
  2: { exists [], []. rewrite !app_nil_r. repeat split; auto. }
  set (count := if Mem.sizeof_buf <? sp then Mem.sizeof_buf else sp).
  assert (Hcount : count <= sp).
  { subst count. destruct (Z.ltb_spec Mem.sizeof_buf sp); lia. }
  destruct (read_spec fd count w) as (l & errno & data & -> & Hl).
  set (w1 := mkWorld _ _ _ _ _ _).
  assert (Hok1 : mem_conn_ok conn ib w1) by exact Hok.
  assert (Hsp1 : eval (Mem.net_rx_space conn) w1 = sp)
    by (apply (net_rx_space_heap conn w w1); reflexivity).
  destruct (Z.leb_spec l 0) as [Hl0|Hl0]; step.
  { destruct (Z.eqb_spec errno EAGAIN) as [He|He]; run.
    - exists [Cread fd count l], []. rewrite !app_nil_r.
      split; [reflexivity|]. split; [reflexivity|]. split; [reflexivity|].
      split; [cbn; lia|]. split; [reflexivity|].
      split; [apply same_shape_refl|]. left. auto.
    - exists [Cread fd count l], []. rewrite !app_nil_r.
      split; [reflexivity|]. split; [reflexivity|]. split; [reflexivity|].
      split; [cbn; lia|]. split; [reflexivity|].
      split; [apply same_shape_refl|]. right. exists errno. auto. }
  destruct Hl as [Hl|[Hlen Hrange]]; [lia|].
  destruct (write_net_rx_exact conn ib data l w1 Hok1 Hlen)
    as (w2 & E2 & T2 & D2 & I2 & O2 & S2 & Sp2).
  { unfold eval in *. rewrite Hsp1. lia. }
  rewrite E2. step. rewrite Z.ltb_irrefl. step.
  assert (Hok2 : mem_conn_ok conn ib w2) by (eapply mem_conn_ok_shape; eauto).
  destruct (IH w2 Hok2) as (t & arrived & T & W & I & R & O & S & Hr).
  { unfold eval in *. rewrite Sp2, Hsp1. lia. }
  exists (Cread fd count l :: t), (data ++ arrived).
  split; [rewrite T, T2; cbn [trace w1]; rewrite <- app_assoc; reflexivity|].
  split; [exact W|].
  split; [rewrite I, I2, app_assoc; reflexivity|].
  split; [cbn [received fold_right]; fold (received t); rewrite length_app; lia|].
  split; [rewrite O, O2; reflexivity|].
  split; [eapply same_shape_trans; [exact S2|exact S]|].
  rewrite D2 in Hr. exact Hr.
Qed.

(** The drain loop on a well-formed connection. *)
Lemma pump_tx_loop_exact (fuel : nat) (conn : Mem.APP_CONN) (ib : addr) (fd : Z)
  (w : World) :
  mem_conn_ok conn ib w ->
  (Z.to_nat (eval (Mem.net_tx_avail conn) w) < fuel)%nat ->
  let r := eval (Mem.pump_tx_loop fuel conn fd) w in
  let w' := exec (Mem.pump_tx_loop fuel conn fd) w in
  exists t d,
    r = Mem.Fallthrough
    /\ grows w w' t d
    /\ written t = pending_out conn w
    /\ received t = 0
    /\ pending_out conn w' = []
    /\ pending_in conn w' = pending_in conn w
    /\ Forall (fun x => exists l2 l, x = ShortRead l2 l /\ l2 < l) d.
Proof.
  revert w. induction fuel as [|fuel IH]; intros w Hok Hfuel r w'; subst r w'.
  { lia. }
  cbn [Mem.pump_tx_loop]. step.
  destruct (read_net_tx_exact conn ib w Hok)
    as (l & data & w1 & E1 & T1 & D1 & O1 & I1 & S1 & Hl).
  rewrite E1. step.
  destruct Hl as [(Hl0 & Hempty & Hdata)|(Hl0 & Hlen & Hdec)].
  { destruct (Z.leb_spec l 0); [|lia]. step.
    exists [], []. unfold grows. rewrite !app_nil_r.
    rewrite Hempty, Hdata in O1. cbn [app] in O1.
    rewrite I1, <- O1, Hempty. repeat split; auto. }
  destruct (Z.leb_spec l 0); [lia|]. step.
  unfold write. run.
  set (l2 := r_ret (env w1 (clock w1))).
  set (w2 := mkWorld _ _ _ _ _ _).
  destruct (report_exact (l2 <? l) (ShortRead l2 l) w2) as (w3 & E3 & H3 & T3 & D3).
  unfold fprintf in E3. rewrite E3. clear E3. step.
  assert (Hok3 : mem_conn_ok conn ib w3).
  { eapply mem_conn_ok_heap; [exact H3|]. eapply mem_conn_ok_shape; eauto. }
  destruct (pending_heap conn w1 w3 H3) as [I3 O3].
  destruct (IH w3 Hok3) as (t & d & Hr & [T D] & W & R & O & I & F).
  { pose proof (net_tx_avail_heap conn w1 w3 H3) as E. unfold eval in *.
    rewrite E, Hdec.
    assert (0 <= (Mem.net_tx_avail conn w1).1).
    { unfold Mem.net_tx_avail, BIO_ctrl_pending. run.
      repeat case_match; cbn [fst]; lia. }
    rewrite Hdec in H0. lia. }
  exists (Cwrite fd data l l2 :: t), ((if l2 <? l then [ShortRead l2 l] else []) ++ d).
  split; [exact Hr|].
  split.
  { unfold grows. rewrite T, D, T3, D3. cbn [trace stderr w2].
    rewrite T1, D1, <- !app_assoc. auto. }
  split; [cbn [written flat_map]; fold (written t); rewrite W, O3, O1; reflexivity|].
  split; [exact R|]. split; [exact O|].
  split; [rewrite I, I3, I1; reflexivity|].
  apply Forall_app. split; [|exact F].
  destruct (Z.ltb_spec l2 l); repeat constructor. eauto.
Qed.


Lemma received_app (t1 t2 : list call) :
  received (t1 ++ t2) = received t1 + received t2.
Proof.
  induction t1 as [|c t1 IH]; [reflexivity|].
  cbn [app received fold_right]. fold (received (t1 ++ t2)). fold (received t1).
  rewrite IH. destruct c; lia.
Qed.

Lemma written_app (t1 t2 : list call) :
  written (t1 ++ t2) = written t1 ++ written t2.
Proof. apply flat_map_app. Qed.

(** One pump call on a well-formed connection, in full. *)
Lemma pump_exact (conn : Mem.APP_CONN) (ib : addr) (fd events timeout : Z)
  (w : World) :
  mem_conn_ok conn ib w ->
  let m := eval (Mem.pump_events conn events) w in
  let n := r_ret (env w (clock w)) in
  let revents := r_aux (env w (clock w)) in
  let polled := wants m Readable || wants m Writable in
  let res := eval (Mem.pump conn fd events timeout) w in
  let w' := exec (Mem.pump conn fd events timeout) w in
  exists t d arrived,
    grows w w' t d
    /\ pending_in conn w' = pending_in conn w ++ arrived
    /\ Z.of_nat (length arrived) = received t
    /\ pending_out conn w = written t ++ pending_out conn w'
    /\ ((polled = false /\ res = Some 1 /\ t = [] /\ d = [])
        \/ (polled = true /\ n = 0 /\ res = Some (-1)
            /\ t = [Cpoll fd m timeout n revents] /\ d = [])
        \/ (polled = true /\ n <> 0 /\ res = Some (-1)
            /\ Z.land revents POLLIN <> 0 /\ written t = []
            /\ exists e, e <> EAGAIN /\ d = [ErrorOnRead e])
        \/ (polled = true /\ n <> 0 /\ res = Some 1
            /\ Forall (fun x => exists l2 l, x = ShortRead l2 l /\ l2 < l) d
            /\ (if Z.land revents POLLOUT =? 0
                then written t = []
                else pending_out conn w' = []))).
Proof.
  intros Hok m n revents polled res w'. subst res w'.
  pose proof (pump_unfold conn fd events timeout w) as Hp. cbv zeta in Hp.
  fold m n revents in Hp. rewrite wait_mask_test in Hp. fold polled in Hp.
  unfold eval, exec. rewrite Hp. clear Hp.
  destruct polled; cbn [negb fst snd].
  2: { exists [], [], []. unfold grows. rewrite !app_nil_r.
       do 4 (split; [auto|]). left. auto. }
  set (w1 := mkWorld _ _ _ _ _ _).
  assert (Hok1 : mem_conn_ok conn ib w1) by exact Hok.
  destruct (pending_heap conn w w1 eq_refl) as [I1 O1].
  destruct (Z.eqb_spec n 0) as [Hn|Hn]; cbn [fst snd].
  { exists [Cpoll fd m timeout n revents], [], []. unfold grows.
    rewrite !app_nil_r. do 4 (split; [auto|]). right. left. auto. }
  (* the receive phase *)
  assert (Hrx : exists t2 arrived,
             trace (exec (Mem.pump_rx_phase conn fd revents) w1) = trace w1 ++ t2
             /\ written t2 = []
             /\ pending_in conn (exec (Mem.pump_rx_phase conn fd revents) w1)
                = pending_in conn w1 ++ arrived
             /\ Z.of_nat (length arrived) = received t2
             /\ pending_out conn (exec (Mem.pump_rx_phase conn fd revents) w1)
                = pending_out conn w1
             /\ same_shape (heap w1) (heap (exec (Mem.pump_rx_phase conn fd revents) w1))
             /\ ((eval (Mem.pump_rx_phase conn fd revents) w1 = Mem.Fallthrough
                  /\ stderr (exec (Mem.pump_rx_phase conn fd revents) w1) = stderr w1)
                 \/ (exists e,
                        eval (Mem.pump_rx_phase conn fd revents) w1 = Mem.Return (-1)
                        /\ e <> EAGAIN /\ Z.land revents POLLIN <> 0
                        /\ stderr (exec (Mem.pump_rx_phase conn fd revents) w1)
                           = stderr w1 ++ [ErrorOnRead e]))).
  { unfold Mem.pump_rx_phase. step.
    destruct (Z.eqb_spec (Z.land revents POLLIN) 0) as [Hin|Hin]; step.
    - exists [], []. rewrite !app_nil_r. repeat split; auto.
    - rewrite net_rx_space_pure. step.
      destruct (pump_rx_loop_exact (S (Z.to_nat (Mem.net_rx_space conn w1).1))
                  conn ib fd w1 Hok1) as (t2 & arrived & T & W & I & R & O & S & Hr).
      { unfold eval. lia. }
      step. exists t2, arrived. repeat (split; [assumption|]).
      destruct Hr as [Hr|(e & Hr & He & Hd)]; [left; exact Hr|].
      right. exists e. auto. }
  destruct Hrx as (t2 & arrived & T2 & W2 & I2 & R2 & O2 & S2 & Hr).
  set (w2 := exec (Mem.pump_rx_phase conn fd revents) w1) in *.
  destruct Hr as [[Hr D2]|(e & Hr & He & Hin & D2)]; rewrite Hr; cbn [fst snd].
  2: { exists (Cpoll fd m timeout n revents :: t2), [ErrorOnRead e], arrived.
       split; [unfold grows; rewrite T2, D2; cbn [trace stderr w1];
               rewrite <- app_assoc; auto|].
       split; [rewrite I2, I1; reflexivity|].
       split; [cbn [received fold_right]; fold (received t2); lia|].
       split; [cbn [written flat_map]; fold (written t2);
               rewrite W2, O2, O1; reflexivity|].
       right. right. left. repeat split; eauto. }
  (* the drain phase *)
  assert (Hok2 : mem_conn_ok conn ib w2) by (eapply mem_conn_ok_shape; eauto).
  assert (Htx : exists t3 d3,
             eval (Mem.pump_tx_phase conn fd revents) w2 = Mem.Fallthrough
             /\ grows w2 (exec (Mem.pump_tx_phase conn fd revents) w2) t3 d3
             /\ received t3 = 0
             /\ pending_out conn w2
                = written t3 ++ pending_out conn (exec (Mem.pump_tx_phase conn fd revents) w2)
             /\ pending_in conn (exec (Mem.pump_tx_phase conn fd revents) w2)
                = pending_in conn w2
             /\ Forall (fun x => exists l2 l, x = ShortRead l2 l /\ l2 < l) d3
             /\ (if Z.land revents POLLOUT =? 0
                 then written t3 = []
                 else pending_out conn (exec (Mem.pump_tx_phase conn fd revents) w2) = [])).
  { unfold Mem.pump_tx_phase. step.
    destruct (Z.land revents POLLOUT =? 0); step.
    - exists [], []. split; [reflexivity|]. split; [apply grows_refl|].
      repeat split; auto.
    - rewrite net_tx_avail_pure. step.
      destruct (pump_tx_loop_exact (S (Z.to_nat (Mem.net_tx_avail conn w2).1))
                  conn ib fd w2 Hok2) as (t3 & d3 & Hr3 & G & W & R & O & I & F).
      { unfold eval. lia. }
      step. exists t3, d3. repeat (split; [assumption|]).
      split; [rewrite W, O, app_nil_r; reflexivity|]. auto. }
  destruct Htx as (t3 & d3 & Hr3 & [T3 D3] & R3 & O3 & I3 & F3 & Hout).
  rewrite Hr3. cbn [fst snd].
  set (w3 := exec (Mem.pump_tx_phase conn fd revents) w2) in *.
  exists (Cpoll fd m timeout n revents :: t2 ++ t3), d3, arrived.
  split; [unfold grows; rewrite T3, D3, T2, D2; cbn [trace stderr w1];
          rewrite <- !app_assoc; auto|].
  split; [rewrite I3, I2, I1; reflexivity|].
  split; [cbn [received fold_right]; fold (received (t2 ++ t3));
          rewrite received_app; lia|].
  split; [cbn [written flat_map]; fold (written (t2 ++ t3));
          rewrite written_app, W2, <- O1, <- O2; exact O3|].
  right. right. right. repeat split; auto.
  destruct (Z.land revents POLLOUT =? 0); [|exact Hout].
  cbn [written flat_map]. fold (written (t2 ++ t3)).
  rewrite written_app, W2, Hout. reflexivity.
Qed.


(** X12: the result of the pump on a well-formed connection is 1 or -1,
    and it is -1 exactly when the pump waited and either the wait timed
    out or a [read] failed with an errno other than [EAGAIN] (which
    prints "error on read"). *)
Theorem pump_result (conn : Mem.APP_CONN) (ib : addr) (fd events timeout : Z)
  (w : World) :
  mem_conn_ok conn ib w ->
  let m := eval (Mem.pump_events conn events) w in
  let polled := wants m Readable || wants m Writable in
  let n := r_ret (env w (clock w)) in
  let res := eval (Mem.pump conn fd events timeout) w in
  exists d,
    stderr (exec (Mem.pump conn fd events timeout) w) = stderr w ++ d
    /\ (res = Some 1 \/ res = Some (-1))
    /\ (res = Some (-1)
        <-> polled = true /\ (n = 0 \/ exists e, In (ErrorOnRead e) d)).
Proof.
  intros Hok m polled n res.
  destruct (pump_exact conn ib fd events timeout w Hok)
    as (t & d & arrived & [_ D] & _ & _ & _ & Hc).
  cbv zeta in Hc. fold m polled n res in Hc.
  exists d. split; [exact D|].
  destruct Hc as [(Hp & Hr & _ & _)|[(Hp & Hn & Hr & _ & _)
                 |[(Hp & Hn & Hr & _ & _ & e & _ & Hd)|(Hp & Hn & Hr & F & _)]]];
    rewrite Hr, Hp.
  - split; [auto|]. split; [discriminate|]. intros [[=] _].
  - split; [auto|]. split; auto.
  - split; [auto|]. split; [|reflexivity]. intros _. split; [reflexivity|].
    right. exists e. rewrite Hd. left. reflexivity.
  - split; [auto|]. split; [discriminate|]. intros [_ [H0|[e Hin]]]; [contradiction|].
    rewrite Forall_forall in F. apply list_elem_of_In, F in Hin.
    destruct Hin as (? & ? & [=] & _).
Qed.

(** X13: nothing the pump reads from the transport is dropped.  On a
    well-formed connection the encrypted-in buffer after the call is the
    buffer before it followed by exactly as many bytes as the [read]
    calls delivered, and the "short write" line of the receive loop is
    never printed. *)
Theorem pump_receive_conserves (conn : Mem.APP_CONN) (ib : addr)
  (fd events timeout : Z) (w : World) :
  mem_conn_ok conn ib w ->
  let w' := exec (Mem.pump conn fd events timeout) w in
  exists t d arrived,
    grows w w' t d
    /\ pending_in conn w' = pending_in conn w ++ arrived
    /\ Z.of_nat (length arrived) = received t
    /\ forall l2 l, ~ In (ShortWrite l2 l) d.
Proof.
  intros Hok w'.
  destruct (pump_exact conn ib fd events timeout w Hok)
    as (t & d & arrived & G & I & R & _ & Hc).
  exists t, d, arrived. repeat (split; [assumption|]).
  intros l2 l Hin.
  destruct Hc as [(_ & _ & _ & ->)|[(_ & _ & _ & _ & ->)
                 |[(_ & _ & _ & _ & _ & e & _ & ->)|(_ & _ & _ & F & _)]]].
  - destruct Hin.
  - destruct Hin.
  - destruct Hin as [[=]|[]].
  - rewrite Forall_forall in F. apply list_elem_of_In, F in Hin.
    destruct Hin as (? & ? & [=] & _).
Qed.

(** X14: bytes leave the encrypted-out buffer only through [write], in
    order.  On a well-formed connection the buffer before the call is
    the bytes handed to [write] during the call followed by the buffer
    after it; and when the pump returns 1 after a wait that reported
    write-readiness, the buffer is empty, whatever [write] returned. *)
Theorem pump_drain_conserves (conn : Mem.APP_CONN) (ib : addr)
  (fd events timeout : Z) (w : World) :
  mem_conn_ok conn ib w ->
  let m := eval (Mem.pump_events conn events) w in
  let polled := wants m Readable || wants m Writable in
  let revents := r_aux (env w (clock w)) in
  let res := eval (Mem.pump conn fd events timeout) w in
  let w' := exec (Mem.pump conn fd events timeout) w in
  exists t d,
    grows w w' t d
    /\ pending_out conn w = written t ++ pending_out conn w'
    /\ (polled = true -> res = Some 1 -> Z.land revents POLLOUT <> 0 ->
        pending_out conn w' = [])
    /\ (polled = false \/ res = Some (-1) \/ Z.land revents POLLOUT = 0 ->
        written t = []).
Proof.
  intros Hok m polled revents res w'.
  destruct (pump_exact conn ib fd events timeout w Hok)
    as (t & d & arrived & G & _ & _ & O & Hc).
  cbv zeta in Hc. fold m polled revents res w' in Hc.
  exists t, d. split; [exact G|]. split; [exact O|].
  destruct Hc as [(Hp & Hr & -> & _)|[(Hp & Hn & Hr & -> & _)
                 |[(Hp & Hn & Hr & _ & W & _)|(Hp & Hn & Hr & _ & Hout)]]].
  - split; [congruence|reflexivity].
  - split; [congruence|reflexivity].
  - split; [congruence|auto].
  - destruct (Z.eqb_spec (Z.land revents POLLOUT) 0) as [E|E].
    + split; [congruence|auto].
    + split; [auto|]. intros [H|[H|H]]; congruence.
Qed.


(** [mem_world] holds a well-formed connection. *)
Lemma mem_world_ok (size : nat) (enc_out enc_in : list Byte.byte) (rs : list reply) :
  mem_conn_ok mem_conn0 2%nat (mem_world size enc_out enc_in rs).
Proof.
  unfold mem_conn_ok, mem_world, mem_conn0.
  cbn [heap Mem.self Mem.ssl Mem.ssl_bio Mem.net_bio].
  repeat split; eauto. nodup.
Qed.

Lemma mem_conn_ok_kept_witness :
  let w := mem_world 16 [] [] [ans 5] in
  (forall buf buf_len,
      mem_conn_ok (snd (eval (Mem.tx mem_conn0 buf buf_len) w)) 2%nat
                  (exec (Mem.tx mem_conn0 buf buf_len) w))
  /\ (forall buf_len,
      mem_conn_ok (snd (eval (Mem.rx mem_conn0 buf_len) w)) 2%nat
                  (exec (Mem.rx mem_conn0 buf_len) w))
  /\ (forall fd events timeout,
      mem_conn_ok mem_conn0 2%nat (exec (Mem.pump mem_conn0 fd events timeout) w)).
Proof.
  intros w. apply (mem_conn_ok_kept mem_conn0 2%nat w). apply mem_world_ok.
Defined.

Lemma pump_result_witness :
  let w := mem_world 16 [Byte.x17] [] [Reply 0 0 [] 0] in
  let res := eval (Mem.pump mem_conn0 3 12 2000) w in
  exists d,
    stderr (exec (Mem.pump mem_conn0 3 12 2000) w) = stderr w ++ d
    /\ (res = Some 1 \/ res = Some (-1))
    /\ (res = Some (-1)
        <-> wants (eval (Mem.pump_events mem_conn0 12) w) Readable
            || wants (eval (Mem.pump_events mem_conn0 12) w) Writable = true
            /\ (r_ret (env w (clock w)) = 0 \/ exists e, In (ErrorOnRead e) d)).
Proof.
  intros w. apply (pump_result mem_conn0 2%nat 3 12 2000 w). apply mem_world_ok.
Defined.

Lemma pump_receive_conserves_witness :
  let w := mem_world 16 [] []
             [Reply 1 POLLIN [] 0;
              Reply 2 0 [Byte.x17; Byte.x03] 0; Reply (-1) EAGAIN [] 0] in
  let w' := exec (Mem.pump mem_conn0 3 9 2000) w in
  exists t d arrived,
    grows w w' t d
    /\ pending_in mem_conn0 w' = pending_in mem_conn0 w ++ arrived
    /\ Z.of_nat (length arrived) = received t
    /\ forall l2 l, ~ In (ShortWrite l2 l) d.
Proof.
  intros w. apply (pump_receive_conserves mem_conn0 2%nat 3 9 2000 w).
  apply mem_world_ok.
Defined.

Lemma pump_drain_conserves_witness :
  let w := mem_world 16 [Byte.x17; Byte.x03; Byte.x03] []
                     [Reply 1 POLLOUT [] 0; ans 1] in
  let m := eval (Mem.pump_events mem_conn0 12) w in
  let res := eval (Mem.pump mem_conn0 3 12 2000) w in
  let w' := exec (Mem.pump mem_conn0 3 12 2000) w in
  exists t d,
    grows w w' t d
    /\ pending_out mem_conn0 w = written t ++ pending_out mem_conn0 w'
    /\ (wants m Readable || wants m Writable = true -> res = Some 1 ->
        Z.land (r_aux (env w (clock w))) POLLOUT <> 0 ->
        pending_out mem_conn0 w' = [])
    /\ (wants m Readable || wants m Writable = false \/ res = Some (-1)
        \/ Z.land (r_aux (env w (clock w))) POLLOUT = 0 ->
        written t = []).
Proof.
  intros w. apply (pump_drain_conserves mem_conn0 2%nat 3 12 2000 w).
  apply mem_world_ok.
Defined.

(** The receive loop at work: two bytes arrive, then the transport has
    no more. *)
Example pump_receive_run :
  let w := mem_world 16 [] [Byte.x00]
             [Reply 1 POLLIN [] 0;
              Reply 2 0 [Byte.x17; Byte.x03] 0; Reply (-1) EAGAIN [] 0] in
  eval (Mem.pump mem_conn0 3 9 2000) w = Some 1
  /\ pending_in mem_conn0 (exec (Mem.pump mem_conn0 3 9 2000) w)
     = [Byte.x00; Byte.x17; Byte.x03].
Proof. split; vm_compute; reflexivity. Qed.


(** ** Creation and teardown, continued *)

Lemma fd_new_conn_no_leak_witness :
  let w := fresh_world [ans 1; ans 1; ans 1; ans 0] in
  heap (exec (Fd.new_conn 0%nat 3 "www.example.com") w) = heap w.
Proof.
  intros w. apply (fd_new_conn_no_leak 0%nat 3 "www.example.com" w).
  vm_compute. reflexivity.
Defined.

Lemma mem_new_conn_ok_witness :
  let w := fresh_world mem_setup_ok in
  exists internal_bio,
    mem_conn_ok mem_conn0 internal_bio
                (exec (Mem.new_conn 0%nat "www.example.com") w).
Proof.
  intros w. apply (mem_new_conn_ok 0%nat "www.example.com" w mem_conn0).
  vm_compute. reflexivity.
Defined.

(** X15: in Demo 4, creating a connection and tearing it down leaves the
    ledger exactly as it was: [teardown] releases all that [new_conn]
    allocated, the socket BIO of [SSL_set_fd] included, whatever
    [SSL_shutdown] returned. *)
Theorem fd_new_conn_teardown
  (ctx : addr) (fd : Z) (host : string) (w : World) (conn : Fd.APP_CONN) :
  eval (Fd.new_conn ctx fd host) w = Some conn ->
  heap (exec (Fd.teardown conn) (exec (Fd.new_conn ctx fd host) w)) = heap w
  /\ Fd.get_conn_fd conn = fd
  /\ Fd.rx_need_tx conn = 0 /\ Fd.tx_need_rx conn = 0.
Proof.
  intros H.
  assert (Hh : exists a a0 a1,
             conn = Fd.mkConn a a0 fd 0 0
             /\ heap w !! a = None /\ heap w !! a0 = None /\ heap w !! a1 = None
             /\ a <> a0 /\ a <> a1 /\ a0 <> a1
             /\ heap (exec (Fd.new_conn ctx fd host) w)
                = <[a0 := OSsl (Some a1)]>
                    (<[a1 := OBioFd fd]>
                       (<[a0 := OSsl None]> (<[a := OConn]> (heap w))))).
  { revert H. unfold Fd.new_conn. run_all.
    repeat (split_if; run_all; fresh_facts); try discriminate.
    intros [= <-]. unfold ssl_attach in *. simplify_map_eq. insert_none.
    do 3 eexists. split; [reflexivity|]. repeat split; eauto. }
  destruct Hh as (a & a0 & a1 & -> & F & F0 & F1 & N1 & N2 & N3 & Hh).
  unfold Fd.teardown, Fd.get_conn_fd.
  cbn [Fd.self Fd.ssl Fd.fd Fd.rx_need_tx Fd.tx_need_rx].
  split; [|auto].
  set (w1 := exec (Fd.new_conn ctx fd host) w) in *. run_all. rewrite Hh.
  unfold engine_io. simplify_map_eq.
  unfold ssl_release, bio_release. simplify_map_eq.
  map_eq_lookup.
Qed.

Lemma fd_new_conn_teardown_witness :
  let w := fresh_world fd_setup_ok in
  let conn := Fd.mkConn 0 1 3 0 0 in
  heap (exec (Fd.teardown conn) (exec (Fd.new_conn 0%nat 3 "www.example.com") w))
  = heap w
  /\ Fd.get_conn_fd conn = 3
  /\ Fd.rx_need_tx conn = 0 /\ Fd.tx_need_rx conn = 0.
Proof.
  intros w conn. apply (fd_new_conn_teardown 0%nat 3 "www.example.com" w conn).
  vm_compute. reflexivity.
Defined.

(** X16: Demo 3 leaves nothing behind when [new_conn] fails, on any of
    its six failure paths. *)
Theorem blk_new_conn_no_leak (ctx : addr) (fd : Z) (host : string) (w : World) :
  eval (Blk.new_conn ctx fd host) w = None ->
  heap (exec (Blk.new_conn ctx fd host) w) = heap w.
Proof.
  unfold Blk.new_conn. run_all.
  repeat (split_if; run_all; fresh_facts); try discriminate; intros _;
    try reflexivity.
  all: unfold ssl_attach in *; simplify_map_eq; insert_none.
  all: unfold ssl_release, bio_release; simplify_map_eq.
  all: try map_eq_lookup.
Qed.

(** X17: in Demo 3, creating a connection and tearing it down leaves the
    ledger exactly as it was.  The handshake of the new connection has
    not begun, so releasing the filter BIO sends no close notification:
    [teardown] makes the calls [BIO_free] and, within it, [SSL_free],
    which releases the SSL and its socket BIO. *)
Theorem blk_new_conn_teardown
  (ctx : addr) (fd : Z) (host : string) (w : World) (bio : addr) :
  eval (Blk.new_conn ctx fd host) w = Some bio ->
  let w1 := exec (Blk.new_conn ctx fd host) w in
  let w2 := exec (Blk.teardown bio) w1 in
  heap w2 = heap w
  /\ exists ssl,
      heap w1 !! bio = Some (OBioSsl (Some ssl) true)
      /\ trace w2 = trace w1 ++ [CBIO_free bio; CSSL_free ssl].
Proof.
  intros H.
  assert (Hh : exists a a0 a1,
             bio = a1
             /\ heap w !! a = None /\ heap w !! a0 = None /\ heap w !! a1 = None
             /\ a <> a0 /\ a <> a1 /\ a0 <> a1
             /\ (a ∉ established (exec (Blk.new_conn ctx fd host) w))
             /\ heap (exec (Blk.new_conn ctx fd host) w)
                = <[a1 := OBioSsl (Some a) true]>
                    (<[a1 := OBioSsl None false]>
                       (<[a := OSsl (Some a0)]>
                          (<[a0 := OBioFd fd]>
                             (<[a := OSsl None]> (heap w)))))).
  { revert H. unfold Blk.new_conn. run_all.
    repeat (split_if; run_all; fresh_facts); try discriminate.
    { repeat (case_match; run_all); discriminate. }
    intros [= <-]. unfold ssl_attach in *. simplify_map_eq. insert_none.
    do 3 eexists. split; [reflexivity|]. repeat split; eauto.
    rewrite elem_of_difference, elem_of_singleton. tauto. }
  destruct Hh as (a & a0 & a1 & -> & F & F0 & F1 & N1 & N2 & N3 & He & Hh).
  intros w1 w2. subst w2. fold w1 in Hh, He. clearbody w1.
  unfold Blk.teardown, BIO_free_all, BIO_free.
  run. rewrite Hh. rewrite lookup_insert_eq. run.
  destruct (decide (a ∈ established w1)) as [Hin|_]; [contradiction|].
  run. rewrite ?Hh.
  split.
  - unfold ssl_release, bio_release. simplify_map_eq.
    map_eq_lookup.
  - eexists. split; [reflexivity|]. rewrite <- !app_assoc. reflexivity.
Qed.

Lemma blk_new_conn_teardown_witness :
  let w := fresh_world [ans 1; ans 1; ans 1; ans 1; ans 1; ans 1] in
  let w1 := exec (Blk.new_conn 0%nat 3 "www.example.com") w in
  let w2 := exec (Blk.teardown 2%nat) w1 in
  heap w2 = heap w
  /\ exists ssl,
      heap w1 !! 2%nat = Some (OBioSsl (Some ssl) true)
      /\ trace w2 = trace w1 ++ [CBIO_free 2%nat; CSSL_free ssl].
Proof.
  intros w. apply (blk_new_conn_teardown 0%nat 3 "www.example.com" w 2%nat).
  vm_compute. reflexivity.
Defined.

Lemma blk_new_conn_no_leak_witness :
  let w := fresh_world [ans 1; ans 1; ans 1; ans 1; ans 1; ans 0] in
  heap (exec (Blk.new_conn 0%nat 3 "www.example.com") w) = heap w.
Proof.
  intros w. apply (blk_new_conn_no_leak 0%nat 3 "www.example.com" w).
  vm_compute. reflexivity.
Defined.

(** Releasing the SSL of a connection of Demo 5 and then its filter: the
    SSL goes with its half of the pair, and the other half is left
    without a peer and without the bytes queued for it. *)
Lemma release_filter_heap (conn : Mem.APP_CONN) (ib : addr) (h0 : gmap addr obj)
  (s1 s2 : nat) (b1 b2 : list Byte.byte) :
  h0 !! Mem.ssl conn = Some (OSsl (Some ib)) ->
  h0 !! ib = Some (OBioPair (Some (Mem.net_bio conn)) s1 b1) ->
  h0 !! Mem.net_bio conn = Some (OBioPair (Some ib) s2 b2) ->
  NoDup [Mem.self conn; Mem.ssl conn; ib; Mem.net_bio conn; Mem.ssl_bio conn] ->
  let h1 := delete (Mem.ssl_bio conn) (ssl_release (Mem.ssl conn) h0) in
  h1 !! Mem.net_bio conn = Some (OBioPair None s2 [])
  /\ forall a, a <> Mem.net_bio conn ->
       h1 !! a = delete (Mem.ssl_bio conn) (delete (Mem.ssl conn) (delete ib h0)) !! a.
Proof.
  intros Hssl Hib Hnb Hnd h1. subst h1. nodup_inv Hnd.
  unfold ssl_release. rewrite Hssl.
  unfold bio_release. rewrite Hib, Hnb.
  split.
  - rewrite !lookup_delete. repeat case_decide; try congruence.
    apply lookup_insert_eq.
  - intros a Ha. rewrite !lookup_delete, !lookup_insert.
    repeat case_decide; congruence.
Qed.

(** Teardown of a well-formed connection of Demo 5 removes its five
    objects and nothing else.  The filter BIO is released first; the
    close notification is sent from within that release, and only if the
    handshake is complete. *)
Lemma mem_teardown_run (conn : Mem.APP_CONN) (ib : addr) (w : World) :
  mem_conn_ok conn ib w ->
  let w' := exec (Mem.teardown conn) w in
  heap w'
  = delete (Mem.self conn)
      (delete (Mem.net_bio conn)
         (delete (Mem.ssl_bio conn)
            (delete (Mem.ssl conn) (delete ib (heap w)))))
  /\ trace w'
     = trace w
       ++ CBIO_free (Mem.ssl_bio conn)
          :: (if decide (Mem.ssl conn ∈ established w)
              then [CSSL_shutdown (Mem.ssl conn) (r_ret (env w (clock w)))]
              else [])
          ++ [CSSL_free (Mem.ssl conn); CBIO_free (Mem.net_bio conn);
              Cfree (Mem.self conn)].
Proof.
  intros (Hself & Hsb & Hssl & (s1 & b1 & Hib) & (s2 & b2 & Hnb) & Hnd) w'.
  subst w'. pose proof Hnd as Hnd'. nodup_inv Hnd'.
  unfold Mem.teardown. run_all. rewrite Hsb. run_all.
  destruct (decide (Mem.ssl conn ∈ established w)) as [Hin|Hin]; run_all.
  - assert (E : exists b1' b2',
               engine_io (Mem.ssl conn) (env w (clock w)) (heap w)
               = <[Mem.net_bio conn := OBioPair (Some ib) s2 b2']>
                   (<[ib := OBioPair (Some (Mem.net_bio conn)) s1 b1']> (heap w))).
    { unfold engine_io. rewrite Hssl, Hib. cbn zeta.
      rewrite (lookup_insert_ne _ ib (Mem.net_bio conn)), Hnb by congruence.
      eauto. }
    destruct E as (b1' & b2' & ->).
    match goal with
    | |- context [ssl_release _ ?h] => set (h0 := h)
    end.
    destruct (release_filter_heap conn ib h0 s1 s2 b1' b2') as [Hn Hrest];
      [subst h0; rewrite !lookup_insert_ne by congruence; exact Hssl
      |subst h0; rewrite lookup_insert_ne by congruence; apply lookup_insert_eq
      |subst h0; apply lookup_insert_eq
      |exact Hnd|].
    cbv zeta in Hn, Hrest. rewrite Hn. run_all. unfold bio_release. rewrite Hn.
    split; [|rewrite <- !app_assoc; reflexivity].
    apply map_eq. intros a. rewrite !(lookup_delete _ (Mem.self conn)).
    case_decide; [reflexivity|].
    rewrite !(lookup_delete _ (Mem.net_bio conn)).
    case_decide; [reflexivity|]. rewrite Hrest by congruence.
    subst h0. rewrite !lookup_delete, !lookup_insert.
    repeat case_decide; congruence.
  - destruct (release_filter_heap conn ib (heap w) s1 s2 b1 b2 Hssl Hib Hnb Hnd)
      as [Hn Hrest].
    cbv zeta in Hn, Hrest. rewrite Hn. run_all. unfold bio_release. rewrite Hn.
    split; [|rewrite <- !app_assoc; reflexivity].
    apply map_eq. intros a. rewrite !(lookup_delete _ (Mem.self conn)).
    case_decide; [reflexivity|].
    rewrite !(lookup_delete _ (Mem.net_bio conn)).
    case_decide; [reflexivity|]. apply Hrest. congruence.
Qed.

Lemma mem_teardown_heap (conn : Mem.APP_CONN) (ib : addr) (w : World) :
  mem_conn_ok conn ib w ->
  heap (exec (Mem.teardown conn) w)
  = delete (Mem.self conn)
      (delete (Mem.net_bio conn)
         (delete (Mem.ssl_bio conn)
            (delete (Mem.ssl conn) (delete ib (heap w))))).
Proof. intros Hok. apply (mem_teardown_run conn ib w Hok). Qed.

(** *** Teardown and the close notification *)

(** A connection of Demo 5 torn down straight after [new_conn]: its
    handshake has not begun, and teardown releases it without a close
    notification being attempted. *)
Lemma mem_teardown_before_handshake :
  let w0 := fresh_world mem_setup_ok in
  let w := exec (Mem.new_conn 0%nat "www.example.com") w0 in
  let w' := exec (Mem.teardown mem_conn0) w in
  eval (Mem.new_conn 0%nat "www.example.com") w0 = Some mem_conn0
  /\ trace w' = trace w ++ [CBIO_free 4%nat; CSSL_free 1%nat;
                            CBIO_free 3%nat; Cfree 0%nat]
  /\ (forall r, ~ In (CSSL_shutdown (Mem.ssl mem_conn0) r) (trace w'))
  /\ heap w' = ∅.
Proof.
  split; [vm_compute; reflexivity|].
  split; [vm_compute; reflexivity|].
  split; [|vm_compute; reflexivity].
  intros r. vm_compute. intros H.
  repeat (destruct H as [H|H]; [discriminate|]). exact H.
Qed.

(** C8, as amended: teardown releases the engine, and under memory
    binding both buffers, whatever a close notification returned.  In
    Demo 4 teardown attempts the notification first, on every
    connection: the calls are [SSL_shutdown], [SSL_free], [free].  In
    Demo 5 teardown makes no such call of its own: on a connection as
    [new_conn] builds it, it releases the filter BIO, and within that
    release the notification is attempted exactly when the handshake is
    complete; the SSL goes with its half of the pair, then [net_bio] and
    the record are released.  Neither the engine nor either buffer stays
    allocated. *)
Theorem teardown_releases :
  (forall (conn : Fd.APP_CONN) (w : World),
      let w' := exec (Fd.teardown conn) w in
      trace w' = trace w ++ [CSSL_shutdown (Fd.ssl conn) (r_ret (env w (clock w)));
                             CSSL_free (Fd.ssl conn);
                             Cfree (Fd.self conn)]
      /\ heap w' !! Fd.ssl conn = None
      /\ heap w' !! Fd.self conn = None)
  /\ (forall (conn : Mem.APP_CONN) (internal_bio : addr) (w : World),
      mem_conn_ok conn internal_bio w ->
      let w' := exec (Mem.teardown conn) w in
      trace w'
      = trace w
        ++ CBIO_free (Mem.ssl_bio conn)
           :: (if decide (Mem.ssl conn ∈ established w)
               then [CSSL_shutdown (Mem.ssl conn) (r_ret (env w (clock w)))]
               else [])
           ++ [CSSL_free (Mem.ssl conn); CBIO_free (Mem.net_bio conn);
               Cfree (Mem.self conn)]
      /\ heap w' !! Mem.ssl conn = None
      /\ heap w' !! internal_bio = None
      /\ heap w' !! Mem.net_bio conn = None
      /\ heap w' !! Mem.ssl_bio conn = None
      /\ heap w' !! Mem.self conn = None).
Proof.
  split.
  - intros conn w w'. subst w'. unfold Fd.teardown. run_all.
    rewrite <- !app_assoc. cbn [app].
    split; [reflexivity|].
    unfold ssl_release.
    split.
    + rewrite lookup_delete. case_decide; [reflexivity|].
      repeat case_match; rewrite lookup_delete_eq; reflexivity.
    + apply lookup_delete_eq.
  - intros conn ib w Hok w'. subst w'.
    destruct (mem_teardown_run conn ib w Hok) as [Hh Ht]. cbv zeta in Hh, Ht.
    split; [exact Ht|]. rewrite Hh.
    repeat split; rewrite !lookup_delete; repeat case_decide; congruence.
Qed.

Lemma teardown_releases_witness :
  let w := exec (mem_session (fun c => Mem.tx c [] 10))
                (fresh_world (mem_setup_ok ++ [ans 5])) in
  let w' := exec (Mem.teardown mem_conn0) w in
  Mem.ssl mem_conn0 ∈ established w
  /\ trace w'
     = trace w
       ++ CBIO_free (Mem.ssl_bio mem_conn0)
          :: (if decide (Mem.ssl mem_conn0 ∈ established w)
              then [CSSL_shutdown (Mem.ssl mem_conn0) (r_ret (env w (clock w)))]
              else [])
          ++ [CSSL_free (Mem.ssl mem_conn0); CBIO_free (Mem.net_bio mem_conn0);
              Cfree (Mem.self mem_conn0)]
  /\ heap w' !! Mem.ssl mem_conn0 = None
  /\ heap w' !! 2%nat = None
  /\ heap w' !! Mem.net_bio mem_conn0 = None
  /\ heap w' !! Mem.ssl_bio mem_conn0 = None
  /\ heap w' !! Mem.self mem_conn0 = None.
Proof.
  intros w. split.
  - refine (bool_decide_unpack (Mem.ssl mem_conn0 ∈ established w) _).
    vm_compute. exact I.
  - apply (proj2 teardown_releases mem_conn0 2%nat w).
    unfold mem_conn_ok. cbn [Mem.self Mem.ssl Mem.ssl_bio Mem.net_bio mem_conn0].
    repeat split; try (vm_compute; reflexivity).
    + exists BIO_PAIR_DEFAULT_SIZE, []. vm_compute. reflexivity.
    + exists BIO_PAIR_DEFAULT_SIZE, []. vm_compute. reflexivity.
    + nodup.
Defined.

(** X18: teardown in Demo 5 disturbs nothing else.  On a well-formed
    connection it releases the record, the SSL, the filter BIO and both
    halves of the pair, and every other object of the ledger is after the
    call what it was before, buffers included. *)
Theorem mem_teardown_frame (conn : Mem.APP_CONN) (ib : addr) (w : World) (a : addr) :
  mem_conn_ok conn ib w ->
  heap (exec (Mem.teardown conn) w) !! a
  = if decide (a ∈ [Mem.self conn; Mem.ssl conn; ib; Mem.net_bio conn;
                    Mem.ssl_bio conn])
    then None else heap w !! a.
Proof.
  intros Hok. rewrite (mem_teardown_heap conn ib w Hok).
  destruct (decide (a ∈ [Mem.self conn; Mem.ssl conn; ib; Mem.net_bio conn;
                         Mem.ssl_bio conn])) as [Hin|Hin].
  - rewrite !elem_of_cons in Hin. rewrite !lookup_delete.
    repeat case_decide; try reflexivity. exfalso.
    destruct Hin as [?|[?|[?|[?|[?|Hin]]]]]; try congruence.
    apply elem_of_nil in Hin. exact Hin.
  - rewrite !not_elem_of_cons in Hin. rewrite !lookup_delete.
    repeat case_decide; try reflexivity; exfalso; intuition congruence.
Qed.

Lemma mem_teardown_frame_witness :
  let w := mem_world 16 [Byte.x17] [] [] in
  heap (exec (Mem.teardown mem_conn0) w) !! 7%nat
  = if decide (7%nat ∈ [Mem.self mem_conn0; Mem.ssl mem_conn0; 2%nat;
                        Mem.net_bio mem_conn0; Mem.ssl_bio mem_conn0])
    then None else heap w !! 7%nat.
Proof.
  intros w. apply (mem_teardown_frame mem_conn0 2%nat w 7%nat). apply mem_world_ok.
Defined.

(** What a successful [Mem.new_conn] builds, and where. *)
Lemma mem_new_conn_built
  (ctx : addr) (host : string) (w : World) (conn : Mem.APP_CONN) :
  eval (Mem.new_conn ctx host) w = Some conn ->
  exists ib,
    mem_conn_ok conn ib (exec (Mem.new_conn ctx host) w)
    /\ Mem.rx_need_tx conn = 0 /\ Mem.tx_need_rx conn = 0
    /\ heap w !! Mem.self conn = None /\ heap w !! Mem.ssl conn = None
    /\ heap w !! ib = None /\ heap w !! Mem.net_bio conn = None
    /\ heap w !! Mem.ssl_bio conn = None
    /\ forall i, i <> Mem.self conn -> i <> Mem.ssl conn -> i <> ib ->
                 i <> Mem.net_bio conn -> i <> Mem.ssl_bio conn ->
                 heap (exec (Mem.new_conn ctx host) w) !! i = heap w !! i.
Proof.
  unfold Mem.new_conn. run_all.
  repeat (split_if; run_all; fresh_facts); try discriminate.
  { repeat (case_match; run_all); discriminate. }
  intros [= <-]. cbn [Mem.self Mem.ssl Mem.ssl_bio Mem.net_bio Mem.rx_need_tx
                      Mem.tx_need_rx].
  unfold ssl_attach in *. simplify_map_eq. insert_none.
  eexists. unfold mem_conn_ok.
  cbn [Mem.self Mem.ssl Mem.ssl_bio Mem.net_bio].
  split; [split; [|split; [|split; [|split; [|split]]]]|].
  3: { simplify_map_eq. reflexivity. }
  1-5: simplify_map_eq; eauto.
  { nodup. }
  do 7 (split; [first [reflexivity | eassumption]|]).
  intros i ? ? ? ? ?. rewrite !lookup_insert_ne by congruence. reflexivity.
Qed.

(** X19: in Demo 5, creating a connection and tearing it down leaves the
    ledger exactly as it was: the leak of [net_bio] is confined to the
    failure paths of [new_conn]. *)
Theorem mem_new_conn_teardown
  (ctx : addr) (host : string) (w : World) (conn : Mem.APP_CONN) :
  eval (Mem.new_conn ctx host) w = Some conn ->
  heap (exec (Mem.teardown conn) (exec (Mem.new_conn ctx host) w)) = heap w
  /\ Mem.rx_need_tx conn = 0 /\ Mem.tx_need_rx conn = 0.
Proof.
  intros H.
  destruct (mem_new_conn_built ctx host w conn H)
    as (ib & Hok & R0 & T0 & F & F0 & F1 & F2 & F3 & Hrest).
  split; [|auto].
  rewrite (mem_teardown_heap conn ib _ Hok).
  apply map_eq. intros i. rewrite !lookup_delete.
  repeat case_decide; subst; try congruence.
  apply Hrest; congruence.
Qed.

Lemma mem_new_conn_teardown_witness :
  let w := fresh_world mem_setup_ok in
  heap (exec (Mem.teardown mem_conn0) (exec (Mem.new_conn 0%nat "www.example.com") w))
  = heap w
  /\ Mem.rx_need_tx mem_conn0 = 0 /\ Mem.tx_need_rx mem_conn0 = 0.
Proof.
  intros w. apply (mem_new_conn_teardown 0%nat "www.example.com" w mem_conn0).
  vm_compute. reflexivity.
Defined.

Lemma pump_total_witness :
  let w := mem_world 16 [Byte.x17] [] [Reply 1 POLLOUT [] 0; ans 1] in
  exists rc, eval (Mem.pump mem_conn0 3 12 2000) w = Some rc.
Proof.
  intros w. apply (pump_total mem_conn0 3 12 2000 w).
  exists (Some 2%nat), 16%nat, []. vm_compute. reflexivity.
Defined.

(** * The drivers *)

Ltac prun :=
  repeat progress
    (unfold evalp, execp, lift, sys_log, set_ctxs, set_results, set_socks,
            eprint, fwrite, signal, P_bind, P_ret in *;
     run;
     cbn beta iota zeta delta [fst snd world ctxs results socks sys] in *).

(** The same on the goal alone. *)
Ltac prung :=
  repeat progress
    (unfold evalp, execp, lift, sys_log, set_ctxs, set_results, set_socks,
            eprint, fwrite, signal, P_bind, P_ret, mbind, M_bind, mret, M_ret;
     cbn beta iota zeta delta [fst snd world ctxs results socks sys
                               env clock heap trace stderr]).

Lemma add_remove `{Countable K} (x : K) (X : gset K) :
  x ∉ X -> ({[x]} ∪ X) ∖ {[x]} = X.
Proof.
  intros Hx. apply set_eq. intros y.
  rewrite elem_of_difference, elem_of_union, !elem_of_singleton.
  split; [intros [[?|?] ?]; [contradiction|assumption]|].
  intros Hy. split; [right; assumption|]. intros ->. contradiction.
Qed.

Lemma lift_run {A} (m : M A) (p : Proc) :
  lift m p = (eval m (world p),
              mkProc (exec m (world p)) (ctxs p) (results p) (socks p) (sys p)).
Proof. unfold lift, eval, exec. destruct (m (world p)). reflexivity. Qed.

(** ** The context *)

(** X20: [create_ssl_ctx] returns a context that is new and live, on
    which verification was switched on and whose default roots were
    loaded; or it returns NULL and the live contexts are those there were
    before: a context whose roots cannot be loaded is freed again.
    [teardown_ctx] frees what [create_ssl_ctx] returned. *)
Theorem create_ssl_ctx_no_leak (p : Proc) :
  let r := evalp create_ssl_ctx p in
  let p' := execp create_ssl_ctx p in
  heap (world p') = heap (world p)
  /\ results p' = results p /\ socks p' = socks p
  /\ match r with
     | None => ctxs p' = ctxs p
     | Some ctx =>
         (ctx ∉ ctxs p) /\ ctxs p' = {[ctx]} ∪ ctxs p
         /\ (exists rc, rc <> 0 /\
               sys p' = sys p ++ [CSSL_CTX_new (Some ctx); CSSL_CTX_set_verify ctx;
                                  CSSL_CTX_set_default_verify_paths ctx rc])
         /\ ctxs (execp (teardown_ctx ctx) p') = ctxs p
     end.
Proof.
  intros r p'. subst r p'.
  unfold create_ssl_ctx, teardown_ctx, SSL_CTX_new, SSL_CTX_set_verify,
    SSL_CTX_set_default_verify_paths, SSL_CTX_free.
  prun.
  pose proof (is_fresh (ctxs p)) as F.
  destruct (r_ret (env (world p) (clock (world p))) =? 0); prun; [auto|].
  destruct (Z.eqb_spec (r_ret (env (world p) (S (clock (world p))))) 0) as [E|E];
    prun.
  - repeat split; auto. apply add_remove, F.
  - repeat split; auto.
    + eexists. split; [exact E|]. rewrite <- !app_assoc. reflexivity.
    + apply add_remove, F.
Qed.

(** ** Demo 4: what the driver relies on *)

(** What a successful [Fd.new_conn] builds, and where. *)
Lemma fd_new_conn_built
  (ctx : addr) (fd : Z) (host : string) (w : World) (conn : Fd.APP_CONN) :
  eval (Fd.new_conn ctx fd host) w = Some conn ->
  exists b,
    fd_conn_ok conn b (exec (Fd.new_conn ctx fd host) w)
    /\ Fd.fd conn = fd /\ Fd.rx_need_tx conn = 0 /\ Fd.tx_need_rx conn = 0
    /\ heap w !! Fd.self conn = None /\ heap w !! Fd.ssl conn = None
    /\ heap w !! b = None
    /\ forall i, i <> Fd.self conn -> i <> Fd.ssl conn -> i <> b ->
                 heap (exec (Fd.new_conn ctx fd host) w) !! i = heap w !! i.
Proof.
  unfold Fd.new_conn. run_all.
  repeat (split_if; run_all; fresh_facts); try discriminate.
  intros [= <-]. cbn [Fd.self Fd.ssl Fd.fd Fd.rx_need_tx Fd.tx_need_rx].
  unfold ssl_attach in *. simplify_map_eq. insert_none.
  match goal with |- context [<[?x := OBioFd _]> _] => exists x end.
  unfold fd_conn_ok. cbn [Fd.self Fd.ssl Fd.fd].
  split; [split; [|split; [|split]]|].
  1-3: simplify_map_eq; eauto.
  { nodup. }
  do 6 (split; [first [reflexivity | eassumption]|]).
  intros i ? ? ?. rewrite !lookup_insert_ne by congruence. reflexivity.
Qed.

(** On a well-formed connection of Demo 4 the engine has no buffer of
    the ledger to work on: [tx] and [rx] leave the ledger as it is. *)
Lemma fd_io_heap (conn : Fd.APP_CONN) (b : addr) (w : World) :
  fd_conn_ok conn b w ->
  (forall buf buf_len, heap (exec (Fd.tx conn buf buf_len) w) = heap w)
  /\ (forall buf_len, heap (exec (Fd.rx conn buf_len) w) = heap w).
Proof.
  intros (_ & Hs & Hb & _).
  assert (E : forall r, engine_io (Fd.ssl conn) r (heap w) = heap w).
  { intros r. unfold engine_io. rewrite Hs, Hb. reflexivity. }
  split.
  - intros buf buf_len. unfold Fd.tx. run. cbn [Fd.ssl Fd.set_tx_need_rx].
    destruct (_ <=? 0); run; [|apply E].
    split_codes; apply E.
  - intros buf_len. unfold Fd.rx. run. cbn [Fd.ssl Fd.set_rx_need_tx].
    destruct (_ <=? 0); run; [|apply E].
    split_codes; apply E.
Qed.

Lemma fd_conn_ok_heap (conn conn' : Fd.APP_CONN) (b : addr) (w w' : World) :
  heap w' = heap w ->
  (Fd.self conn', Fd.ssl conn', Fd.fd conn') = (Fd.self conn, Fd.ssl conn, Fd.fd conn) ->
  fd_conn_ok conn b w -> fd_conn_ok conn' b w'.
Proof. unfold fd_conn_ok. intros -> [= -> -> ->]. auto. Qed.

(** ** Reception and the causes of a retry *)



(** Teardown of a well-formed connection of Demo 4 removes its three
    objects and nothing else. *)
Lemma fd_teardown_heap (conn : Fd.APP_CONN) (b : addr) (w : World) :
  fd_conn_ok conn b w ->
  heap (exec (Fd.teardown conn) w)
  = delete (Fd.self conn) (delete (Fd.ssl conn) (delete b (heap w))).
Proof.
  intros (Hself & Hs & Hb & Hnd). nodup_inv Hnd.
  unfold Fd.teardown. run.
  assert (E : engine_io (Fd.ssl conn) (env w (clock w)) (heap w) = heap w).
  { unfold engine_io. rewrite Hs, Hb. reflexivity. }
  rewrite E. unfold ssl_release. rewrite Hs.
  unfold bio_release. rewrite Hb. reflexivity.
Qed.

Lemma accepted_app (t1 t2 : list call) :
  accepted (t1 ++ t2) = accepted t1 + accepted t2.
Proof.
  induction t1 as [|c t1 IH]; [reflexivity|].
  cbn [app accepted fold_right]. fold (accepted (t1 ++ t2)). fold (accepted t1).
  rewrite IH. destruct c; lia.
Qed.

(** One [tx] call of Demo 4 on a well-formed connection. *)
Lemma fd_tx_effect (conn : Fd.APP_CONN) (b : addr) (buf : list Byte.byte)
  (buf_len : Z) (w : World) :
  fd_conn_ok conn b w ->
  let r := fst (eval (Fd.tx conn buf buf_len) w) in
  let c := snd (eval (Fd.tx conn buf buf_len) w) in
  let w' := exec (Fd.tx conn buf buf_len) w in
  (Fd.self c, Fd.ssl c, Fd.fd c) = (Fd.self conn, Fd.ssl conn, Fd.fd conn)
  /\ heap w' = heap w
  /\ (0 < r \/ r = -1 \/ r = -2)
  /\ exists t, trace w' = trace w ++ t /\ accepted t = Z.max r 0.
Proof.
  intros Hok r c w'.
  assert (Hh : heap w' = heap w) by exact (proj1 (fd_io_heap conn b w Hok) buf buf_len).
  subst r c w'. revert Hh. unfold Fd.tx. run.
  cbn [Fd.ssl Fd.set_tx_need_rx].
  set (l := r_ret (env w (clock w))).
  destruct (Z.leb_spec l 0) as [Hl|Hl]; run.
  - split_codes; intros Hh.
    all: (split; [reflexivity|]).
    all: (split; [exact Hh|]).
    all: (split; [auto|]).
    all: eexists; rewrite <- app_assoc; (split; [reflexivity|]).
    all: cbn [accepted fold_right app]; lia.
  - intros Hh.
    split; [reflexivity|].
    split; [exact Hh|]. split; [auto|].
    eexists. split; [reflexivity|]. cbn [accepted fold_right]. lia.
Qed.

(** One [rx] call of Demo 4 on a well-formed connection. *)
Lemma fd_rx_effect (conn : Fd.APP_CONN) (b : addr) (buf_len : Z) (w : World) :
  fd_conn_ok conn b w ->
  let r := fst (eval (Fd.rx conn buf_len) w) in
  let c := snd (eval (Fd.rx conn buf_len) w) in
  let w' := exec (Fd.rx conn buf_len) w in
  (Fd.self c, Fd.ssl c, Fd.fd c) = (Fd.self conn, Fd.ssl conn, Fd.fd conn)
  /\ heap w' = heap w
  /\ (0 < r \/ r = -1 \/ r = -2)
  /\ exists t, trace w' = trace w ++ t /\ accepted t = 0.
Proof.
  intros Hok r c w'.
  assert (Hh : heap w' = heap w) by exact (proj2 (fd_io_heap conn b w Hok) buf_len).
  subst r c w'. revert Hh. unfold Fd.rx. run.
  cbn [Fd.ssl Fd.set_rx_need_tx].
  set (l := r_ret (env w (clock w))).
  destruct (Z.leb_spec l 0) as [Hl|Hl]; run.
  - split_codes; intros Hh.
    all: (split; [reflexivity|]).
    all: (split; [exact Hh|]).
    all: (split; [auto|]).
    all: eexists; rewrite <- app_assoc; (split; [reflexivity|]).
    all: reflexivity.
  - intros Hh.
    split; [reflexivity|].
    split; [exact Hh|]. split; [auto|].
    eexists. split; [reflexivity|]. reflexivity.
Qed.

Lemma poll_run (fd events timeout : Z) (w : World) :
  poll fd events timeout w
  = ((r_ret (env w (clock w)), r_aux (env w (clock w))),
     mkWorld (env w) (S (clock w)) (heap w)
       (trace w ++ [Cpoll fd events timeout (r_ret (env w (clock w)))
                      (r_aux (env w (clock w)))])
       (stderr w) (established w)).
Proof. reflexivity. Qed.

(** Runs the next call of a driver on the connection level and names the
    world it leaves. *)
Ltac lift_step w1 :=
  unfold evalp, execp, mbind, P_bind; rewrite lift_run;
  match goal with
  | |- context [exec ?m (world ?p)] =>
      remember (exec m (world p)) as w1 eqn:Hw1; clear Hw1
  end;
  cbn beta iota zeta delta [fst snd world ctxs results socks sys].

Ltac use_IH IH r p2 :=
  cbv zeta in IH; unfold evalp, execp in IH;
  match type of IH with
  | context [?f ?p1] =>
      match type of (f p1) with
      | (_ * Proc)%type => destruct (f p1) as [r p2]
      end
  end;
  cbn beta iota zeta delta [fst snd world ctxs results socks sys heap trace] in *.

(** The send loop of Demo 4's driver. *)
Lemma fd_tx_loop_spec (fuel : nat) (conn : Fd.APP_CONN) (b : addr)
  (tx_p tx_len : Z) (p : Proc) :
  fd_conn_ok conn b (world p) ->
  let r := evalp (FdDriver.tx_loop fuel conn tx_p tx_len) p in
  let p' := execp (FdDriver.tx_loop fuel conn tx_p tx_len) p in
  heap (world p') = heap (world p)
  /\ ctxs p' = ctxs p /\ results p' = results p /\ socks p' = socks p
  /\ exists t,
      trace (world p') = trace (world p) ++ t
      /\ match r with
         | Over c tx_p' =>
             (Fd.self c, Fd.ssl c, Fd.fd c)
             = (Fd.self conn, Fd.ssl conn, Fd.fd conn)
             /\ sys p' = sys p
             /\ accepted t = tx_len /\ tx_p' = tx_p + tx_len
         | Failed c =>
             (Fd.self c, Fd.ssl c, Fd.fd c)
             = (Fd.self conn, Fd.ssl conn, Fd.fd conn)
             /\ exists line, sys p' = sys p ++ [Cfprintf line]
         | NoFuel => True
         end.
Proof.
  revert conn tx_p tx_len p.
  induction fuel as [|fuel IH]; intros conn tx_p tx_len p Hok.
  { cbn. repeat (split; [reflexivity|]). exists []. rewrite app_nil_r. auto. }
  cbn [FdDriver.tx_loop].
  destruct (Z.eqb_spec tx_len 0) as [E|E].
  { cbn. repeat (split; [reflexivity|]). exists []. rewrite app_nil_r.
    split; [reflexivity|]. split; [reflexivity|]. split; [reflexivity|].
    split; cbn; lia. }
  destruct (fd_tx_effect conn b (drop (Z.to_nat tx_p) FdDriver.tx_msg) tx_len
              (world p) Hok) as (Hc1 & Hh1 & Hr & t1 & Ht1 & Ha1).
  lift_step w1.
  destruct (eval (Fd.tx conn _ tx_len) (world p)) as [l c].
  cbn [fst snd] in Hc1, Hr, Ha1.
  assert (Hok1 : fd_conn_ok c b w1) by exact (fd_conn_ok_heap _ _ _ _ _ Hh1 Hc1 Hok).
  destruct (Z.ltb_spec 0 l) as [Hl|Hl].
  - specialize (IH c (tx_p + l) (tx_len - l)
                  (mkProc w1 (ctxs p) (results p) (socks p) (sys p)) Hok1).
    use_IH IH r p2.
    destruct IH as (H1 & H2 & H3 & H4 & t2 & Ht2 & Hm).
    split; [congruence|]. do 3 (split; [assumption|]).
    exists (t1 ++ t2). split; [rewrite Ht2, Ht1, app_assoc; reflexivity|].
    destruct r as [c' q| |]; auto.
    + destruct Hm as (? & ? & ? & ?). rewrite accepted_app.
      split; [congruence|]. split; [assumption|]. split; lia.
    + destruct Hm as (? & ?). split; [congruence|assumption].
  - destruct Hr as [Hr|[->| ->]]; [lia| |].
    + cbn. split; [assumption|]. do 3 (split; [reflexivity|]).
      exists t1. split; [assumption|]. split; [assumption|]. eauto.
    + cbn [Z.eqb Pos.eqb].
      unfold mbind, P_bind. rewrite lift_run. unfold eval, exec.
      rewrite poll_run.
      cbn beta iota zeta delta [fst snd world ctxs results socks sys].
      set (w2 := mkWorld _ _ _ _ _ _).
      destruct (_ =? 0).
      * cbn. split; [assumption|]. do 3 (split; [reflexivity|]).
        eexists. split; [rewrite Ht1, <- app_assoc; reflexivity|].
        split; [exact Hc1|]. eauto.
      * assert (Hok2 : fd_conn_ok c b w2) by exact Hok1.
        specialize (IH c tx_p tx_len
                      (mkProc w2 (ctxs p) (results p) (socks p) (sys p)) Hok2).
        use_IH IH r p3. clear Hok2. subst w2. cbn [heap trace] in IH.
        destruct IH as (H1 & H2 & H3 & H4 & t2 & Ht2 & Hm).
        split; [congruence|]. do 3 (split; [assumption|]).
        eexists. split; [rewrite Ht2, Ht1, <- !app_assoc; reflexivity|].
        destruct r as [c' q| |]; auto.
        -- destruct Hm as (? & ? & ? & ?). rewrite !accepted_app.
           split; [congruence|]. split; [assumption|]. split; [|assumption].
           cbn [accepted fold_right]. lia.
        -- destruct Hm as (? & ?). split; [congruence|assumption].
Qed.

(** The receive loop of Demo 4's driver. *)
Lemma fd_rx_loop_spec (fuel : nat) (conn : Fd.APP_CONN) (b : addr)
  (rx_p rx_len : Z) (p : Proc) :
  fd_conn_ok conn b (world p) ->
  let r := evalp (FdDriver.rx_loop fuel conn rx_p rx_len) p in
  let p' := execp (FdDriver.rx_loop fuel conn rx_p rx_len) p in
  heap (world p') = heap (world p)
  /\ ctxs p' = ctxs p /\ results p' = results p /\ socks p' = socks p
  /\ exists t,
      trace (world p') = trace (world p) ++ t /\ accepted t = 0
      /\ match r with
         | Over c _ =>
             (Fd.self c, Fd.ssl c, Fd.fd c)
             = (Fd.self conn, Fd.ssl conn, Fd.fd conn)
             /\ sys p' = sys p
         | Failed c =>
             (Fd.self c, Fd.ssl c, Fd.fd c)
             = (Fd.self conn, Fd.ssl conn, Fd.fd conn)
             /\ exists line, sys p' = sys p ++ [Cfprintf line]
         | NoFuel => True
         end.
Proof.
  revert conn rx_p rx_len p.
  induction fuel as [|fuel IH]; intros conn rx_p rx_len p Hok.
  { cbn. repeat (split; [reflexivity|]). exists []. rewrite app_nil_r. auto. }
  cbn [FdDriver.rx_loop].
  destruct (Z.eqb_spec rx_len 0) as [E|E].
  { cbn. repeat (split; [reflexivity|]). exists []. rewrite app_nil_r. auto. }
  destruct (fd_rx_effect conn b rx_len (world p) Hok)
    as (Hc1 & Hh1 & Hr & t1 & Ht1 & Ha1).
  lift_step w1.
  destruct (eval (Fd.rx conn rx_len) (world p)) as [l c].
  cbn [fst snd] in Hc1, Hr, Ha1.
  assert (Hok1 : fd_conn_ok c b w1) by exact (fd_conn_ok_heap _ _ _ _ _ Hh1 Hc1 Hok).
  destruct (Z.ltb_spec 0 l) as [Hl|Hl].
  - specialize (IH c (rx_p + l) (rx_len - l)
                  (mkProc w1 (ctxs p) (results p) (socks p) (sys p)) Hok1).
    use_IH IH r p2.
    destruct IH as (H1 & H2 & H3 & H4 & t2 & Ht2 & Ha2 & Hm).
    split; [congruence|]. do 3 (split; [assumption|]).
    exists (t1 ++ t2). split; [rewrite Ht2, Ht1, app_assoc; reflexivity|].
    rewrite accepted_app. split; [lia|].
    destruct r as [c' q|c'|]; auto; destruct Hm as (? & ?);
      (split; [congruence|assumption]).
  - destruct Hr as [Hr|[->| ->]]; [lia| |].
    + cbn. split; [assumption|]. do 3 (split; [reflexivity|]).
      exists t1. auto.
    + cbn [Z.eqb Pos.eqb].
      unfold mbind, P_bind. rewrite lift_run. unfold eval, exec.
      rewrite poll_run.
      cbn beta iota zeta delta [fst snd world ctxs results socks sys].
      set (w2 := mkWorld _ _ _ _ _ _).
      destruct (_ =? 0).
      * cbn. split; [assumption|]. do 3 (split; [reflexivity|]).
        eexists. split; [rewrite Ht1, <- app_assoc; reflexivity|].
        rewrite accepted_app. split; [rewrite Ha1; reflexivity|].
        split; [exact Hc1|]. eauto.
      * assert (Hok2 : fd_conn_ok c b w2) by exact Hok1.
        specialize (IH c rx_p rx_len
                      (mkProc w2 (ctxs p) (results p) (socks p) (sys p)) Hok2).
        use_IH IH r p3. clear Hok2. subst w2. cbn [heap trace] in IH.
        destruct IH as (H1 & H2 & H3 & H4 & t2 & Ht2 & Ha2 & Hm).
        split; [congruence|]. do 3 (split; [assumption|]).
        eexists. split; [rewrite Ht2, Ht1, <- !app_assoc; reflexivity|].
        rewrite !accepted_app. split; [rewrite Ha1, Ha2; reflexivity|].
        destruct r as [c' q|c'|]; auto; destruct Hm as (? & ?);
          (split; [congruence|assumption]).
Qed.

(** [Fd.new_conn], whichever way it ends. *)
Lemma fd_new_conn_heap (ctx : addr) (fd : Z) (host : string) (w : World) :
  accepted (trace (exec (Fd.new_conn ctx fd host) w)) = accepted (trace w)
  /\ match eval (Fd.new_conn ctx fd host) w with
     | None => heap (exec (Fd.new_conn ctx fd host) w) = heap w
     | Some conn =>
         exists b,
           fd_conn_ok conn b (exec (Fd.new_conn ctx fd host) w)
           /\ heap w !! Fd.self conn = None /\ heap w !! Fd.ssl conn = None
           /\ heap w !! b = None
           /\ forall i, i <> Fd.self conn -> i <> Fd.ssl conn -> i <> b ->
                        heap (exec (Fd.new_conn ctx fd host) w) !! i = heap w !! i
     end.
Proof.
  split.
  { unfold Fd.new_conn. run_all.
    repeat (split_if; run_all); rewrite ?accepted_app; cbn; lia. }
  destruct (eval (Fd.new_conn ctx fd host) w) as [conn|] eqn:E.
  - destruct (fd_new_conn_built ctx fd host w conn E)
      as (b & H1 & _ & _ & _ & H2). eauto.
  - revert E. unfold Fd.new_conn. run_all.
    repeat (split_if; run_all); try discriminate; intros _; try reflexivity.
    all: fresh_facts.
    all: unfold ssl_attach, ssl_release, bio_release; simplify_map_eq.
    all: map_eq_lookup.
Qed.

(** [fail:] in Demo 4's driver, with a connection to tear down. *)
Lemma fd_at_fail_conn (conn : Fd.APP_CONN) (b ctx : addr) (res : Z)
  (p p' : Proc) (r : option Z) :
  fd_conn_ok conn b (world p) ->
  FdDriver.at_fail (Some conn) (Some ctx) true res p = (r, p') ->
  r = Some res
  /\ heap (world p')
     = delete (Fd.self conn) (delete (Fd.ssl conn) (delete b (heap (world p))))
  /\ accepted (trace (world p')) = accepted (trace (world p))
  /\ ctxs p' = ctxs p ∖ {[ctx]} /\ results p' = pred (results p)
  /\ socks p' = socks p
  /\ sys p' = sys p ++ [CSSL_CTX_free ctx; Cfreeaddrinfo].
Proof.
  intros Hok.
  pose proof (fd_teardown_heap conn b (world p) Hok) as Hh.
  unfold FdDriver.at_fail, teardown_ctx, SSL_CTX_free, freeaddrinfo.
  unfold mbind, P_bind. rewrite lift_run.
  assert (Ht : accepted (trace (exec (Fd.teardown conn) (world p)))
               = accepted (trace (world p))).
  { unfold Fd.teardown. run. rewrite !accepted_app. cbn. lia. }
  remember (exec (Fd.teardown conn) (world p)) as w1 eqn:Hw1. clear Hw1.
  prun. intros [= <- <-]. cbn [world ctxs results socks sys].
  rewrite <- app_assoc. auto 10.
Qed.

(** What is in a log of calls that was built up call by call. *)
Ltac log_cases Hin :=
  cbn [app In] in Hin;
  repeat (destruct Hin as [Hin|Hin]; try discriminate Hin).

(** The facts on the sockets of an exit path that made no connection. *)
Ltac early_socks :=
  split; [intros x Hin Hx; log_cases Hin;
          first [ contradiction
                | injection Hin as <-; rewrite ?Z.ltb_lt, ?Z.ltb_ge in *;
                  first [lia | apply elem_of_union_l, elem_of_singleton;
                               reflexivity] ]|];
  split; [intros x Hin; log_cases Hin; contradiction|].

(** Demo 4's driver, from start to exit. *)
Lemma fd_main_exact (e : nat -> reply) (fuel : nat) (res : Z) :
  evalp (FdDriver.main fuel) (boot e) = Some res ->
  let p := execp (FdDriver.main fuel) (boot e) in
  heap (world p) = ∅ /\ ctxs p = ∅ /\ results p = 0%nat
  /\ (forall fd, In (Csocket fd) (sys p) -> 0 <= fd -> fd ∈ socks p)
  /\ (forall fd, ~ In (Cclose fd) (sys p))
  /\ ((res = 0 /\ console p = []
       /\ accepted (trace (world p)) = FdDriver.sizeof_tx_msg - 1)
      \/ (res = 1 /\ exists line, console p = [line])).
Proof.
  unfold evalp, execp.
  destruct (FdDriver.main fuel (boot e)) as [r p] eqn:Run.
  cbn [fst snd]. intros ->. revert Run.
  unfold FdDriver.main, create_ssl_ctx, SSL_CTX_new, SSL_CTX_set_verify,
    SSL_CTX_set_default_verify_paths, getaddrinfo, socket, connect, fcntl.
  unfold boot. prun.
  repeat (split_if; prun; try congruence).
  all: try (unfold FdDriver.at_fail, teardown_ctx, SSL_CTX_free, freeaddrinfo;
            prun; intros [= <- <-]; cbn [world ctxs results socks sys heap];
            split; [reflexivity|];
            split; [first [reflexivity | apply add_remove, not_elem_of_empty]|];
            split; [reflexivity|];
            early_socks;
            right; split; [reflexivity|]; eexists; reflexivity).
  set (ctx := fresh ∅) in *. clearbody ctx.
  set (fd := r_ret (e 3%nat)) in *.
  assert (Hfd : 0 <= fd) by (apply Z.ltb_ge; assumption).
  set (s0 := _ ++ [Cfcntl _ _]).
  assert (Hs0 : forall x, In (Csocket x) s0 -> x = fd).
  { intros x Hin. subst s0. log_cases Hin; [|contradiction].
    injection Hin as <-. reflexivity. }
  assert (Hc0 : forall x, ~ In (Cclose x) s0).
  { intros x Hin. subst s0. log_cases Hin. contradiction. }
  assert (Hl0 : flat_map (fun c => match c with
                                   | Cfprintf line => [line]
                                   | _ => []
                                   end) s0 = []) by reflexivity.
  clearbody s0.
  set (w0 := mkWorld e 6 ∅ [] [] ∅).
  destruct (fd_new_conn_heap ctx fd "www.example.com" w0) as [Ha Hn].
  unfold eval, exec in Ha, Hn.
  destruct (Fd.new_conn ctx fd "www.example.com" w0) as [[conn|] w1];
    cbn [fst snd] in *.
  2: { unfold FdDriver.at_fail, teardown_ctx, SSL_CTX_free, freeaddrinfo.
       prung. intros [= <- <-]. cbn [world ctxs results socks sys heap].
       rewrite Hn.
       split; [reflexivity|].
       split; [apply add_remove, not_elem_of_empty|].
       split; [reflexivity|].
       split.
       { intros x Hin _. rewrite <- !app_assoc in Hin.
         apply in_app_or in Hin as [Hin|Hin]; [|log_cases Hin; contradiction].
         apply Hs0 in Hin as ->. apply elem_of_union_l, elem_of_singleton.
         reflexivity. }
       split.
       { intros x Hin. rewrite <- !app_assoc in Hin.
         apply in_app_or in Hin as [Hin|Hin]; [exact (Hc0 x Hin)|].
         log_cases Hin. contradiction. }
       right. split; [reflexivity|]. unfold console. cbn [sys].
       rewrite !flat_map_app, Hl0. eexists. reflexivity. }
  destruct Hn as (b & Hok & F1 & F2 & F3 & Hrest).
  assert (Fin : forall c p0 r,
             FdDriver.at_fail (Some c) (Some ctx) true r p0 = (Some res, p) ->
             (Fd.self c, Fd.ssl c, Fd.fd c)
             = (Fd.self conn, Fd.ssl conn, Fd.fd conn) ->
             heap (world p0) = heap w1 ->
             ctxs p0 = {[ctx]} ∪ ∅ -> results p0 = 1%nat ->
             socks p0 = {[fd]} ∪ ∅ ->
             (forall x, In (Csocket x) (sys p0) -> x = fd) ->
             (forall x, ~ In (Cclose x) (sys p0)) ->
             r = res
             /\ heap (world p) = ∅ /\ ctxs p = ∅ /\ results p = 0%nat
             /\ (forall x, In (Csocket x) (sys p) -> 0 <= x -> x ∈ socks p)
             /\ (forall x, ~ In (Cclose x) (sys p))
             /\ console p = console p0
             /\ accepted (trace (world p)) = accepted (trace (world p0))).
  { intros c p0 r Hrun Hc Hh Hx Hr Hso Hs Hcl.
    assert (Hokc : fd_conn_ok c b (world p0))
      by exact (fd_conn_ok_heap _ _ _ _ _ Hh Hc Hok).
    destruct (fd_at_fail_conn c b ctx r p0 p (Some res) Hokc Hrun)
      as (R1 & R2 & R3 & R4 & R5 & R6 & R7).
    injection R1 as <-. injection Hc as E1 E2 _.
    split; [reflexivity|].
    split.
    { rewrite R2, Hh, E1, E2. apply map_eq. intros i.
      rewrite !lookup_delete, lookup_empty.
      repeat case_decide; try reflexivity.
      rewrite Hrest by congruence. reflexivity. }
    split; [rewrite R4, Hx; apply add_remove, not_elem_of_empty|].
    split; [rewrite R5, Hr; reflexivity|].
    split.
    { intros x Hin _. rewrite R7 in Hin. rewrite R6, Hso.
      apply in_app_or in Hin as [Hin|Hin]; [|log_cases Hin; contradiction].
      apply Hs in Hin as ->. apply elem_of_union_l, elem_of_singleton.
      reflexivity. }
    split.
    { intros x Hin. rewrite R7 in Hin.
      apply in_app_or in Hin as [Hin|Hin]; [exact (Hcl x Hin)|].
      log_cases Hin. contradiction. }
    split; [|exact R3].
    unfold console. rewrite R7, flat_map_app. cbn. apply app_nil_r. }
  pose proof (fd_tx_loop_spec fuel conn b 0 (FdDriver.sizeof_tx_msg - 1)
                (mkProc w1 ({[ctx]} ∪ ∅) 1 ({[fd]} ∪ ∅) s0) Hok) as T.
  cbv zeta in T. unfold evalp, execp in T.
  destruct (FdDriver.tx_loop fuel conn 0 (FdDriver.sizeof_tx_msg - 1) _)
    as [r2 p2].
  cbn [fst snd world ctxs results socks sys] in T.
  destruct T as (T1 & T2 & T3 & T4 & t2 & T5 & T6).
  destruct r2 as [c2 q2|c2|]; [| |discriminate].
  2: { destruct T6 as (Hc2 & line & Hl2). intros Hrun.
       apply Fin in Hrun as (<- & R2 & R3 & R4 & R5 & R6 & R7 & _);
         [|assumption..| |].
       2: { intros x Hin. rewrite Hl2 in Hin.
            apply in_app_or in Hin as [Hin|Hin]; [exact (Hs0 x Hin)|].
            log_cases Hin. contradiction. }
       2: { intros x Hin. rewrite Hl2 in Hin.
            apply in_app_or in Hin as [Hin|Hin]; [exact (Hc0 x Hin)|].
            log_cases Hin. contradiction. }
       do 5 (split; [assumption|]).
       right. split; [reflexivity|]. exists line. rewrite R7.
       unfold console. rewrite Hl2, flat_map_app, Hl0. reflexivity. }
  destruct T6 as (Hc2 & Hs2 & Ha2 & _).
  assert (Hok2 : fd_conn_ok c2 b (world p2))
    by exact (fd_conn_ok_heap _ _ _ _ _ T1 Hc2 Hok).
  pose proof (fd_rx_loop_spec fuel c2 b 0 FdDriver.sizeof_rx_msg p2 Hok2) as R.
  cbv zeta in R. unfold evalp, execp in R.
  destruct (FdDriver.rx_loop fuel c2 0 FdDriver.sizeof_rx_msg p2) as [r3 p3].
  cbn [fst snd] in R.
  destruct R as (U1 & U2 & U3 & U4 & t3 & U5 & U6 & U7).
  destruct r3 as [c3 q3|c3|]; [| |discriminate].
  - destruct U7 as (Hc3 & Hs3). intros Hrun.
    apply Fin in Hrun as (<- & R2 & R3 & R4 & R5 & R6 & R7 & R8);
      cbn [world ctxs results socks sys] in *; [|congruence..| |].
    2: { intros x Hin. rewrite Hs3, Hs2 in Hin.
         apply in_app_or in Hin as [Hin|Hin]; [exact (Hs0 x Hin)|].
         log_cases Hin. contradiction. }
    2: { intros x Hin. rewrite Hs3, Hs2 in Hin.
         apply in_app_or in Hin as [Hin|Hin]; [exact (Hc0 x Hin)|].
         log_cases Hin. contradiction. }
    do 5 (split; [assumption|]).
    left. split; [reflexivity|]. split.
    + rewrite R7. unfold console. cbn [sys].
      rewrite Hs3, Hs2, flat_map_app, Hl0. reflexivity.
    + rewrite R8, U5, T5, !accepted_app.
      rewrite Ha, Ha2, U6. cbn. lia.
  - destruct U7 as (Hc3 & line & Hl3). intros Hrun.
    apply Fin in Hrun as (<- & R2 & R3 & R4 & R5 & R6 & R7 & _);
      [|congruence..| |].
    2: { intros x Hin. rewrite Hl3, Hs2 in Hin.
         apply in_app_or in Hin as [Hin|Hin]; [exact (Hs0 x Hin)|].
         log_cases Hin. contradiction. }
    2: { intros x Hin. rewrite Hl3, Hs2 in Hin.
         apply in_app_or in Hin as [Hin|Hin]; [exact (Hc0 x Hin)|].
         log_cases Hin. contradiction. }
    do 5 (split; [assumption|]).
    right. split; [reflexivity|]. exists line. rewrite R7.
    unfold console. rewrite Hl3, Hs2, flat_map_app, Hl0. reflexivity.
Qed.

(** ** Demo 4: the driver *)

(** X21: Demo 4's driver releases what it acquired, on every path to its
    exit, except the socket.  Whenever [main] returns, no object of the
    connection is left in the ledger, the context is freed and so is the
    address list of [getaddrinfo]; but a socket that was opened is still
    open, and [close] was never called. *)
Theorem fd_main_releases (e : nat -> reply) (fuel : nat) (res : Z) :
  evalp (FdDriver.main fuel) (boot e) = Some res ->
  let p := execp (FdDriver.main fuel) (boot e) in
  heap (world p) = ∅ /\ ctxs p = ∅ /\ results p = 0%nat
  /\ (forall fd, In (Csocket fd) (sys p) -> 0 <= fd -> fd ∈ socks p)
  /\ (forall fd, ~ In (Cclose fd) (sys p)).
Proof.
  intros H p.
  destruct (fd_main_exact e fuel res H) as (H1 & H2 & H3 & H4 & H5 & _).
  auto.
Qed.

Lemma fd_main_releases_witness :
  let e := script [ans 1; ans 1; ans 0; ans 3; ans 0; ans 0;
                   ans 1; ans 1; ans 1; ans 1; ans 1;
                   ans 41; ans 5; ans (-1); ans 1] in
  let p := execp (FdDriver.main 5) (boot e) in
  heap (world p) = ∅ /\ ctxs p = ∅ /\ results p = 0%nat
  /\ (forall fd, In (Csocket fd) (sys p) -> 0 <= fd -> fd ∈ socks p)
  /\ (forall fd, ~ In (Cclose fd) (sys p)).
Proof.
  intros e. apply (fd_main_releases e 5 0). vm_compute. reflexivity.
Defined.

(** X22: the exit status of Demo 4's driver.  Whenever [main] returns,
    it returns 0 or 1.  It returns 1 exactly when it printed a line on
    stderr, and then it printed one line only; it returns 0 only after
    the engine accepted the whole request, all [sizeof(tx_msg)-1] bytes
    of it. *)
Theorem fd_main_status (e : nat -> reply) (fuel : nat) (res : Z) :
  evalp (FdDriver.main fuel) (boot e) = Some res ->
  let p := execp (FdDriver.main fuel) (boot e) in
  (res = 0 /\ console p = []
   /\ accepted (trace (world p)) = Z.of_nat (length FdDriver.tx_msg))
  \/ (res = 1 /\ exists line, console p = [line]).
Proof.
  intros H p.
  destruct (fd_main_exact e fuel res H) as (_ & _ & _ & _ & _ & [H6|H6]).
  - left. destruct H6 as (? & ? & H6). repeat split; auto.
  - right. exact H6.
Qed.

Lemma fd_main_status_witness :
  let e := script [ans 1; ans 1; ans 0; ans 3; ans 0; ans 0;
                   ans 1; ans 1; ans 1; ans 1; ans 1;
                   ans 30; ans (-1); ans SSL_ERROR_WANT_WRITE; ans 1; ans 11;
                   ans 5; ans (-1); ans SSL_ERROR_SSL] in
  let p := execp (FdDriver.main 5) (boot e) in
  (0 = 0 /\ console p = []
   /\ accepted (trace (world p)) = Z.of_nat (length FdDriver.tx_msg))
  \/ (0 = 1 /\ exists line, console p = [line]).
Proof.
  intros e. apply (fd_main_status e 5 0). vm_compute. reflexivity.
Defined.

(** ** Demo 3: what the driver relies on *)

(** [Blk.new_conn], whichever way it ends. *)
Lemma blk_new_conn_heap (ctx : addr) (fd : Z) (host : string) (w : World) :
  engine_writes (trace (exec (Blk.new_conn ctx fd host) w))
  = engine_writes (trace w)
  /\ match eval (Blk.new_conn ctx fd host) w with
     | None => heap (exec (Blk.new_conn ctx fd host) w) = heap w
     | Some bio =>
         exists ssl b,
           blk_conn_ok bio ssl b fd (exec (Blk.new_conn ctx fd host) w)
           /\ heap w !! bio = None /\ heap w !! ssl = None /\ heap w !! b = None
           /\ forall i, i <> bio -> i <> ssl -> i <> b ->
                        heap (exec (Blk.new_conn ctx fd host) w) !! i = heap w !! i
     end.
Proof.
  split.
  { unfold Blk.new_conn. run_all. unfold engine_writes.
    repeat (split_if; run_all; try congruence);
      repeat (case_match; run_all);
      repeat match goal with
             | H : (_, _) = (_, _) |- _ => injection H as <- <-
             end;
      cbn [trace]; rewrite ?flat_map_app; cbn; rewrite ?app_nil_r; reflexivity. }
  destruct (eval (Blk.new_conn ctx fd host) w) as [bio|] eqn:E.
  - revert E. unfold Blk.new_conn. run_all.
    repeat (split_if; run_all; fresh_facts); try discriminate.
    { repeat (case_match; run_all); discriminate. }
    intros [= <-]. unfold ssl_attach in *. simplify_map_eq. insert_none.
    match goal with
    | |- context [<[?x := OSsl (Some ?y)]> _] => exists x, y
    end.
    unfold blk_conn_ok.
    split; [split; [|split; [|split]]|].
    1-3: simplify_map_eq; eauto.
    { nodup. }
    do 3 (split; [first [reflexivity | eassumption]|]).
    intros i ? ? ?. rewrite !lookup_insert_ne by congruence. reflexivity.
  - revert E. unfold Blk.new_conn. run_all.
    repeat (split_if; run_all; fresh_facts); try discriminate; intros _;
      try reflexivity.
    all: unfold ssl_attach in *; simplify_map_eq; insert_none.
    all: unfold ssl_release, bio_release; simplify_map_eq.
    all: try map_eq_lookup.
Qed.

(** [tx] and [rx] of Demo 3 on a well-formed connection, for a request
    that reaches the filter: one call of the engine, its result handed
    on as it is. *)
Lemma blk_io (bio ssl b : addr) (fd : Z) (w : World) :
  blk_conn_ok bio ssl b fd w ->
  (forall buf buf_len,
      0 < buf_len ->
      Blk.tx bio buf buf_len w
      = (r_ret (env w (clock w)),
         mkWorld (env w) (S (clock w)) (heap w)
           (trace w ++ [CSSL_write ssl buf_len (r_ret (env w (clock w)))])
           (stderr w) (handshake ssl (env w (clock w)) (established w))))
  /\ (forall buf_len,
      0 <= buf_len ->
      Blk.rx bio buf_len w
      = (r_ret (env w (clock w)),
         mkWorld (env w) (S (clock w)) (heap w)
           (trace w ++ [CSSL_read ssl buf_len (r_ret (env w (clock w)))])
           (stderr w) (handshake ssl (env w (clock w)) (established w)))).
Proof.
  intros (Hbio & Hs & Hb & _).
  assert (E : forall r, engine_io ssl r (heap w) = heap w).
  { intros r. unfold engine_io. rewrite Hs, Hb. reflexivity. }
  split.
  - intros buf buf_len Hlen. unfold Blk.tx, BIO_write.
    destruct (Z.leb_spec buf_len 0) as [?|_]; [lia|].
    run. rewrite Hbio. run. rewrite E. reflexivity.
  - intros buf_len Hlen. unfold Blk.rx, BIO_read.
    destruct (Z.ltb_spec buf_len 0) as [?|_]; [lia|].
    run. rewrite Hbio. run. rewrite E. reflexivity.
Qed.

(** Teardown of a well-formed connection of Demo 3 removes its three
    objects and nothing else, and does not write. *)
Lemma blk_teardown_heap (bio ssl b : addr) (fd : Z) (w : World) :
  blk_conn_ok bio ssl b fd w ->
  heap (exec (Blk.teardown bio) w) = delete bio (delete ssl (delete b (heap w)))
  /\ engine_writes (trace (exec (Blk.teardown bio) w)) = engine_writes (trace w).
Proof.
  intros (Hbio & Hs & Hb & Hnd). nodup_inv Hnd.
  unfold Blk.teardown, BIO_free_all, BIO_free. run. rewrite Hbio. run.
  assert (E : engine_io ssl (env w (clock w)) (heap w) = heap w).
  { unfold engine_io. rewrite Hs, Hb. reflexivity. }
  destruct (decide (ssl ∈ established w)); run.
  all: rewrite ?E; unfold ssl_release; rewrite Hs.
  all: unfold bio_release; rewrite Hb.
  all: (split; [reflexivity|]).
  all: unfold engine_writes; rewrite !flat_map_app; cbn; rewrite !app_nil_r.
  all: reflexivity.
Qed.

(** The receive loop of Demo 3's driver. *)
Lemma blk_rx_loop_spec (fuel : nat) (bio ssl b : addr) (fd : Z)
  (p p' : Proc) (left : bool) :
  blk_conn_ok bio ssl b fd (world p) ->
  BlkDriver.rx_loop fuel bio p = (left, p') ->
  heap (world p') = heap (world p)
  /\ ctxs p' = ctxs p /\ results p' = results p /\ socks p' = socks p
  /\ engine_writes (trace (world p')) = engine_writes (trace (world p))
  /\ exists s, sys p' = sys p ++ s
               /\ Forall (fun c => exists n, c = Cfwrite n) s.
Proof.
  revert p.
  induction fuel as [|fuel IH]; intros p Hok.
  { cbn. intros [= <- <-]. repeat (split; [reflexivity|]).
    exists []. rewrite app_nil_r. auto. }
  cbn [BlkDriver.rx_loop]. unfold mbind, P_bind. rewrite lift_run.
  unfold eval, exec.
  rewrite (proj2 (blk_io bio ssl b fd (world p) Hok))
    by (unfold BlkDriver.sizeof_buf; lia).
  cbn [fst snd].
  set (l := r_ret _).
  destruct (l <=? 0).
  { cbn. intros [= <- <-]. cbn [world ctxs results socks sys heap trace].
    repeat (split; [reflexivity|]).
    split.
    { unfold engine_writes. rewrite flat_map_app. cbn. apply app_nil_r. }
    exists []. rewrite app_nil_r. auto. }
  unfold fwrite, sys_log. cbn beta iota.
  cbn beta iota zeta delta [fst snd world ctxs results socks sys].
  intros Hrun. apply IH in Hrun; [|exact Hok].
  cbn [world ctxs results socks sys heap trace] in Hrun.
  destruct Hrun as (H1 & H2 & H3 & H4 & H5 & s & H6 & H7).
  do 4 (split; [assumption|]).
  split.
  { rewrite H5. unfold engine_writes. rewrite flat_map_app. cbn.
    apply app_nil_r. }
  exists (Cfwrite l :: s). split.
  - rewrite H6, <- app_assoc. reflexivity.
  - constructor; eauto.
Qed.

(** [fail:] in Demo 3's driver, with a connection to tear down. *)
Lemma blk_at_fail_conn (bio ssl b ctx : addr) (fd sock : Z) (res : Z)
  (p p' : Proc) (r : option Z) :
  blk_conn_ok bio ssl b fd (world p) -> 0 <= sock ->
  BlkDriver.at_fail (Some bio) (Some ctx) sock true res p = (r, p') ->
  r = Some res
  /\ heap (world p') = delete bio (delete ssl (delete b (heap (world p))))
  /\ engine_writes (trace (world p')) = engine_writes (trace (world p))
  /\ ctxs p' = ctxs p ∖ {[ctx]} /\ results p' = pred (results p)
  /\ socks p' = socks p ∖ {[sock]}
  /\ sys p' = sys p ++ [CSSL_CTX_free ctx; Cclose sock; Cfreeaddrinfo].
Proof.
  intros Hok Hs.
  destruct (blk_teardown_heap bio ssl b fd (world p) Hok) as [Hh Ht].
  unfold BlkDriver.at_fail, teardown_ctx, SSL_CTX_free, close, freeaddrinfo.
  unfold mbind, P_bind. rewrite lift_run.
  remember (exec (Blk.teardown bio) (world p)) as w1 eqn:Hw1. clear Hw1.
  apply Z.leb_le in Hs. rewrite Hs.
  prun. intros [= <- <-]. cbn [world ctxs results socks sys].
  rewrite <- !app_assoc. auto 10.
Qed.

(** ** Demo 3: [tx] and [rx] *)

(** X23: [tx] and [rx] of Demo 3 hand the engine's result on as it is.
    On a connection made by [new_conn], a [tx] call for at least one
    byte is one [SSL_write] on the SSL of the connection, with the
    caller's length, and returns what [SSL_write] returned, be it
    positive, zero or negative; an [rx] call with a length that is not
    negative is one [SSL_read], likewise.  Neither touches the ledger.
    A [tx] call for no bytes, and an [rx] call with a negative length,
    return 0 and do not reach the engine: the world is left as it
    was. *)
Theorem blk_tx_rx_pass_through
  (ctx : addr) (fd : Z) (host : string) (w : World) (bio : addr) :
  eval (Blk.new_conn ctx fd host) w = Some bio ->
  let w1 := exec (Blk.new_conn ctx fd host) w in
  let l := r_ret (env w1 (clock w1)) in
  exists ssl,
    (forall buf buf_len,
        0 < buf_len ->
        eval (Blk.tx bio buf buf_len) w1 = l
        /\ heap (exec (Blk.tx bio buf buf_len) w1) = heap w1
        /\ trace (exec (Blk.tx bio buf buf_len) w1)
           = trace w1 ++ [CSSL_write ssl buf_len l])
    /\ (forall buf buf_len,
        buf_len <= 0 -> Blk.tx bio buf buf_len w1 = (0, w1))
    /\ (forall buf_len,
        0 <= buf_len ->
        eval (Blk.rx bio buf_len) w1 = l
        /\ heap (exec (Blk.rx bio buf_len) w1) = heap w1
        /\ trace (exec (Blk.rx bio buf_len) w1)
           = trace w1 ++ [CSSL_read ssl buf_len l])
    /\ (forall buf_len,
        buf_len < 0 -> Blk.rx bio buf_len w1 = (0, w1)).
Proof.
  intros H w1 l.
  destruct (blk_new_conn_heap ctx fd host w) as [_ Hn].
  rewrite H in Hn. destruct Hn as (ssl & b & Hok & _).
  fold w1 in Hok. destruct (blk_io bio ssl b fd w1 Hok) as [Htx Hrx].
  exists ssl. split; [|split; [|split]].
  - intros buf buf_len Hlen. unfold eval, exec. rewrite Htx by exact Hlen. auto.
  - intros buf buf_len Hlen. unfold Blk.tx, BIO_write.
    destruct (Z.leb_spec buf_len 0) as [_|?]; [reflexivity|lia].
  - intros buf_len Hlen. unfold eval, exec. rewrite Hrx by exact Hlen. auto.
  - intros buf_len Hlen. unfold Blk.rx, BIO_read.
    destruct (Z.ltb_spec buf_len 0) as [_|?]; [reflexivity|lia].
Qed.

Lemma blk_tx_rx_pass_through_witness :
  let w := fresh_world [ans 1; ans 1; ans 1; ans 1; ans 1; ans 1; ans (-1)] in
  let w1 := exec (Blk.new_conn 0%nat 3 "www.example.com") w in
  let l := r_ret (env w1 (clock w1)) in
  exists ssl,
    (forall buf buf_len,
        0 < buf_len ->
        eval (Blk.tx 2%nat buf buf_len) w1 = l
        /\ heap (exec (Blk.tx 2%nat buf buf_len) w1) = heap w1
        /\ trace (exec (Blk.tx 2%nat buf buf_len) w1)
           = trace w1 ++ [CSSL_write ssl buf_len l])
    /\ (forall buf buf_len,
        buf_len <= 0 -> Blk.tx 2%nat buf buf_len w1 = (0, w1))
    /\ (forall buf_len,
        0 <= buf_len ->
        eval (Blk.rx 2%nat buf_len) w1 = l
        /\ heap (exec (Blk.rx 2%nat buf_len) w1) = heap w1
        /\ trace (exec (Blk.rx 2%nat buf_len) w1)
           = trace w1 ++ [CSSL_read ssl buf_len l])
    /\ (forall buf_len,
        buf_len < 0 -> Blk.rx 2%nat buf_len w1 = (0, w1)).
Proof.
  intros w. apply (blk_tx_rx_pass_through 0%nat 3 "www.example.com" w 2%nat).
  vm_compute. reflexivity.
Defined.

(** Settles a branch whose tests on a descriptor or a result contradict
    each other. *)
Ltac absurd_order :=
  exfalso;
  repeat match goal with
         | H : (_ <? _) = true |- _ => apply Z.ltb_lt in H
         | H : (_ <? _) = false |- _ => apply Z.ltb_ge in H
         | H : (_ <=? _) = true |- _ => apply Z.leb_le in H
         | H : (_ <=? _) = false |- _ => apply Z.leb_gt in H
         end;
  lia.

(** Demo 3's driver, from start to exit. *)
Lemma blk_main_exact (e : nat -> reply) (fuel : nat) (res : Z) (p : Proc) :
  BlkDriver.main fuel (boot e) = (Some res, p) ->
  heap (world p) = ∅ /\ ctxs p = ∅ /\ results p = 0%nat /\ socks p = ∅
  /\ ((res = 1 /\ engine_writes (trace (world p)) = []
       /\ exists line, console p = [line] /\ line <> "tx error"%string)
      \/ exists l,
          engine_writes (trace (world p)) = [l]
          /\ if BlkDriver.to_size_t l <? BlkDriver.sizeof_msg - 1
             then res = 1 /\ console p = ["tx error"%string]
             else res = 0 /\ console p = []).
Proof.
  unfold BlkDriver.main, create_ssl_ctx, SSL_CTX_new, SSL_CTX_set_verify,
    SSL_CTX_set_default_verify_paths, getaddrinfo, socket, connect.
  unfold boot. prun.
  repeat (split_if; prun; try congruence).
  all: try (unfold BlkDriver.at_fail, teardown_ctx, SSL_CTX_free, close,
              freeaddrinfo;
            prun; repeat (split_if; prun; try absurd_order);
            intros [= <- <-]; cbn [world ctxs results socks sys heap trace];
            split; [reflexivity|];
            split; [first [reflexivity | apply add_remove, not_elem_of_empty]|];
            split; [reflexivity|];
            split; [first [reflexivity | apply add_remove, not_elem_of_empty]|];
            left; split; [reflexivity|]; split; [reflexivity|];
            eexists; split; [reflexivity|discriminate]).
  set (ctx := fresh ∅) in *. clearbody ctx.
  set (fd := r_ret (e 3%nat)) in *.
  assert (Hfd : 0 <= fd) by (apply Z.ltb_ge; assumption).
  set (s0 := _ ++ [Cconnect _ _]).
  assert (Hl0 : flat_map (fun c => match c with
                                   | Cfprintf line => [line]
                                   | _ => []
                                   end) s0 = []) by reflexivity.
  clearbody s0.
  set (w0 := mkWorld e 5 ∅ [] [] ∅).
  destruct (blk_new_conn_heap ctx fd "www.example.com" w0) as [Ha Hn].
  unfold eval, exec in Ha, Hn.
  destruct (Blk.new_conn ctx fd "www.example.com" w0) as [[bio|] w1];
    cbn [fst snd] in *.
  2: { unfold BlkDriver.at_fail, teardown_ctx, SSL_CTX_free, close, freeaddrinfo.
       apply Z.leb_le in Hfd. rewrite Hfd.
       prung. intros [= <- <-]. cbn [world ctxs results socks sys heap].
       rewrite Hn.
       split; [reflexivity|].
       split; [apply add_remove, not_elem_of_empty|].
       split; [reflexivity|].
       split; [apply add_remove, not_elem_of_empty|].
       left. split; [reflexivity|]. split; [exact Ha|].
       unfold console. cbn [sys]. rewrite !flat_map_app, Hl0.
       eexists. split; [reflexivity|discriminate]. }
  destruct Hn as (ssl & b & Hok & F1 & F2 & F3 & Hrest).
  assert (Fin : forall p0 r,
             BlkDriver.at_fail (Some bio) (Some ctx) fd true r p0 = (Some res, p) ->
             heap (world p0) = heap w1 ->
             ctxs p0 = {[ctx]} ∪ ∅ -> results p0 = 1%nat ->
             socks p0 = {[fd]} ∪ ∅ ->
             r = res
             /\ heap (world p) = ∅ /\ ctxs p = ∅ /\ results p = 0%nat
             /\ socks p = ∅
             /\ console p = console p0
             /\ engine_writes (trace (world p)) = engine_writes (trace (world p0))).
  { intros p0 r Hrun Hh Hx Hr Hso.
    assert (Hokc : blk_conn_ok bio ssl b fd (world p0)).
    { unfold blk_conn_ok in *. rewrite Hh. exact Hok. }
    destruct (blk_at_fail_conn bio ssl b ctx fd fd r p0 p (Some res) Hokc Hfd Hrun)
      as (R1 & R2 & R3 & R4 & R5 & R6 & R7).
    injection R1 as <-.
    split; [reflexivity|].
    split.
    { rewrite R2, Hh. apply map_eq. intros i.
      rewrite !lookup_delete, lookup_empty.
      repeat case_decide; try reflexivity.
      rewrite Hrest by congruence. reflexivity. }
    split; [rewrite R4, Hx; apply add_remove, not_elem_of_empty|].
    split; [rewrite R5, Hr; reflexivity|].
    split; [rewrite R6, Hso; apply add_remove, not_elem_of_empty|].
    split; [|exact R3].
    unfold console. rewrite R7, flat_map_app. cbn. apply app_nil_r. }
  rewrite (proj1 (blk_io bio ssl b fd w1 Hok)) by reflexivity.
  cbn beta iota zeta delta [fst snd world ctxs results socks sys].
  set (l := r_ret (env w1 (clock w1))).
  set (w2 := mkWorld _ _ _ _ _ _).
  assert (Hw2 : engine_writes (trace w2) = [l]).
  { subst w2. cbn [trace]. unfold engine_writes in *.
    rewrite flat_map_app, Ha. reflexivity. }
  assert (Hh2 : heap w2 = heap w1) by reflexivity.
  assert (Hok2 : blk_conn_ok bio ssl b fd w2) by exact Hok.
  clearbody w2.
  destruct (BlkDriver.to_size_t l <? BlkDriver.sizeof_msg - 1) eqn:Hcmp.
  - intros Hrun.
    apply Fin in Hrun as (<- & R2 & R3 & R4 & R5 & R6 & R7);
      cbn [world ctxs results socks sys] in *; [|congruence..].
    do 4 (split; [assumption|]).
    right. exists l. split; [congruence|]. rewrite Hcmp.
    split; [reflexivity|]. rewrite R6. unfold console. cbn [sys].
    rewrite flat_map_app, Hl0. reflexivity.
  - destruct (BlkDriver.rx_loop fuel bio _) as [left p3] eqn:Hloop.
    apply (blk_rx_loop_spec fuel bio ssl b fd) in Hloop; [|exact Hok2].
    cbn [world ctxs results socks sys] in Hloop.
    destruct Hloop as (U1 & U2 & U3 & U4 & U5 & s & U6 & U7).
    destruct left; [|discriminate].
    intros Hrun.
    apply Fin in Hrun as (<- & R2 & R3 & R4 & R5 & R6 & R7); [|congruence..].
    do 4 (split; [assumption|]).
    right. exists l. split; [congruence|]. rewrite Hcmp.
    split; [reflexivity|]. rewrite R6. unfold console.
    rewrite U6, flat_map_app, Hl0. cbn [app].
    clear -U7. induction U7 as [|c s [n ->] _ IH]; [reflexivity|exact IH].
Qed.

(** ** Demo 3: the driver *)

(** X24: Demo 3's driver releases what it acquired, on every path to its
    exit.  Whenever [main] returns, no object of the connection is left
    in the ledger, the context and the address list of [getaddrinfo] are
    freed, and the socket is closed. *)
Theorem blk_main_releases (e : nat -> reply) (fuel : nat) (res : Z) :
  evalp (BlkDriver.main fuel) (boot e) = Some res ->
  let p := execp (BlkDriver.main fuel) (boot e) in
  heap (world p) = ∅ /\ ctxs p = ∅ /\ results p = 0%nat /\ socks p = ∅.
Proof.
  unfold evalp, execp.
  destruct (BlkDriver.main fuel (boot e)) as [r p] eqn:Run.
  cbn [fst snd]. intros ->.
  destruct (blk_main_exact e fuel res p Run) as (H1 & H2 & H3 & H4 & _).
  auto.
Qed.

Lemma blk_main_releases_witness :
  let e := script [ans 1; ans 1; ans 0; ans 3; ans 0;
                   ans 1; ans 1; ans 1; ans 1; ans 1; ans 1;
                   ans 41; ans 5; ans 7; ans 0] in
  let p := execp (BlkDriver.main 5) (boot e) in
  heap (world p) = ∅ /\ ctxs p = ∅ /\ results p = 0%nat /\ socks p = ∅.
Proof.
  intros e. apply (blk_main_releases e 5 0). vm_compute. reflexivity.
Defined.

(** X25: Demo 3's driver does not see a failed [tx].  The test
    [tx(...) < sizeof(msg)-1] compares an [int] with a [size_t], so a
    negative result counts as a very large one: whenever [main] returns
    after a [tx] whose result is negative, it has printed nothing and
    returns 0, as it does after a complete write; only a result from 0 to
    [sizeof(msg)-2] prints "tx error" and returns 1. *)
Theorem blk_main_negative_tx_unreported
  (e : nat -> reply) (fuel : nat) (res l : Z) :
  evalp (BlkDriver.main fuel) (boot e) = Some res ->
  let p := execp (BlkDriver.main fuel) (boot e) in
  In l (engine_writes (trace (world p))) ->
  (- 2 ^ 31 <= l < 0 -> res = 0 /\ console p = [])
  /\ (0 <= l < BlkDriver.sizeof_msg - 1 ->
      res = 1 /\ console p = ["tx error"%string])
  /\ (BlkDriver.sizeof_msg - 1 <= l < 2 ^ 31 -> res = 0 /\ console p = []).
Proof.
  unfold evalp, execp.
  destruct (BlkDriver.main fuel (boot e)) as [r p] eqn:Run.
  cbn [fst snd]. intros ->.
  destruct (blk_main_exact e fuel res p Run)
    as (_ & _ & _ & _ & [(_ & -> & _)|(l' & -> & Hcmp)]); intros Hin.
  { destruct Hin. }
  destruct Hin as [->|[]].
  assert (Hsz : BlkDriver.sizeof_msg - 1 = 41) by reflexivity.
  rewrite Hsz in *. unfold BlkDriver.to_size_t in Hcmp.
  split; [|split]; intros Hl.
  - replace (l mod 2 ^ 64) with (l + 2 ^ 64) in Hcmp
      by (apply Z.mod_unique with (-1); lia).
    destruct (Z.ltb_spec (l + 2 ^ 64) 41); [lia|exact Hcmp].
  - rewrite Z.mod_small in Hcmp by lia.
    destruct (Z.ltb_spec l 41); [exact Hcmp|lia].
  - rewrite Z.mod_small in Hcmp by lia.
    destruct (Z.ltb_spec l 41); [lia|exact Hcmp].
Qed.

Lemma blk_main_negative_tx_unreported_witness :
  let e := script [ans 1; ans 1; ans 0; ans 3; ans 0;
                   ans 1; ans 1; ans 1; ans 1; ans 1; ans 1;
                   ans (-1); ans 0] in
  let p := execp (BlkDriver.main 5) (boot e) in
  (- 2 ^ 31 <= -1 < 0 -> 0 = 0 /\ console p = [])
  /\ (0 <= -1 < BlkDriver.sizeof_msg - 1 ->
      0 = 1 /\ console p = ["tx error"%string])
  /\ (BlkDriver.sizeof_msg - 1 <= -1 < 2 ^ 31 -> 0 = 0 /\ console p = []).
Proof.
  intros e. apply (blk_main_negative_tx_unreported e 5 0 (-1)).
  - vm_compute. reflexivity.
  - vm_compute. left. reflexivity.
Defined.

(** ** Demo 5: what the driver relies on *)

(** One [tx] or [rx] call of Demo 5: the result is a positive count, -1
    or -2, the handles of the connection are untouched. *)
Lemma mem_tx_effect (conn : Mem.APP_CONN) (buf : list Byte.byte) (buf_len : Z)
  (w : World) :
  let r := fst (eval (Mem.tx conn buf buf_len) w) in
  let c := snd (eval (Mem.tx conn buf buf_len) w) in
  (Mem.self c, Mem.ssl c, Mem.ssl_bio c, Mem.net_bio c)
  = (Mem.self conn, Mem.ssl conn, Mem.ssl_bio conn, Mem.net_bio conn)
  /\ (0 < r \/ r = -1 \/ r = -2).
Proof.
  intros r c. subst r c. unfold Mem.tx. run.
  destruct (BIO_write (Mem.ssl_bio conn) buf buf_len w) as [l w1]. run.
  destruct (Z.leb_spec l 0) as [Hl|Hl]; run; [|auto].
  split_codes; auto.
Qed.

Lemma mem_rx_effect (conn : Mem.APP_CONN) (buf_len : Z) (w : World) :
  let r := fst (eval (Mem.rx conn buf_len) w) in
  let c := snd (eval (Mem.rx conn buf_len) w) in
  (Mem.self c, Mem.ssl c, Mem.ssl_bio c, Mem.net_bio c)
  = (Mem.self conn, Mem.ssl conn, Mem.ssl_bio conn, Mem.net_bio conn)
  /\ (0 < r \/ r = -1 \/ r = -2).
Proof.
  intros r c. subst r c. unfold Mem.rx. run.
  destruct (BIO_read (Mem.ssl_bio conn) buf_len w) as [[l d] w1]. run.
  destruct (Z.leb_spec l 0) as [Hl|Hl]; run; [|auto].
  split_codes; auto.
Qed.

(** The send loop of Demo 5's driver. *)
Lemma mem_tx_loop_spec (fuel : nat) (conn : Mem.APP_CONN) (fd tx_p tx_len : Z)
  (p p' : Proc) (r : left_by Mem.APP_CONN) :
  MemDriver.tx_loop fuel conn fd tx_p tx_len p = (r, p') ->
  same_shape (heap (world p)) (heap (world p'))
  /\ ctxs p' = ctxs p /\ results p' = results p /\ socks p' = socks p
  /\ (exists s, sys p' = sys p ++ s
                /\ Forall (fun c => exists line, c = Cfprintf line) s)
  /\ match r with
     | Over c _ | Failed c =>
         (Mem.self c, Mem.ssl c, Mem.ssl_bio c, Mem.net_bio c)
         = (Mem.self conn, Mem.ssl conn, Mem.ssl_bio conn, Mem.net_bio conn)
     | NoFuel => True
     end.
Proof.
  revert conn tx_p tx_len p.
  induction fuel as [|fuel IH]; intros conn tx_p tx_len p.
  { cbn. intros [= <- <-]. split; [apply same_shape_refl|].
    do 3 (split; [reflexivity|]). split; [|exact I].
    exists []. rewrite app_nil_r. auto. }
  cbn [MemDriver.tx_loop].
  destruct (Z.eqb_spec tx_len 0) as [E|E].
  { cbn. intros [= <- <-]. split; [apply same_shape_refl|].
    do 3 (split; [reflexivity|]). split; [|reflexivity].
    exists []. rewrite app_nil_r. auto. }
  pose proof (proj1 (mem_io_shape conn (drop (Z.to_nat tx_p) MemDriver.tx_msg)
                       tx_len (world p))) as S1.
  destruct (mem_tx_effect conn (drop (Z.to_nat tx_p) MemDriver.tx_msg) tx_len
              (world p)) as (Hc1 & Hr).
  unfold mbind, P_bind. rewrite lift_run.
  remember (exec (Mem.tx conn (drop (Z.to_nat tx_p) MemDriver.tx_msg) tx_len)
              (world p)) as w1 eqn:Hw1. clear Hw1.
  destruct (eval (Mem.tx conn _ tx_len) (world p)) as [l c].
  cbn [fst snd] in Hc1, Hr |- *.
  assert (Step : forall q s1,
             same_shape (heap (world p)) (heap (world q)) ->
             ctxs q = ctxs p -> results q = results p -> socks q = socks p ->
             sys q = sys p ++ s1 ->
             Forall (fun c => exists line, c = Cfprintf line) s1 ->
             forall tx_p' tx_len',
             MemDriver.tx_loop fuel c fd tx_p' tx_len' q = (r, p') ->
             same_shape (heap (world p)) (heap (world p'))
             /\ ctxs p' = ctxs p /\ results p' = results p /\ socks p' = socks p
             /\ (exists s, sys p' = sys p ++ s
                   /\ Forall (fun c => exists line, c = Cfprintf line) s)
             /\ match r with
                | Over c _ | Failed c =>
                    (Mem.self c, Mem.ssl c, Mem.ssl_bio c, Mem.net_bio c)
                    = (Mem.self conn, Mem.ssl conn, Mem.ssl_bio conn,
                       Mem.net_bio conn)
                | NoFuel => True
                end).
  { intros q s1 Q1 Q2 Q3 Q4 Q5 Q6 tx_p' tx_len' Hrun.
    apply IH in Hrun as (H1 & H2 & H3 & H4 & (s & H5 & H6) & H7).
    split; [eapply same_shape_trans; eassumption|].
    do 3 (split; [congruence|]).
    split.
    - exists (s1 ++ s). split; [rewrite H5, Q5, app_assoc; reflexivity|].
      apply Forall_app; auto.
    - destruct r; auto; congruence. }
  destruct (Z.ltb_spec 0 l) as [Hl|Hl].
  { apply (Step _ []); cbn [world ctxs results socks sys]; auto.
    rewrite app_nil_r. reflexivity. }
  destruct Hr as [Hr|[->| ->]]; [lia| |].
  - cbn [Z.eqb Pos.eqb]. unfold eprint, sys_log.
    cbn beta iota zeta delta [fst snd world ctxs results socks sys].
    apply (Step _ [Cfprintf "tx error"]); cbn [world ctxs results socks sys];
      auto.
    constructor; eauto.
  - cbn [Z.eqb Pos.eqb].
    pose proof (pump_shape c fd (Mem.get_conn_pending_tx c) MemDriver.timeout w1)
      as S2.
    rewrite lift_run.
    cbn beta iota zeta delta [fst snd world ctxs results socks sys].
    remember (exec (Mem.pump c fd (Mem.get_conn_pending_tx c) MemDriver.timeout)
                w1) as w2 eqn:Hw2. clear Hw2.
    destruct (eval (Mem.pump c fd _ MemDriver.timeout) w1) as [rc|].
    2: { unfold mret, P_ret. intros [= <- <-].
         cbn [world ctxs results socks sys].
         split; [eapply same_shape_trans; eassumption|].
         do 3 (split; [reflexivity|]). split; [|exact I].
         exists []. rewrite app_nil_r. auto. }
    destruct (rc =? 1).
    + apply (Step _ []); cbn [world ctxs results socks sys]; auto.
      * eapply same_shape_trans; eassumption.
      * rewrite app_nil_r. reflexivity.
    + unfold eprint, sys_log, mret, P_ret.
      cbn beta iota zeta delta [fst snd world ctxs results socks sys].
      intros [= <- <-]. cbn [world ctxs results socks sys].
      split; [eapply same_shape_trans; eassumption|].
      do 3 (split; [reflexivity|]). split; [|exact Hc1].
      exists [Cfprintf "pump error"]. split; [reflexivity|].
      constructor; eauto.
Qed.

(** The receive loop of Demo 5's driver. *)
Lemma mem_rx_loop_spec (fuel : nat) (conn : Mem.APP_CONN) (fd rx_p rx_len : Z)
  (p p' : Proc) (r : left_by Mem.APP_CONN) :
  MemDriver.rx_loop fuel conn fd rx_p rx_len p = (r, p') ->
  same_shape (heap (world p)) (heap (world p'))
  /\ ctxs p' = ctxs p /\ results p' = results p /\ socks p' = socks p
  /\ (exists s, sys p' = sys p ++ s
                /\ Forall (fun c => exists line, c = Cfprintf line) s)
  /\ match r with
     | Over c _ | Failed c =>
         (Mem.self c, Mem.ssl c, Mem.ssl_bio c, Mem.net_bio c)
         = (Mem.self conn, Mem.ssl conn, Mem.ssl_bio conn, Mem.net_bio conn)
     | NoFuel => True
     end.
Proof.
  revert conn rx_p rx_len p.
  induction fuel as [|fuel IH]; intros conn rx_p rx_len p.
  { cbn. intros [= <- <-]. split; [apply same_shape_refl|].
    do 3 (split; [reflexivity|]). split; [|exact I].
    exists []. rewrite app_nil_r. auto. }
  cbn [MemDriver.rx_loop].
  destruct (Z.eqb_spec rx_len 0) as [E|E].
  { cbn. intros [= <- <-]. split; [apply same_shape_refl|].
    do 3 (split; [reflexivity|]). split; [|reflexivity].
    exists []. rewrite app_nil_r. auto. }
  pose proof (proj2 (mem_io_shape conn [] rx_len (world p))) as S1.
  destruct (mem_rx_effect conn rx_len (world p)) as (Hc1 & Hr).
  unfold mbind, P_bind. rewrite lift_run.
  remember (exec (Mem.rx conn rx_len) (world p)) as w1 eqn:Hw1. clear Hw1.
  destruct (eval (Mem.rx conn rx_len) (world p)) as [l c].
  cbn [fst snd] in Hc1, Hr |- *.
  assert (Step : forall q s1,
             same_shape (heap (world p)) (heap (world q)) ->
             ctxs q = ctxs p -> results q = results p -> socks q = socks p ->
             sys q = sys p ++ s1 ->
             Forall (fun c => exists line, c = Cfprintf line) s1 ->
             forall rx_p' rx_len',
             MemDriver.rx_loop fuel c fd rx_p' rx_len' q = (r, p') ->
             same_shape (heap (world p)) (heap (world p'))
             /\ ctxs p' = ctxs p /\ results p' = results p /\ socks p' = socks p
             /\ (exists s, sys p' = sys p ++ s
                   /\ Forall (fun c => exists line, c = Cfprintf line) s)
             /\ match r with
                | Over c _ | Failed c =>
                    (Mem.self c, Mem.ssl c, Mem.ssl_bio c, Mem.net_bio c)
                    = (Mem.self conn, Mem.ssl conn, Mem.ssl_bio conn,
                       Mem.net_bio conn)
                | NoFuel => True
                end).
  { intros q s1 Q1 Q2 Q3 Q4 Q5 Q6 rx_p' rx_len' Hrun.
    apply IH in Hrun as (H1 & H2 & H3 & H4 & (s & H5 & H6) & H7).
    split; [eapply same_shape_trans; eassumption|].
    do 3 (split; [congruence|]).
    split.
    - exists (s1 ++ s). split; [rewrite H5, Q5, app_assoc; reflexivity|].
      apply Forall_app; auto.
    - destruct r; auto; congruence. }
  destruct (Z.ltb_spec 0 l) as [Hl|Hl].
  { apply (Step _ []); cbn [world ctxs results socks sys]; auto.
    rewrite app_nil_r. reflexivity. }
  destruct Hr as [Hr|[->| ->]]; [lia| |].
  - cbn [Z.eqb Pos.eqb]. intros [= <- <-]. cbn [world ctxs results socks sys].
    split; [exact S1|]. do 3 (split; [reflexivity|]). split; [|exact Hc1].
    exists []. rewrite app_nil_r. auto.
  - cbn [Z.eqb Pos.eqb].
    pose proof (pump_shape c fd (Mem.get_conn_pending_rx c) MemDriver.timeout w1)
      as S2.
    rewrite lift_run.
    cbn beta iota zeta delta [fst snd world ctxs results socks sys].
    remember (exec (Mem.pump c fd (Mem.get_conn_pending_rx c) MemDriver.timeout)
                w1) as w2 eqn:Hw2. clear Hw2.
    destruct (eval (Mem.pump c fd _ MemDriver.timeout) w1) as [rc|].
    2: { unfold mret, P_ret. intros [= <- <-].
         cbn [world ctxs results socks sys].
         split; [eapply same_shape_trans; eassumption|].
         do 3 (split; [reflexivity|]). split; [|exact I].
         exists []. rewrite app_nil_r. auto. }
    destruct (rc =? 1).
    + apply (Step _ []); cbn [world ctxs results socks sys]; auto.
      * eapply same_shape_trans; eassumption.
      * rewrite app_nil_r. reflexivity.
    + unfold eprint, sys_log, mret, P_ret.
      cbn beta iota zeta delta [fst snd world ctxs results socks sys].
      intros [= <- <-]. cbn [world ctxs results socks sys].
      split; [eapply same_shape_trans; eassumption|].
      do 3 (split; [reflexivity|]). split; [|exact Hc1].
      exists [Cfprintf "pump error"]. split; [reflexivity|].
      constructor; eauto.
Qed.

(** [fail:] in Demo 5's driver, with a connection to tear down. *)
Lemma mem_at_fail_conn (conn : Mem.APP_CONN) (ib ctx : addr) (res : Z)
  (p p' : Proc) (r : option Z) :
  mem_conn_ok conn ib (world p) ->
  MemDriver.at_fail (Some conn) (Some ctx) true res p = (r, p') ->
  r = Some res
  /\ heap (world p')
     = delete (Mem.self conn)
         (delete (Mem.net_bio conn)
            (delete (Mem.ssl_bio conn)
               (delete (Mem.ssl conn) (delete ib (heap (world p))))))
  /\ ctxs p' = ctxs p ∖ {[ctx]} /\ results p' = pred (results p)
  /\ socks p' = socks p
  /\ sys p' = sys p ++ [CSSL_CTX_free ctx; Cfreeaddrinfo].
Proof.
  intros Hok.
  pose proof (mem_teardown_heap conn ib (world p) Hok) as Hh.
  unfold MemDriver.at_fail, teardown_ctx, SSL_CTX_free, freeaddrinfo.
  unfold mbind, P_bind. rewrite lift_run.
  remember (exec (Mem.teardown conn) (world p)) as w1 eqn:Hw1. clear Hw1.
  prung. intros [= <- <-]. cbn [world ctxs results socks sys].
  rewrite <- app_assoc. auto 10.
Qed.

(** Demo 5's driver, from start to exit. *)
Lemma mem_main_exact (e : nat -> reply) (fuel : nat) (res : Z) (p : Proc) :
  MemDriver.main fuel (boot e) = (Some res, p) ->
  ctxs p = ∅ /\ results p = 0%nat
  /\ (forall fd, In (Csocket fd) (sys p) -> 0 <= fd -> fd ∈ socks p)
  /\ (forall fd, ~ In (Cclose fd) (sys p))
  /\ (heap (world p) = ∅
      \/ In "cannot establish connection"%string (console p)).
Proof.
  unfold MemDriver.main, create_ssl_ctx, SSL_CTX_new, SSL_CTX_set_verify,
    SSL_CTX_set_default_verify_paths, getaddrinfo, socket, connect, fcntl.
  unfold boot. prun.
  repeat (split_if; prun; try congruence).
  all: try (unfold MemDriver.at_fail, teardown_ctx, SSL_CTX_free, freeaddrinfo;
            prun; intros [= <- <-]; cbn [world ctxs results socks sys heap];
            split; [first [reflexivity | apply add_remove, not_elem_of_empty]|];
            split; [reflexivity|];
            early_socks;
            left; reflexivity).
  set (ctx := fresh ∅) in *. clearbody ctx.
  set (fd := r_ret (e 3%nat)) in *.
  assert (Hfd : 0 <= fd) by (apply Z.ltb_ge; assumption).
  set (s0 := _ ++ [Cfcntl _ _]).
  assert (Hs0 : forall x, In (Csocket x) s0 -> x = fd).
  { intros x Hin. subst s0. log_cases Hin; [|contradiction].
    injection Hin as <-. reflexivity. }
  assert (Hc0 : forall x, ~ In (Cclose x) s0).
  { intros x Hin. subst s0. log_cases Hin. contradiction. }
  clearbody s0.
  set (w0 := mkWorld e 6 ∅ [] [] ∅).
  pose proof (mem_new_conn_built ctx "www.example.com" w0) as Hn.
  unfold eval, exec in Hn.
  destruct (Mem.new_conn ctx "www.example.com" w0) as [[conn|] w1];
    cbn [fst snd] in *.
  2: { unfold MemDriver.at_fail, teardown_ctx, SSL_CTX_free, freeaddrinfo.
       prung. intros [= <- <-]. cbn [world ctxs results socks sys heap].
       split; [apply add_remove, not_elem_of_empty|].
       split; [reflexivity|].
       split.
       { intros x Hin _. rewrite <- !app_assoc in Hin.
         apply in_app_or in Hin as [Hin|Hin]; [|log_cases Hin; contradiction].
         apply Hs0 in Hin as ->. apply elem_of_union_l, elem_of_singleton.
         reflexivity. }
       split.
       { intros x Hin. rewrite <- !app_assoc in Hin.
         apply in_app_or in Hin as [Hin|Hin]; [exact (Hc0 x Hin)|].
         log_cases Hin. contradiction. }
       right. unfold console. cbn [sys].
       rewrite !flat_map_app, !in_app_iff. cbn. auto 10. }
  destruct (Hn conn eq_refl)
    as (ib & Hok & _ & _ & F1 & F2 & F3 & F4 & F5 & Hrest). clear Hn.
  assert (Fin : forall c p0 r,
             MemDriver.at_fail (Some c) (Some ctx) true r p0 = (Some res, p) ->
             (Mem.self c, Mem.ssl c, Mem.ssl_bio c, Mem.net_bio c)
             = (Mem.self conn, Mem.ssl conn, Mem.ssl_bio conn, Mem.net_bio conn) ->
             same_shape (heap w1) (heap (world p0)) ->
             ctxs p0 = {[ctx]} ∪ ∅ -> results p0 = 1%nat ->
             socks p0 = {[fd]} ∪ ∅ ->
             (forall x, In (Csocket x) (sys p0) -> x = fd) ->
             (forall x, ~ In (Cclose x) (sys p0)) ->
             ctxs p = ∅ /\ results p = 0%nat
             /\ (forall x, In (Csocket x) (sys p) -> 0 <= x -> x ∈ socks p)
             /\ (forall x, ~ In (Cclose x) (sys p))
             /\ (heap (world p) = ∅
                 \/ In "cannot establish connection"%string (console p))).
  { intros c p0 r Hrun Hc Hh Hx Hr Hso Hs Hcl.
    assert (Hokc : mem_conn_ok c ib (world p0)).
    { pose proof (mem_conn_ok_shape conn ib w1 (world p0) Hok Hh) as K.
      unfold mem_conn_ok in *. injection Hc as -> -> -> ->. exact K. }
    destruct (mem_at_fail_conn c ib ctx r p0 p (Some res) Hokc Hrun)
      as (R1 & R2 & R4 & R5 & R6 & R7).
    injection Hc as E1 E2 E3 E4.
    split; [rewrite R4, Hx; apply add_remove, not_elem_of_empty|].
    split; [rewrite R5, Hr; reflexivity|].
    split.
    { intros x Hin _. rewrite R7 in Hin. rewrite R6, Hso.
      apply in_app_or in Hin as [Hin|Hin]; [|log_cases Hin; contradiction].
      apply Hs in Hin as ->. apply elem_of_union_l, elem_of_singleton.
      reflexivity. }
    split.
    { intros x Hin. rewrite R7 in Hin.
      apply in_app_or in Hin as [Hin|Hin]; [exact (Hcl x Hin)|].
      log_cases Hin. contradiction. }
    left. rewrite R2, E1, E2, E3, E4. apply map_eq. intros i.
    rewrite !lookup_delete, lookup_empty.
    repeat case_decide; try reflexivity.
    specialize (Hh i). rewrite Hrest in Hh by congruence.
    destruct (heap (world p0) !! i); [discriminate Hh|reflexivity]. }
  destruct (MemDriver.tx_loop fuel conn fd 0 (MemDriver.sizeof_tx_msg - 1) _)
    as [r2 p2] eqn:T.
  apply mem_tx_loop_spec in T as (T1 & T2 & T3 & T4 & (s2 & T5 & T6) & T7).
  cbn [world ctxs results socks sys] in T1, T2, T3, T4, T5.
  assert (Hs2 : forall x, In (Csocket x) (sys p2) -> x = fd).
  { intros x Hin. rewrite T5 in Hin.
    apply in_app_or in Hin as [Hin|Hin]; [exact (Hs0 x Hin)|].
    rewrite Forall_forall in T6. apply list_elem_of_In, T6 in Hin as [? [=]]. }
  assert (Hc2 : forall x, ~ In (Cclose x) (sys p2)).
  { intros x Hin. rewrite T5 in Hin.
    apply in_app_or in Hin as [Hin|Hin]; [exact (Hc0 x Hin)|].
    rewrite Forall_forall in T6. apply list_elem_of_In, T6 in Hin as [? [=]]. }
  destruct r2 as [c2 q2|c2|]; [| |discriminate].
  2: { intros Hrun. apply Fin in Hrun; auto. }
  destruct (MemDriver.rx_loop fuel c2 fd 0 MemDriver.sizeof_rx_msg p2)
    as [r3 p3] eqn:R.
  apply mem_rx_loop_spec in R as (U1 & U2 & U3 & U4 & (s3 & U5 & U6) & U7).
  assert (Hs3 : forall x, In (Csocket x) (sys p3) -> x = fd).
  { intros x Hin. rewrite U5 in Hin.
    apply in_app_or in Hin as [Hin|Hin]; [exact (Hs2 x Hin)|].
    rewrite Forall_forall in U6. apply list_elem_of_In, U6 in Hin as [? [=]]. }
  assert (Hc3 : forall x, ~ In (Cclose x) (sys p3)).
  { intros x Hin. rewrite U5 in Hin.
    apply in_app_or in Hin as [Hin|Hin]; [exact (Hc2 x Hin)|].
    rewrite Forall_forall in U6. apply list_elem_of_In, U6 in Hin as [? [=]]. }
  assert (S3 : same_shape (heap w1) (heap (world p3)))
    by (eapply same_shape_trans; eassumption).
  destruct r3 as [c3 q3|c3|]; [| |discriminate].
  - unfold fwrite, sys_log.
    cbn beta iota zeta delta [fst snd world ctxs results socks sys].
    intros Hrun. apply Fin in Hrun; cbn [world ctxs results socks sys];
      auto; try congruence.
    + intros x Hin. apply in_app_or in Hin as [Hin|Hin]; [exact (Hs3 x Hin)|].
      log_cases Hin. contradiction.
    + intros x Hin. apply in_app_or in Hin as [Hin|Hin]; [exact (Hc3 x Hin)|].
      log_cases Hin. contradiction.
  - intros Hrun. apply Fin in Hrun; auto; congruence.
Qed.

(** ** Demo 5: the driver *)

(** X26: Demo 5's driver releases what it acquired, on every path to its
    exit but one.  Whenever [main] returns, the context and the address
    list of [getaddrinfo] are freed and the socket, if one was opened, is
    still open; and unless [new_conn] failed, no object of the connection
    is left in the ledger, whatever [tx], [rx] and the pump did in
    between. *)
Theorem mem_main_releases (e : nat -> reply) (fuel : nat) (res : Z) :
  evalp (MemDriver.main fuel) (boot e) = Some res ->
  let p := execp (MemDriver.main fuel) (boot e) in
  ctxs p = ∅ /\ results p = 0%nat
  /\ (forall fd, In (Csocket fd) (sys p) -> 0 <= fd -> fd ∈ socks p)
  /\ (forall fd, ~ In (Cclose fd) (sys p))
  /\ (~ In "cannot establish connection"%string (console p) ->
      heap (world p) = ∅).
Proof.
  unfold evalp, execp.
  destruct (MemDriver.main fuel (boot e)) as [r p] eqn:Run.
  cbn [fst snd]. intros ->.
  destruct (mem_main_exact e fuel res p Run) as (H1 & H2 & H3 & H4 & H5).
  do 4 (split; [assumption|]).
  intros Hn. destruct H5 as [H5|H5]; [exact H5|contradiction].
Qed.

Lemma mem_main_releases_witness :
  let e := script [ans 1; ans 1; ans 0; ans 3; ans 0; ans 0;
                   ans 1; ans 1; ans 1; ans 1; ans 1; ans 1; ans 1;
                   Reply 41 0 [Byte.x17; Byte.x03] 0;
                   ans (-1); ans SSL_ERROR_WANT_READ;
                   Reply 1 POLLOUT [] 0; ans 2;
                   ans 5; ans (-1); ans SSL_ERROR_SSL] in
  let p := execp (MemDriver.main 5) (boot e) in
  ctxs p = ∅ /\ results p = 0%nat
  /\ (forall fd, In (Csocket fd) (sys p) -> 0 <= fd -> fd ∈ socks p)
  /\ (forall fd, ~ In (Cclose fd) (sys p))
  /\ (~ In "cannot establish connection"%string (console p) ->
      heap (world p) = ∅).
Proof.
  intros e. apply (mem_main_releases e 5 0). vm_compute. reflexivity.
Defined.

(** A [tx] call of Demo 5 for at least one byte that fails for good: two
    replies are used, the connection is returned as it was. *)
Lemma mem_tx_fatal (conn : Mem.APP_CONN) (ib : addr) (buf : list Byte.byte)
  (buf_len : Z) (w : World) :
  mem_conn_ok conn ib w ->
  0 < buf_len ->
  r_ret (env w (clock w)) <= 0 ->
  ~ would_block (r_ret (env w (S (clock w)))) ->
  exists w',
    Mem.tx conn buf buf_len w = ((-1, conn), w')
    /\ mem_conn_ok conn ib w'
    /\ env w' = env w /\ clock w' = S (S (clock w)).
Proof.
  intros Hok Hlen Hl Hrc.
  pose proof (proj1 (mem_io_shape conn buf buf_len w)) as S.
  revert S. unfold Mem.tx, BIO_write.
  destruct (Z.leb_spec buf_len 0) as [?|_]; [lia|]. run.
  destruct Hok as (Hself & Hsb & Hrest). rewrite Hsb. run.
  destruct (Z.leb_spec (r_ret (env w (clock w))) 0) as [_|Hgt]; [|lia]. run.
  revert Hrc. codes. intros Hrc.
  destruct (Z.eqb_spec (r_ret (env w (S (clock w)))) 2) as [E|_]; [lia|].
  destruct (Z.eqb_spec (r_ret (env w (S (clock w)))) 7) as [E|_]; [lia|].
  destruct (Z.eqb_spec (r_ret (env w (S (clock w)))) 3) as [E|_]; [lia|].
  cbn [orb]. run. intros S.
  eexists. split; [reflexivity|]. split; [|split; reflexivity].
  eapply mem_conn_ok_shape; [|exact S]. unfold mem_conn_ok. auto.
Qed.

(** A [tx] call of Demo 5 for no bytes does not reach the engine:
    [BIO_write] answers 0, and the cause is asked for at once.  When it is
    no would-block cause the call fails for good on one reply. *)
Lemma mem_tx_fatal_empty (conn : Mem.APP_CONN) (buf : list Byte.byte)
  (buf_len : Z) (w : World) :
  buf_len <= 0 ->
  ~ would_block (r_ret (env w (clock w))) ->
  exists w',
    Mem.tx conn buf buf_len w = ((-1, conn), w')
    /\ heap w' = heap w
    /\ env w' = env w /\ clock w' = S (clock w).
Proof.
  intros Hlen Hrc. unfold Mem.tx, BIO_write.
  destruct (Z.leb_spec buf_len 0) as [_|?]; [|lia]. run.
  change (0 <=? 0) with true. run.
  revert Hrc. codes. intros Hrc.
  destruct (Z.eqb_spec (r_ret (env w (clock w))) 2) as [E|_]; [lia|].
  destruct (Z.eqb_spec (r_ret (env w (clock w))) 7) as [E|_]; [lia|].
  destruct (Z.eqb_spec (r_ret (env w (clock w))) 3) as [E|_]; [lia|].
  cbn [orb]. run.
  eexists. split; [reflexivity|]. auto.
Qed.

(** The send loop of Demo 5's driver, asked for at least one byte, under
    an engine that keeps failing for good. *)
Lemma mem_tx_loop_spins (fuel : nat) (conn : Mem.APP_CONN) (ib : addr)
  (fd tx_p tx_len : Z) (p : Proc) :
  mem_conn_ok conn ib (world p) ->
  0 < tx_len ->
  (forall k : nat,
      r_ret (env (world p) (clock (world p) + 2 * k)%nat) <= 0
      /\ ~ would_block (r_ret (env (world p) (S (clock (world p) + 2 * k))))) ->
  evalp (MemDriver.tx_loop fuel conn fd tx_p tx_len) p = NoFuel
  /\ sys (execp (MemDriver.tx_loop fuel conn fd tx_p tx_len) p)
     = sys p ++ repeat (Cfprintf "tx error") fuel.
Proof.
  revert p. induction fuel as [|fuel IH]; intros p Hok Hlen Henv.
  { cbn. rewrite app_nil_r. auto. }
  cbn [MemDriver.tx_loop repeat].
  destruct (Z.eqb_spec tx_len 0) as [?|_]; [lia|].
  destruct (Henv 0%nat) as [Hl Hrc]. rewrite Nat.add_0_r in Hl, Hrc.
  destruct (mem_tx_fatal conn ib (drop (Z.to_nat tx_p) MemDriver.tx_msg) tx_len
              (world p) Hok Hlen Hl Hrc) as (w1 & Htx & Hok1 & He1 & Hc1).
  unfold evalp, execp, mbind, P_bind. rewrite lift_run.
  unfold eval, exec. rewrite Htx.
  cbn beta iota zeta delta [fst snd Z.ltb Z.compare Z.eqb Pos.eqb].
  unfold eprint, sys_log.
  cbn beta iota zeta delta [fst snd world ctxs results socks sys].
  set (p1 := mkProc w1 _ _ _ _).
  specialize (IH p1 Hok1 Hlen).
  unfold evalp, execp in IH.
  destruct IH as [IH1 IH2].
  { intros k. subst p1. cbn [world]. rewrite He1, Hc1.
    replace (S (S (clock (world p))) + 2 * k)%nat
      with (clock (world p) + 2 * S k)%nat by lia.
    apply Henv. }
  split; [exact IH1|]. rewrite IH2. subst p1. cbn [sys].
  rewrite <- app_assoc. reflexivity.
Qed.

(** The same loop entered with a negative count: no call reaches the
    engine, and the loop spins on the causes alone. *)
Lemma mem_tx_loop_spins_empty (fuel : nat) (conn : Mem.APP_CONN)
  (fd tx_p tx_len : Z) (p : Proc) :
  tx_len < 0 ->
  (forall j : nat,
      ~ would_block (r_ret (env (world p) (clock (world p) + j)%nat))) ->
  evalp (MemDriver.tx_loop fuel conn fd tx_p tx_len) p = NoFuel
  /\ sys (execp (MemDriver.tx_loop fuel conn fd tx_p tx_len) p)
     = sys p ++ repeat (Cfprintf "tx error") fuel.
Proof.
  revert p. induction fuel as [|fuel IH]; intros p Hlen Henv.
  { cbn. rewrite app_nil_r. auto. }
  cbn [MemDriver.tx_loop repeat].
  destruct (Z.eqb_spec tx_len 0) as [?|_]; [lia|].
  pose proof (Henv 0%nat) as Hrc. rewrite Nat.add_0_r in Hrc.
  destruct (mem_tx_fatal_empty conn (drop (Z.to_nat tx_p) MemDriver.tx_msg) tx_len
              (world p) ltac:(lia) Hrc) as (w1 & Htx & Hh1 & He1 & Hc1).
  unfold evalp, execp, mbind, P_bind. rewrite lift_run.
  unfold eval, exec. rewrite Htx.
  cbn beta iota zeta delta [fst snd Z.ltb Z.compare Z.eqb Pos.eqb].
  unfold eprint, sys_log.
  cbn beta iota zeta delta [fst snd world ctxs results socks sys].
  set (p1 := mkProc w1 _ _ _ _).
  specialize (IH p1 Hlen).
  unfold evalp, execp in IH.
  destruct IH as [IH1 IH2].
  { intros j. subst p1. cbn [world]. rewrite He1, Hc1.
    replace (S (clock (world p)) + j)%nat
      with (clock (world p) + S j)%nat by lia.
    apply Henv. }
  split; [exact IH1|]. rewrite IH2. subst p1. cbn [sys].
  rewrite <- app_assoc. reflexivity.
Qed.

(** ** The send loops and an error of [tx] *)

(** X27: what the send loops of the drivers do with an error of [tx].
    In Demo 4 the first [tx] that fails for good ends the loop: "tx
    error" is printed once and the driver goes to [fail].  In Demo 5 the
    loop prints "tx error" and goes round again: as long as the engine
    keeps failing the loop is not left, however many iterations it is
    given, and every iteration prints the line once more. *)
Theorem send_loop_on_tx_error :
  (forall (fuel : nat) (conn : Fd.APP_CONN) (tx_p tx_len : Z) (p : Proc),
      tx_len <> 0 ->
      r_ret (env (world p) (clock (world p))) <= 0 ->
      ~ would_block (r_ret (env (world p) (S (clock (world p))))) ->
      (exists c, evalp (FdDriver.tx_loop (S fuel) conn tx_p tx_len) p = Failed c)
      /\ sys (execp (FdDriver.tx_loop (S fuel) conn tx_p tx_len) p)
         = sys p ++ [Cfprintf "tx error"])
  /\ (forall (fuel : nat) (conn : Mem.APP_CONN) (ib : addr) (fd tx_p tx_len : Z)
             (p : Proc),
      mem_conn_ok conn ib (world p) ->
      tx_len <> 0 ->
      (forall k : nat,
          r_ret (env (world p) (clock (world p) + 2 * k)%nat) <= 0
          /\ ~ would_block (r_ret (env (world p) (S (clock (world p) + 2 * k))))) ->
      evalp (MemDriver.tx_loop fuel conn fd tx_p tx_len) p = NoFuel
      /\ sys (execp (MemDriver.tx_loop fuel conn fd tx_p tx_len) p)
         = sys p ++ repeat (Cfprintf "tx error") fuel).
Proof.
  split.
  - intros fuel conn tx_p tx_len p Hlen Hl Hrc.
    cbn [FdDriver.tx_loop]. apply Z.eqb_neq in Hlen. rewrite Hlen.
    unfold evalp, execp, mbind, P_bind. rewrite lift_run.
    unfold eval, exec, Fd.tx. run. cbn [Fd.ssl Fd.set_tx_need_rx].
    destruct (Z.leb_spec (r_ret (env (world p) (clock (world p)))) 0)
      as [_|Hgt]; [|lia]. run.
    revert Hrc. codes. intros Hrc.
    destruct (Z.eqb_spec (r_ret (env (world p) (S (clock (world p))))) 2)
      as [E|_]; [lia|].
    destruct (Z.eqb_spec (r_ret (env (world p) (S (clock (world p))))) 7)
      as [E|_]; [lia|].
    destruct (Z.eqb_spec (r_ret (env (world p) (S (clock (world p))))) 3)
      as [E|_]; [lia|].
    cbn. eauto.
  - intros fuel conn ib fd tx_p tx_len p Hok Hlen Henv.
    destruct (Z.lt_trichotomy tx_len 0) as [Hneg|[?|Hpos]]; [|contradiction|].
    + apply mem_tx_loop_spins_empty; [exact Hneg|].
      intros j. destruct (Nat.Even_or_Odd j) as [[k ->]|[k ->]].
      * destruct (Henv k) as [Hl _]. codes. lia.
      * destruct (Henv k) as [_ Hrc].
        replace (clock (world p) + (2 * k + 1))%nat
          with (S (clock (world p) + 2 * k)) by lia.
        exact Hrc.
    + apply (mem_tx_loop_spins fuel conn ib); assumption.
Qed.

Lemma send_loop_on_tx_error_witness :
  let p := mkProc (mem_world 16 [] [] []) ∅ 0 ∅ [] in
  evalp (MemDriver.tx_loop 3 mem_conn0 3 0 41) p = NoFuel
  /\ sys (execp (MemDriver.tx_loop 3 mem_conn0 3 0 41) p)
     = sys p ++ repeat (Cfprintf "tx error") 3.
Proof.
  intros p.
  apply (proj2 send_loop_on_tx_error 3%nat mem_conn0 2%nat 3 0 41 p).
  - apply mem_world_ok.
  - lia.
  - intros k. cbn [p world mem_world env clock]. unfold script.
    rewrite !nth_overflow by (cbn; lia). cbn. split; [lia|].
    codes. lia.
Defined.

(** ** The receive loop and the buffer *)

Lemma delivered_app (t1 t2 : list call) :
  delivered (t1 ++ t2) = delivered t1 + delivered t2.
Proof.
  induction t1 as [|c t1 IH]; [reflexivity|].
  cbn [app delivered fold_right]. fold (delivered (t1 ++ t2)).
  fold (delivered t1). rewrite IH. destruct c; lia.
Qed.

(** One [rx] call of Demo 4, as the receive loop sees it. *)
Lemma fd_rx_read (conn : Fd.APP_CONN) (buf_len : Z) (w : World) :
  let l := r_ret (env w (clock w)) in
  let r := fst (eval (Fd.rx conn buf_len) w) in
  let w' := exec (Fd.rx conn buf_len) w in
  exists t,
    trace w' = trace w ++ CSSL_read (Fd.ssl conn) buf_len l :: t
    /\ delivered t = 0
    /\ ((0 < l /\ r = l) \/ (l <= 0 /\ (r = -1 \/ r = -2))).
Proof.
  intros l r w'. subst l r w'. unfold Fd.rx. run.
  cbn [Fd.ssl Fd.set_rx_need_tx].
  destruct (Z.leb_spec (r_ret (env w (clock w))) 0) as [Hl|Hl]; run.
  - split_codes; eexists; rewrite <- app_assoc;
      (split; [reflexivity|]); (split; [reflexivity|]); auto.
  - exists []. auto.
Qed.

(** X28: the receive loop of Demo 4's driver accounts for what it
    received and stays within its buffer.  When the loop is left for
    the output, the offset it reached has advanced by exactly the
    plaintext the engine delivered during the loop; and provided the
    engine never returned more than it was asked for, the offset is
    still within the room the loop started with. *)
Theorem fd_rx_loop_fills_buffer
  (fuel : nat) (conn c : Fd.APP_CONN) (rx_p rx_len q : Z) (p p' : Proc) :
  FdDriver.rx_loop fuel conn rx_p rx_len p = (Over c q, p') ->
  delivered (trace (world p')) = delivered (trace (world p)) + (q - rx_p)
  /\ (reads_within (trace (world p')) -> 0 <= rx_len ->
      rx_p <= q <= rx_p + rx_len).
Proof.
  intros Hrun.
  assert (G : (exists t, trace (world p') = trace (world p) ++ t)
              /\ delivered (trace (world p'))
                 = delivered (trace (world p)) + (q - rx_p)
              /\ (reads_within (trace (world p')) -> 0 <= rx_len ->
                  rx_p <= q <= rx_p + rx_len));
    [|destruct G as (_ & G); exact G].
  revert conn rx_p rx_len p Hrun.
  induction fuel as [|fuel IH]; intros conn rx_p rx_len p; [discriminate|].
  cbn [FdDriver.rx_loop].
  destruct (Z.eqb_spec rx_len 0) as [E|E].
  { unfold mret, P_ret. intros [= <- <- <-].
    split; [exists []; rewrite app_nil_r; reflexivity|]. split; lia. }
  destruct (fd_rx_read conn rx_len (world p)) as (t1 & Ht1 & Hd1 & Hr).
  unfold mbind, P_bind. rewrite lift_run.
  remember (exec (Fd.rx conn rx_len) (world p)) as w1 eqn:Hw1. clear Hw1.
  destruct (eval (Fd.rx conn rx_len) (world p)) as [r c1].
  cbn [fst snd] in Hr |- *.
  set (l := r_ret (env (world p) (clock (world p)))) in *.
  assert (Hd : delivered (trace w1) = delivered (trace (world p)) + Z.max l 0).
  { rewrite Ht1, delivered_app. cbn [delivered fold_right].
    fold (delivered t1). rewrite Hd1. lia. }
  destruct Hr as [[Hl ->]|[Hl Hr]].
  - destruct (Z.ltb_spec 0 l) as [_|?]; [|lia].
    intros Hrun. apply IH in Hrun as ((t2 & Ht2) & D & B).
    cbn [world] in Ht2, D, B.
    split; [eexists; rewrite Ht2, Ht1, <- app_assoc; reflexivity|].
    split; [rewrite D, Hd; lia|].
    intros Hw Hlen.
    assert (l <= rx_len).
    { apply (Hw (Fd.ssl conn)). rewrite Ht2, Ht1, !in_app_iff.
      left. right. left. reflexivity. }
    specialize (B Hw). lia.
  - destruct (Z.ltb_spec 0 r) as [?|_]; [lia|].
    destruct Hr as [-> | ->].
    + cbn [Z.eqb Pos.eqb]. unfold mret, P_ret. intros [= <- <- <-].
      cbn [world].
      split; [eexists; exact Ht1|]. split; [rewrite Hd; lia|lia].
    + cbn [Z.eqb Pos.eqb].
      rewrite lift_run. unfold eval, exec. rewrite poll_run.
      cbn beta iota zeta delta [fst snd world ctxs results socks sys].
      destruct (_ =? 0); [discriminate|].
      intros Hrun. apply IH in Hrun as ((t2 & Ht2) & D & B).
      cbn [world trace] in Ht2, D, B.
      split; [eexists; rewrite Ht2, Ht1, <- !app_assoc; reflexivity|].
      rewrite delivered_app in D. cbn [delivered fold_right] in D.
      split; [rewrite D, Hd; lia|exact B].
Qed.

Lemma fd_rx_loop_fills_buffer_witness :
  let p := mkProc (fresh_world [ans 5; ans (-1); ans SSL_ERROR_WANT_READ;
                                ans 1; ans 7; ans 0; ans SSL_ERROR_ZERO_RETURN])
                  ∅ 0 ∅ [] in
  let conn := Fd.mkConn 0 1 3 0 0 in
  let p' := execp (FdDriver.rx_loop 5 conn 0 2048) p in
  delivered (trace (world p')) = delivered (trace (world p)) + (12 - 0)
  /\ (reads_within (trace (world p')) -> 0 <= 2048 -> 0 <= 12 <= 0 + 2048).
Proof.
  intros p conn.
  apply (fd_rx_loop_fills_buffer 5 conn (Fd.mkConn 0 1 3 0 0) 0 2048 12 p).
  vm_compute. reflexivity.
Defined.
